(** * reposearch: the indexing pipeline, the chunk store and the search service

    A shallow embedding of the Go sources of reposearch
    (internal/indexer, internal/store, internal/search, internal/ai and the
    result shaping of cmd/api) together with the properties that the
    specification states about them, followed by further properties of the
    same code: the helpers of the indexer, the table under [UpsertChunk],
    the ranking and the filters of [Search], the listings of the store, the
    providers of internal/ai and the ref that cmd/indexer derives.

    Conventions.
    - A Go [string] is a sequence of bytes: [string] of the standard library.
    - A Go [int] is a [Z]; no computation below comes near the 64-bit range.
    - A Go slice is [slice A := option (list A)]; [None] is the [nil] slice,
      which the code distinguishes from an empty one.
    - A Go [error] is [option err]; [None] is [nil].
    - A Go call that panics does not return: [go A := option A]. *)

From Stdlib Require Import ZArith List String Ascii Bool Lia QArith Qminmax Lqa DecimalString.
From Stdlib Require DecimalZ DecimalPos.
Import ListNotations.

Local Open Scope string_scope.
Local Open Scope list_scope.
Local Open Scope Z_scope.

(* ================================================================== *)
(** * Go values *)

Definition slice (A : Type) : Type := option (list A).
Definition go (A : Type) : Type := option A.

(** The kinds of failure that the code under study can observe. *)
Inductive err : Type :=
| ErrUpstream (msg : string)          (* a model provider failed *)
| ErrUniqueViolation (constr : string) (* SQLSTATE 23505 *)
| ErrDataException (msg : string)     (* SQLSTATE 22000: a value the column type rejects *)
| ErrInvalidLimit                     (* SQLSTATE 2201W: LIMIT must not be negative *)
| ErrConn (msg : string).             (* connection level failure *)

Definition error : Type := option err.

(** [float32] and the finite part of [float64] are modelled by rationals;
    rounding is not modelled.  [math.IsNaN] and [math.IsInf] need the three
    non-finite values. *)
Definition float32 : Type := Q.

Inductive float64 : Type :=
| Fin (q : Q)
| NaN
| PosInf
| NegInf.

Module math.
Definition IsNaN (f : float64) : bool :=
  match f with NaN => true | _ => false end.

(** [math.IsInf(f, 0)]: either infinity. *)
Definition IsInf (f : float64) : bool :=
  match f with PosInf | NegInf => true | _ => false end.
End math.

(* ================================================================== *)
(** * The parts of package strings that the code calls *)

Module strings.

Definition byte_of (n : N) : ascii := ascii_of_N n.

Fixpoint of_bytes (l : list N) : string :=
  match l with
  | [] => EmptyString
  | b :: r => String (byte_of b) (of_bytes r)
  end.

Definition len (s : string) : Z := Z.of_nat (String.length s).

Definition HasPrefix (s pre : string) : bool := String.prefix pre s.

Fixpoint drop (n : nat) (s : string) : string :=
  match n, s with
  | O, _ => s
  | S _, EmptyString => EmptyString
  | S m, String _ r => drop m r
  end.

(** [s[:n]] for [0 <= n <= len(s)]. *)
Fixpoint upto (n : Z) (s : string) : string :=
  match s with
  | EmptyString => EmptyString
  | String c r => if n <=? 0 then EmptyString else String c (upto (n - 1) r)
  end.

Definition TrimPrefix (s pre : string) : string :=
  if HasPrefix s pre then drop (String.length pre) s else s.

Fixpoint Contains (s sub : string) : bool :=
  String.prefix sub s
  || match s with
     | EmptyString => false
     | String _ r => Contains r sub
     end.

(** [strings.Count(s, sep)] for a separator of one byte. *)
Fixpoint Count (s : string) (sep : ascii) : Z :=
  match s with
  | EmptyString => 0
  | String c r => (if Ascii.eqb c sep then 1 else 0) + Count r sep
  end.

(** [strings.Split(s, sep)] for a separator of one byte: always at least
    one field. *)
Fixpoint Split (s : string) (sep : ascii) : list string :=
  match s with
  | EmptyString => [EmptyString]
  | String c r =>
      if Ascii.eqb c sep then EmptyString :: Split r sep
      else match Split r sep with
           | [] => [String c EmptyString]
           | f :: fs => String c f :: fs
           end
  end.

(** [strings.ToLower] on the ASCII letters.  Bytes from 0x80 on are kept:
    the case mapping of multi-byte runes is not modelled. *)
Definition lower_byte (c : ascii) : ascii :=
  let n := N_of_ascii c in
  if ((65 <=? n) && (n <=? 90))%N then ascii_of_N (n + 32) else c.

Fixpoint ToLower (s : string) : string :=
  match s with
  | EmptyString => EmptyString
  | String c r => String (lower_byte c) (ToLower r)
  end.

Fixpoint rev_onto (s acc : string) : string :=
  match s with
  | EmptyString => acc
  | String c r => rev_onto r (String c acc)
  end.

Definition rev (s : string) : string := rev_onto s EmptyString.

(** The UTF-8 encodings of the runes for which [unicode.IsSpace] holds. *)
Definition space_runes : list string :=
  map of_bytes
    [ [9]; [10]; [11]; [12]; [13]; [32];
      [194; 133]; [194; 160];
      [225; 154; 128];
      [226; 128; 128]; [226; 128; 129]; [226; 128; 130]; [226; 128; 131];
      [226; 128; 132]; [226; 128; 133]; [226; 128; 134]; [226; 128; 135];
      [226; 128; 136]; [226; 128; 137]; [226; 128; 138];
      [226; 128; 168]; [226; 128; 169]; [226; 128; 175];
      [226; 129; 159];
      [227; 128; 128] ]%N.

Fixpoint strip_first (runes : list string) (s : string) : option string :=
  match runes with
  | [] => None
  | w :: ws =>
      if String.prefix w s then Some (drop (String.length w) s)
      else strip_first ws s
  end.

Fixpoint trim_left (fuel : nat) (runes : list string) (s : string) : string :=
  match fuel with
  | O => s
  | S f =>
      match strip_first runes s with
      | Some r => trim_left f runes r
      | None => s
      end
  end.

Definition TrimLeftSpace (s : string) : string :=
  trim_left (String.length s) space_runes s.

Definition TrimRightSpace (s : string) : string :=
  rev (trim_left (String.length s) (map rev space_runes) (rev s)).

Definition TrimSpace (s : string) : string :=
  TrimRightSpace (TrimLeftSpace s).

End strings.

(* ================================================================== *)
(** * crypto/sha1 and encoding/hex *)

Module sha1.

Definition mask32 (x : Z) : Z := Z.land x 4294967295.
Definition add32 (a b : Z) : Z := mask32 (a + b).
Definition not32 (a : Z) : Z := Z.lxor a 4294967295.

(** [bits.RotateLeft32]. *)
Definition rotl (x n : Z) : Z :=
  mask32 (Z.lor (Z.shiftl x n) (Z.shiftr x (32 - n))).

Definition bytes_of (s : string) : list Z :=
  map (fun c => Z.of_N (N_of_ascii c)) (list_ascii_of_string s).

(** Big-endian bytes of [x], [n] of them. *)
Fixpoint be_bytes (n : nat) (x : Z) : list Z :=
  match n with
  | O => []
  | S m => Z.land (Z.shiftr x (8 * Z.of_nat m)) 255 :: be_bytes m x
  end.

(** The message followed by 0x80, zeros up to 56 modulo 64, and the bit
    length on 64 bits. *)
Definition pad (msg : list Z) : list Z :=
  let l := Z.of_nat (List.length msg) in
  let zeros := Z.to_nat ((55 - l) mod 64) in
  msg ++ 128 :: repeat 0 zeros ++ be_bytes 8 (8 * l).

Fixpoint words (fuel : nat) (bs : list Z) : list Z :=
  match fuel, bs with
  | S f, b0 :: b1 :: b2 :: b3 :: r =>
      Z.lor (Z.lor (Z.shiftl b0 24) (Z.shiftl b1 16)) (Z.lor (Z.shiftl b2 8) b3)
      :: words f r
  | _, _ => []
  end.

(** The message schedule, most recent word first. *)
Fixpoint extend (n : nat) (rw : list Z) : list Z :=
  match n with
  | O => rw
  | S m =>
      let w := rotl (Z.lxor (Z.lxor (nth 2 rw 0) (nth 7 rw 0))
                            (Z.lxor (nth 13 rw 0) (nth 15 rw 0))) 1 in
      extend m (w :: rw)
  end.

Definition schedule (block : list Z) : list Z :=
  List.rev (extend 64 (List.rev (words 16 block))).

Definition state : Type := (Z * Z * Z * Z * Z)%type.

Definition round (i : Z) (st : state) (w : Z) : state :=
  let '(a, b, c, d, e) := st in
  let '(f, k) :=
    if i <? 20 then (Z.lor (Z.land b c) (Z.land (not32 b) d), 1518500249)
    else if i <? 40 then (Z.lxor (Z.lxor b c) d, 1859775393)
    else if i <? 60 then
      (Z.lor (Z.lor (Z.land b c) (Z.land b d)) (Z.land c d), 2400959708)
    else (Z.lxor (Z.lxor b c) d, 3395469782) in
  let t := add32 (add32 (add32 (add32 (rotl a 5) f) e) w) k in
  (t, a, rotl b 30, c, d).

Fixpoint rounds (i : Z) (st : state) (ws : list Z) : state :=
  match ws with
  | [] => st
  | w :: r => rounds (i + 1) (round i st w) r
  end.

Definition block (h : state) (blk : list Z) : state :=
  let '(h0, h1, h2, h3, h4) := h in
  let '(a, b, c, d, e) := rounds 0 h (schedule blk) in
  (add32 h0 a, add32 h1 b, add32 h2 c, add32 h3 d, add32 h4 e).

Fixpoint blocks (fuel : nat) (h : state) (bs : list Z) : state :=
  match fuel with
  | O => h
  | S f =>
      match bs with
      | [] => h
      | _ => blocks f (block h (firstn 64 bs)) (skipn 64 bs)
      end
  end.

Definition init : state :=
  (1732584193, 4023233417, 2562383102, 271733878, 3285377520).

(** [sha1.Sum]: the twenty bytes of the digest. *)
Definition Sum (s : string) : list Z :=
  let p := pad (bytes_of s) in
  let '(h0, h1, h2, h3, h4) := blocks (List.length p) init p in
  be_bytes 4 h0 ++ be_bytes 4 h1 ++ be_bytes 4 h2 ++ be_bytes 4 h3 ++ be_bytes 4 h4.

End sha1.

Module hex.

Definition digit (n : Z) : ascii :=
  ascii_of_N (Z.to_N (if n <? 10 then 48 + n else 87 + n)).

(** [hex.EncodeToString]: two lower-case digits for each byte. *)
Fixpoint EncodeToString (bs : list Z) : string :=
  match bs with
  | [] => EmptyString
  | b :: r => String (digit (Z.shiftr b 4)) (String (digit (Z.land b 15)) (EncodeToString r))
  end.

End hex.

(* ================================================================== *)
(** * pkg/models *)

Module models.

Record Chunk : Type := {
  ID : string;
  Repository : string;
  Ref : string;
  Path : string;
  Language : string;
  Summary : string;
  Content : string;
  LineStart : Z;
  LineEnd : Z;
  CreatedAt : Z
}.

Record SearchResult : Type := {
  Chunk_ : Chunk;
  Score : float64
}.

End models.

(* ================================================================== *)
(** * internal/store *)

Module store.
Import strings.

(** ** The interface *)

Record ChunkMeta : Type := {
  ContentHash : string;
  Summary : string;
  HasSummaryVec : bool
}.

Definition no_meta : ChunkMeta :=
  {| ContentHash := ""; Summary := ""; HasSummaryVec := false |}.

Record QueryOpts : Type := {
  Repository : string;
  Ref : string;
  Language : string;
  PathContains : string;
  QueryText : string
}.

(** [ChunkStore], for an implementation whose state has type [S].
    [GetRepositories] and [Migrate] are not called by the code under
    study. *)
Record ChunkStore (S : Type) : Type := {
  UpsertChunk : models.Chunk -> slice float32 -> string -> S -> error * S;
  Search : slice float32 -> Z -> QueryOpts -> S -> slice models.SearchResult * error;
  GetChunkMeta : string -> string -> Z -> Z -> S -> ChunkMeta * bool * error
}.
Arguments UpsertChunk {S}.
Arguments Search {S}.
Arguments GetChunkMeta {S}.

(** ** The table behind [Store]

    One row of [chunks] as [Migrate] creates it.  [id] is the primary key
    and [(repository, ref, path, line_start, line_end)] carries the unique
    index [chunks_repo_path_span_ref_uidx].  The text columns are written
    by [UpsertChunk] alone, from Go strings, so they are never NULL;
    [summary_vec] and [summarized_at] are nullable.  The generated column
    [ts_fielded] is a function of the others and is left to the engine. *)
Record Row : Type := {
  id : string;
  repository : string;
  ref : string;
  path : string;
  language : string;
  summary : string;
  content : string;
  line_start : Z;
  line_end : Z;
  summary_vec : option (list float32);
  content_hash : string;
  summarized_at : option Z;
  created_at : Z
}.

(** The database: the dimension [Migrate] gave to [summary_vec vector(D)],
    the rows in their physical order, and the clock that [now()] reads. *)
Record Pg : Type := {
  dim : Z;
  rows : list Row;
  clock : Z
}.

Definition empty (d : Z) : Pg := {| dim := d; rows := []; clock := 0 |}.

(** SQL helpers. *)
Definition NULLIF (a b : string) : option string :=
  if String.eqb a b then None else Some a.

Definition COALESCE {A : Type} (x : option A) (y : A) : A :=
  match x with Some v => v | None => y end.

Definition COALESCE_null {A : Type} (x y : option A) : option A :=
  match x with Some v => Some v | None => y end.

(** The arbiter of ON CONFLICT: the five columns of the unique index. *)
Definition same_key (c : models.Chunk) (r : Row) : bool :=
  String.eqb (repository r) (models.Repository c)
  && String.eqb (ref r) (models.Ref c)
  && String.eqb (path r) (models.Path c)
  && (line_start r =? models.LineStart c)
  && (line_end r =? models.LineEnd c).

(** VALUES (...) of the INSERT. *)
Definition excluded (c : models.Chunk) (sv : option (list float32))
    (contentHash : string) (now : Z) : Row :=
  {| id := models.ID c;
     repository := models.Repository c;
     ref := models.Ref c;
     path := models.Path c;
     language := models.Language c;
     summary := models.Summary c;
     content := models.Content c;
     line_start := models.LineStart c;
     line_end := models.LineEnd c;
     summary_vec := sv;
     content_hash := contentHash;
     summarized_at := if String.eqb (models.Summary c) "" then None else Some now;
     created_at := now |}.

(** DO UPDATE SET ... *)
Definition do_update (old new : Row) : Row :=
  {| id := id old;
     repository := repository old;
     ref := ref old;
     path := path old;
     language := language new;
     summary := COALESCE (NULLIF (summary new) "") (summary old);
     content := content new;
     line_start := line_start old;
     line_end := line_end old;
     summary_vec := COALESCE_null (summary_vec new) (summary_vec old);
     content_hash := content_hash new;
     summarized_at := COALESCE_null (summarized_at new) (summarized_at old);
     created_at := created_at old |}.

(** A value for a [vector(D)] column has exactly [D] elements. *)
Definition fits (d : Z) (sv : option (list float32)) : bool :=
  match sv with
  | None => true
  | Some v => Z.of_nat (List.length v) =? d
  end.

Definition tick (st : Pg) (rs : list Row) : Pg :=
  {| dim := dim st; rows := rs; clock := clock st + 1 |}.

(** The WHERE clause of the lookup; [ref] is not part of it. *)
Definition meta_match (repo pth : string) (ls le : Z) (r : Row) : bool :=
  String.eqb (repository r) repo
  && String.eqb (path r) pth
  && (line_start r =? ls)
  && (line_end r =? le).

(** ** The ranking query *)

(** What the database engine computes and the repository does not define:
    which element lists the input of the type [vector] accepts, pgvector's
    [cosine_distance] (a double, NaN when a norm is zero), [ts_rank_cd] of
    the summary (weight B) against the two tsqueries built from the query
    text, and pg_trgm's [similarity]. *)
Record Engine : Type := {
  vector_in : list float32 -> bool;
  cosine_distance : list float32 -> list float32 -> float64;
  ts_rank_cd : string -> string -> Q;
  similarity : string -> string -> Q
}.

(** [pgvector.NewVector]: wraps the slice; a [nil] slice is a vector with
    no element, not NULL. *)
Definition NewVector (v : slice float32) : list float32 :=
  match v with Some l => l | None => [] end.

(** pgvector's rule for the input of a vector: at least one dimension. *)
Definition at_least_one_dimension (v : list float32) : bool :=
  negb (Nat.eqb (List.length v) 0).

Definition is_token_byte (c : ascii) : bool :=
  let n := N_of_ascii c in
  (((65 <=? n) && (n <=? 90)) || ((97 <=? n) && (n <=? 122))
   || ((48 <=? n) && (n <=? 57)) || (n =? 46) || (n =? 95) || (n =? 45))%N.

Definition flush (cur : string) : list string :=
  if String.eqb cur "" then [] else [cur].

(** [re.FindAllString] for [[A-Za-z0-9._-]+]: the maximal runs. *)
Fixpoint tokens (s cur : string) : list string :=
  match s with
  | EmptyString => flush cur
  | String c r =>
      if is_token_byte c then tokens r (cur ++ String c EmptyString)%string
      else flush cur ++ tokens r ""
  end.

Definition longestToken (s : string) : string :=
  fold_left (fun longest t => if len t >? len longest then t else longest)
            (tokens (ToLower s) "") "".

Definition askedForScript (qtext : string) : bool :=
  let lq := ToLower qtext in
  Contains lq "script" || Contains lq "scripts" || Contains lq "bash"
  || Contains lq "shell" || Contains lq "code" || Contains lq "program"
  || Contains lq "programs" || Contains lq "python" || Contains lq "cli".

(** LIKE: [%] any run of bytes, [_] any byte, backslash quotes the next
    byte. *)
Fixpoint like (p : list ascii) : list ascii -> bool :=
  match p with
  | [] => fun s => match s with [] => true | _ => false end
  | c :: p' =>
      if Ascii.eqb c "%" then
        (fix star (s : list ascii) : bool :=
           like p' s || match s with [] => false | _ :: s' => star s' end)
      else if Ascii.eqb c "_" then
        fun s => match s with [] => false | _ :: s' => like p' s' end
      else if Ascii.eqb c "\" then
        match p' with
        | [] => fun _ => false
        | d :: p'' =>
            fun s => match s with
                     | [] => false
                     | x :: s' => Ascii.eqb x d && like p'' s'
                     end
        end
      else
        fun s => match s with
                 | [] => false
                 | x :: s' => Ascii.eqb x c && like p' s'
                 end
  end.

(** [path ILIKE '%' || $n || '%'], case folded as [ToLower] does. *)
Definition ilike_contains (pth pat : string) : bool :=
  like (list_ascii_of_string (ToLower ("%" ++ pat ++ "%")%string))
       (list_ascii_of_string (ToLower pth)).

(** The WHERE clause that [Search] assembles. *)
Definition where_ (opt : QueryOpts) (r : Row) : bool :=
  (if String.eqb (Repository opt) "" then true
   else String.eqb (repository r) (Repository opt))
  && (if String.eqb (Language opt) "" then true
      else String.eqb (language r) (Language opt))
  && (if String.eqb (PathContains opt) "" then true
      else ilike_contains (path r) (PathContains opt))
  && (if String.eqb (Ref opt) "" then true
      else String.eqb (ref r) (Ref opt)).

(** [LEAST(GREATEST(x, 0), 1)] on a nullable double.  GREATEST and LEAST
    skip NULL arguments, and NaN sorts above every number. *)
Definition LEAST_GREATEST_0_1 (x : option float64) : Q :=
  match x with
  | None => 0
  | Some (Fin q) => Qmin (Qmax q 0) 1
  | Some NaN => 1
  | Some PosInf => 1
  | Some NegInf => 0
  end.

Definition one_minus (d : float64) : float64 :=
  match d with
  | Fin q => Fin (1 - q)
  | NaN => NaN
  | PosInf => NegInf
  | NegInf => PosInf
  end.

Definition noise_words : list string :=
  ["sample"; "example"; "test"; "mock"; "fixture"; "tmp"; "temp"; "sandbox"].

(** The last group of the pattern as the engine receives it,
    [(/|\\.|$)]: a slash, or a backslash followed by any byte, or the end
    of the string. *)
Definition noise_tail (s : string) : bool :=
  match s with
  | EmptyString => true
  | String c r =>
      Ascii.eqb c "/"
      || (Ascii.eqb c "\" && negb (String.eqb r ""))
  end.

Definition noise_here (s : string) : bool :=
  existsb (fun w => String.prefix w s && noise_tail (drop (String.length w) s))
          noise_words.

(** [(?:(^|.*/))]: at the start of the string or just after a slash. *)
Fixpoint noise_scan (at_start : bool) (s : string) : bool :=
  (at_start && noise_here s)
  || match s with
     | EmptyString => false
     | String c r => noise_scan (Ascii.eqb c "/") r
     end.

Definition noise_penalty_of (pth : string) : Z :=
  if noise_scan true (ToLower pth) then 1 else 0.

Definition in_list (x : string) (l : list string) : bool :=
  existsb (String.eqb x) l.

Definition script_bias_of (asked : bool) (lang : string) : Z :=
  if asked then
    if in_list lang ["shell"; "bash"; "sh"; "python"; "py"; "go"] then 1
    else if in_list lang ["yaml"; "terraform"; "tf"; "json"] then -1
    else 0
  else 0.

(** One row of the CTE [cand]. *)
Record Cand : Type := {
  row : Row;
  sem_sim : Q;
  lex_sum : Q;
  tri : Q;
  script_bias : Z;
  noise_penalty : Z
}.

Definition cand (eng : Engine) (sv : list float32) (qtext tri_term : string)
    (asked : bool) (r : Row) : Cand :=
  {| row := r;
     sem_sim :=
       LEAST_GREATEST_0_1
         (match summary_vec r with
          | Some v => Some (one_minus (cosine_distance eng v sv))
          | None => None
          end);
     lex_sum :=
       LEAST_GREATEST_0_1
         (Some (Fin (ts_rank_cd eng (COALESCE (Some (summary r)) "") qtext)));
     tri :=
       COALESCE
         (match NULLIF tri_term "" with
          | Some t => Some (similarity eng (ToLower (path r)) (ToLower t))
          | None => None
          end) 0%Q;
     script_bias := script_bias_of asked (language r);
     noise_penalty := noise_penalty_of (path r) |}.

(** [MAX(x) OVER ()] over a candidate set with at least one row. *)
Definition max_over (f : Cand -> Q) (cs : list Cand) : Q :=
  match cs with
  | [] => 0%Q
  | c :: r => fold_left (fun m x => Qmax m (f x)) r (f c)
  end.

(** [COALESCE(x / NULLIF(m, 0), 0)]. *)
Definition normalized (x m : Q) : Q :=
  if Qeq_bool m 0 then 0%Q else (x / m)%Q.

Definition score_of (max_sem max_lex max_tri : Q) (c : Cand) : Q :=
  ((80 # 100) * normalized (sem_sim c) max_sem
   + (15 # 100) * normalized (lex_sum c) max_lex
   + (5 # 100) * normalized (tri c) max_tri
   + (10 # 100) * inject_Z (script_bias c)
   - (7 # 100) * inject_Z (noise_penalty c))%Q.

Definition scored (cs : list Cand) : list (Cand * Q) :=
  let max_sem := max_over sem_sim cs in
  let max_lex := max_over lex_sum cs in
  let max_tri := max_over tri cs in
  map (fun c => (c, score_of max_sem max_lex max_tri c)) cs.

(** ORDER BY score DESC.  The engine leaves the order of ties open; the
    model keeps them in candidate order. *)
Fixpoint insert_desc (x : Cand * Q) (l : list (Cand * Q)) : list (Cand * Q) :=
  match l with
  | [] => [x]
  | y :: r => if Qle_bool (snd y) (snd x) then x :: l else y :: insert_desc x r
  end.

Definition order_desc (l : list (Cand * Q)) : list (Cand * Q) :=
  fold_right insert_desc [] l.

Definition to_result (x : Cand * Q) : models.SearchResult :=
  let r := row (fst x) in
  {| models.Chunk_ :=
       {| models.ID := id r;
          models.Repository := repository r;
          models.Ref := ref r;
          models.Path := path r;
          models.Language := language r;
          models.Summary := summary r;
          models.Content := content r;
          models.LineStart := line_start r;
          models.LineEnd := line_end r;
          models.CreatedAt := created_at r |};
     models.Score := Fin (snd x) |}.

(** The statement itself.  Binding [$1::vector] fails on an element list
    that the type refuses, a negative LIMIT is refused, and
    [cosine_distance] fails on two vectors of different dimensions. *)
Definition ranking_query (eng : Engine) (sv : list float32)
    (qtext longest : string) (asked : bool) (opt : QueryOpts) (k : Z)
    (st : Pg) : err + list (Cand * Q) :=
  if negb (vector_in eng sv) then
    inl (ErrDataException "vector must have at least 1 dimension")
  else if k <? 0 then inl ErrInvalidLimit
  else
    let from := filter (where_ opt) (rows st) in
    if existsb (fun r => match summary_vec r with
                         | Some v => negb (Nat.eqb (List.length v) (List.length sv))
                         | None => false
                         end) from
    then inl (ErrDataException "different vector dimensions")
    else
      inr (firstn (Z.to_nat k)
                  (order_desc (scored (map (cand eng sv qtext longest asked) from)))).

(** ** The methods of [*Store] *)

Module Store.

(** [Store.UpsertChunk].  A [nil] slice is bound as NULL, any other as a
    vector.  A row with the same key is updated in place; otherwise the row
    is inserted, unless its [id] is taken, in which case the primary key
    rejects it. *)
Definition UpsertChunk (c : models.Chunk) (summaryVec : slice float32)
    (contentHash : string) (st : Pg) : error * Pg :=
  let sv := match summaryVec with
            | Some v => Some v
            | None => None
            end in
  let new := excluded c sv contentHash (clock st) in
  if negb (fits (dim st) sv) then
    (Some (ErrDataException "expected other dimensions"), tick st (rows st))
  else if existsb (same_key c) (rows st) then
    (None, tick st (map (fun r => if same_key c r then do_update r new else r) (rows st)))
  else if existsb (fun r => String.eqb (id r) (models.ID c)) (rows st) then
    (Some (ErrUniqueViolation "chunks_pkey"), tick st (rows st))
  else
    (None, tick st (rows st ++ [new])).

(** [Store.GetChunkMeta]: LIMIT 1 without an order, modelled as the first
    matching row in physical order; no row is not an error. *)
Definition GetChunkMeta (repo pth : string) (ls le : Z) (st : Pg)
    : ChunkMeta * bool * error :=
  match find (meta_match repo pth ls le) (rows st) with
  | Some r =>
      ({| ContentHash := content_hash r;
          Summary := COALESCE (Some (summary r)) "";
          HasSummaryVec := match summary_vec r with Some _ => true | None => false end |},
       true, None)
  | None => (no_meta, false, None)
  end.

(** [Store.Search]. *)
Definition Search (eng : Engine) (summaryVec : slice float32) (k : Z)
    (opt : QueryOpts) (st : Pg) : slice models.SearchResult * error :=
  let qtext := TrimSpace (QueryText opt) in
  if String.eqb qtext "" then (Some [], None)
  else
    let sv := NewVector summaryVec in
    let longest := longestToken qtext in
    match ranking_query eng sv qtext longest (askedForScript qtext) opt k st with
    | inl e => (None, Some e)
    | inr rs =>
        (* [out] starts as the nil slice and grows by one element per row *)
        (match rs with [] => None | _ => Some (map to_result rs) end, None)
    end.

End Store.

(** [*Store] as a [ChunkStore]. *)
Definition PgStore (eng : Engine) : ChunkStore Pg :=
  {| UpsertChunk := Store.UpsertChunk;
     Search := Store.Search eng;
     GetChunkMeta := Store.GetChunkMeta |}.

End store.

(* ================================================================== *)
(** * internal/ai: the client interface and the stub *)

Module ai.
Import strings.

(** [Client].  The providers are deterministic functions of their
    arguments here; a call may panic. *)
Record Client : Type := {
  Embed : string -> go (slice float32 * error);
  Summarize : string -> string -> string -> go (string * error);
  Dim : Z
}.

Record StubClient : Type := { dim : Z }.

Definition NewStubClient (d : Z) : StubClient := {| dim := d |}.

(** [make([]float32, n)]: [n] zeros; a negative [n] panics. *)
Definition make_float32 (n : Z) : go (list float32) :=
  if n <? 0 then None else Some (repeat 0%Q (Z.to_nat n)).

Definition min (a b : Z) : Z := if a <? b then a else b.

(** The [for] loop of [Summarize]: the first line that returns. *)
Fixpoint first_comment (lines : list string) : option string :=
  match lines with
  | [] => None
  | line :: rest =>
      let line := TrimSpace line in
      if HasPrefix line "#" || HasPrefix line "//" then
        if len line >? 10 then Some line else first_comment rest
      else first_comment rest
  end.

(** ** The methods of [*StubClient] *)

Module StubClient.

Definition Embed (s : StubClient) (text : string) : go (slice float32 * error) :=
  match make_float32 (dim s) with
  | Some v => Some (Some v, None)
  | None => None
  end.

Definition Summarize (s : StubClient) (filePath language content : string)
    : string * error :=
  let lines := Split content "010" in
  match first_comment (firstn (Z.to_nat (min 5 (Z.of_nat (List.length lines)))) lines) with
  | Some line => (line, None)
  | None => (("Code file: " ++ filePath)%string, None)
  end.

Definition Dim (s : StubClient) : Z := dim s.

End StubClient.

(** [*StubClient] as a [Client]. *)
Definition Stub (s : StubClient) : Client :=
  {| Embed := StubClient.Embed s;
     Summarize := fun filePath language content =>
                    Some (StubClient.Summarize s filePath language content);
     Dim := StubClient.Dim s |}.

End ai.

(* ================================================================== *)
(** * internal/indexer *)

Module indexer.
Import strings.

(** What a run does to the outside, in order. *)
Inductive Event : Type :=
| CallSummarize (filePath language content : string)
| CallEmbed (text : string)
| LogIndexingChunk (path : string) (lines : Z) (need_summary need_embed : bool)
| CallUpsertChunk (c : models.Chunk) (summaryVec : slice float32)
                  (contentHash : string) (result : error).

(** Computations over a store of state [S] that record their events and
    may panic. *)
Definition M (S A : Type) : Type := S -> go (A * S * list Event).

Definition ret {S A : Type} (a : A) : M S A := fun s => Some (a, s, []).

Definition bind {S A B : Type} (m : M S A) (k : A -> M S B) : M S B :=
  fun s =>
    match m s with
    | None => None
    | Some (a, s1, l1) =>
        match k a s1 with
        | None => None
        | Some (b, s2, l2) => Some (b, s2, l1 ++ l2)
        end
    end.

Definition emit {S : Type} (e : Event) : M S unit := fun s => Some (tt, s, [e]).

Definition panic {S A : Type} : M S A := fun _ => None.

Definition lift {S A : Type} (x : go A) : M S A :=
  fun s => match x with Some a => Some (a, s, []) | None => None end.

Declare Scope go_scope.
Delimit Scope go_scope with go.
Notation "x <- m ;; k" := (bind m (fun x => k))
  (at level 61, m at next level, right associativity) : go_scope.
Notation "m ;;; k" := (bind m (fun _ => k))
  (at level 61, right associativity) : go_scope.
Local Open Scope go_scope.

(** [FileSystemWalker]: the entries handed to the callback, with
    [de != nil && de.IsDir()], and the error of the walk.  [FileReader]:
    the content or an error. *)
Definition FileSystemWalker : Type := string -> list (string * bool) * error.
Definition FileReader : Type := string -> string * error.

Record Indexer (S : Type) : Type := {
  Store : store.ChunkStore S;
  RepoRoot : string;
  Repository : string;
  Ref : string;
  Client : option ai.Client;
  Walker : FileSystemWalker;
  FileReader_ : FileReader
}.
Arguments Store {S}.
Arguments RepoRoot {S}.
Arguments Repository {S}.
Arguments Ref {S}.
Arguments Client {S}.
Arguments Walker {S}.
Arguments FileReader_ {S}.

Definition hashContent (s : string) : string :=
  hex.EncodeToString (sha1.Sum s).

Record workItem : Type := { path : string; content : string }.

Record chunk : Type := { Content : string; LineStart : Z; LineEnd : Z }.

Definition naiveChunk (path content : string) : list chunk :=
  let lines := Count content "010" + 1 in
  [ {| Content := content; LineStart := 1; LineEnd := lines |} ].

Definition summarizeHeuristic (s : string) : string :=
  let s := TrimSpace s in
  if len s >? 240 then upto 240 s else s.

(** [filepath.Ext]: from the last dot of the last element. *)
Inductive ext_scan : Type := Found (e : string) | Separator | Neither.

Fixpoint scan_ext (s : string) : ext_scan :=
  match s with
  | EmptyString => Neither
  | String c r =>
      match scan_ext r with
      | Found e => Found e
      | Separator => Separator
      | Neither =>
          if Ascii.eqb c "." then Found s
          else if Ascii.eqb c "/" then Separator
          else Neither
      end
  end.

Definition Ext (p : string) : string :=
  match scan_ext p with Found e => e | _ => "" end.

Definition skipped_dirs : list string :=
  ["/vendor/"; "/.git/"; "/.terraform/"; "/node_modules/"; "/target/";
   "/build/"; "/dist/"; "/out/"; "/bin/"; "/obj/"; "/.venv/"; "/venv/";
   "/__pycache__/"; "/.pytest_cache/"; "/.gradle/"; "/.m2/"; "/.idea/";
   "/coverage/"; "/.cache/"].

Definition skipped_exts : list string :=
  [".png"; ".jpg"; ".jpeg"; ".gif"; ".pdf"; ".webp"; ".lock"; ".zip";
   ".svg"; ".exe"; ".dll"; ".xml"; ".sum"; ".mod"; ".sql"].

Definition shouldSkip (path : string) : bool :=
  let p := ToLower path in
  if existsb (Contains p) skipped_dirs then true
  else if existsb (String.eqb (Ext p)) skipped_exts then true
  else false.

Definition fmtI (i : Z) : string :=
  DecimalString.NilZero.string_of_int (Z.to_int i).

Definition chunkID (path : string) (a b : Z) : string :=
  hex.EncodeToString (sha1.Sum (path ++ "#" ++ fmtI a ++ ":" ++ fmtI b)%string).

Definition guessLang (path : string) : string :=
  let ext := ToLower (Ext path) in
  if String.eqb ext ".sh" then "shell"
  else if String.eqb ext ".py" then "python"
  else if String.eqb ext ".go" then "go"
  else if String.eqb ext ".md" then "markdown"
  else if String.eqb ext ".tf" then "terraform"
  else if String.eqb ext ".js" then "javascript"
  else if String.eqb ext ".ts" then "typescript"
  else if String.eqb ext ".java" then "java"
  else if String.eqb ext ".rb" then "ruby"
  else if String.eqb ext ".yaml" || String.eqb ext ".yml" then "yaml"
  else if String.eqb ext ".json" then "json"
  else TrimPrefix ext ".".

Section WithFilepath.

(** [filepath.Rel] of the Go library. *)
Variable filepath_Rel : string -> string -> string * error.

Definition rel (root p : string) : string :=
  let '(r, err) := filepath_Rel root p in
  match err with
  | Some _ => p
  | None => r
  end.

Context {S : Type}.

(** [s, err := ix.Client.Summarize(...)] followed by the test
    [err == nil && strings.TrimSpace(s) != ""]. *)
Definition summarize_or_heuristic (c : ai.Client) (relPath lang text whole : string)
    : M S string :=
  emit (CallSummarize relPath lang text) ;;;
  r <- lift (ai.Summarize c relPath lang text) ;;
  let '(s, err) := r in
  match err with
  | None =>
      if negb (String.eqb (TrimSpace s) "") then ret s
      else ret (summarizeHeuristic whole)
  | Some _ => ret (summarizeHeuristic whole)
  end.

(** The body of the loop of [processWorkItem]. *)
Definition processChunk (ix : Indexer S) (item : workItem) (ch : chunk) : M S unit :=
  let relPath := rel (RepoRoot ix) (path item) in
  let lang := guessLang (path item) in
  let hash := hashContent (Content ch) in
  r <- (fun s => Some (store.GetChunkMeta (Store ix) (Repository ix) relPath
                                          (LineStart ch) (LineEnd ch) s, s, [])) ;;
  let '(meta, found, err) := r in
  let '(needSummary, needEmbed) :=
    match err with
    | Some _ => (true, true)
    | None =>
        (negb found
         || negb (String.eqb (store.ContentHash meta) hash)
         || String.eqb (store.Summary meta) "",
         negb found
         || negb (String.eqb (store.ContentHash meta) hash)
         || negb (store.HasSummaryVec meta))
    end in
  summary <-
    (if needSummary then
       match Client ix with
       | Some c =>
           if len (Content ch) >? 400000
           then summarize_or_heuristic c relPath lang (upto 400000 (Content ch)) (Content ch)
           else summarize_or_heuristic c relPath lang (Content ch) (Content ch)
       | None => ret (summarizeHeuristic (Content ch))
       end
     else ret (store.Summary meta)) ;;
  let id := chunkID relPath (LineStart ch) (LineEnd ch) in
  summaryVec <-
    (if needEmbed then
       match Client ix with
       | Some c =>
           emit (CallEmbed summary) ;;;
           r <- lift (ai.Embed c summary) ;;
           ret (fst r)
       | None => panic
       end
     else ret None) ;;
  let m :=
    {| models.ID := id;
       models.Repository := Repository ix;
       models.Ref := Ref ix;
       models.Path := relPath;
       models.Language := lang;
       models.Summary := summary;
       models.Content := Content ch;
       models.LineStart := LineStart ch;
       models.LineEnd := LineEnd ch;
       models.CreatedAt := 0 |} in
  emit (LogIndexingChunk relPath (LineEnd ch - LineStart ch + 1) needSummary needEmbed) ;;;
  (fun s =>
     let '(e, s') := store.UpsertChunk (Store ix) m summaryVec hash s in
     (* a failed upsert is logged and the loop goes on *)
     Some (tt, s', [CallUpsertChunk m summaryVec hash e])).

Fixpoint forEach {A : Type} (f : A -> M S unit) (l : list A) : M S unit :=
  match l with
  | [] => ret tt
  | a :: r => f a ;;; forEach f r
  end.

Definition processWorkItem (ix : Indexer S) (item : workItem) : M S error :=
  let chunks := naiveChunk (path item) (content item) in
  forEach (processChunk ix item) chunks ;;;
  ret None.

(** The callback that [Run] gives to the walker, with the worker that
    takes the item from the channel. *)
Definition visit (ix : Indexer S) (entry : string * bool) : M S unit :=
  let '(p, is_dir) := entry in
  if is_dir then ret tt
  else if shouldSkip p then ret tt
  else
    let '(b, err) := FileReader_ ix p in
    match err with
    | Some _ => ret tt
    | None =>
        _ <- processWorkItem ix {| path := p; content := b |} ;;
        ret tt
    end.

(** [Indexer.Run].  The pool of workers is one consumer that takes the
    items in the order of the walk; the context is never cancelled, and
    [processWorkItem] returns no error, so the result is the error of
    the walk. *)
Definition Run (ix : Indexer S) : M S error :=
  let '(entries, walkErr) := Walker ix (RepoRoot ix) in
  forEach (visit ix) entries ;;;
  ret walkErr.

End WithFilepath.

End indexer.

(* ================================================================== *)
(** * internal/search *)

Module search.
Import strings.

Record Service (S : Type) : Type := {
  Client : ai.Client;
  Store : store.ChunkStore S
}.
Arguments Client {S}.
Arguments Store {S}.

Definition NewService {S : Type} (client : ai.Client) (st : store.ChunkStore S)
    : Service S :=
  {| Client := client; Store := st |}.

Definition with_QueryText (opt : store.QueryOpts) (q : string) : store.QueryOpts :=
  {| store.Repository := store.Repository opt;
     store.Ref := store.Ref opt;
     store.Language := store.Language opt;
     store.PathContains := store.PathContains opt;
     store.QueryText := q |}.

(** [Service.Query]. *)
Definition Query {S : Type} (s : Service S) (q : string) (k : Z)
    (opt : store.QueryOpts) (st : S) : go (slice models.SearchResult * error) :=
  let q := TrimSpace q in
  let opt := with_QueryText opt q in
  match ai.Embed (Client s) q with
  | None => None
  | Some (head, err) =>
      let head := match err with
                  | Some _ => None
                  | None => head
                  end in
      let '(res, err) := store.Search (Store s) head k opt st in
      match err with
      | Some e => Some (None, Some e)
      | None => Some (res, None)
      end
  end.

End search.

(* ================================================================== *)
(** * cmd/api: shaping of the results *)

Module api.

Record Simple : Type := {
  Path : string;
  Language : string;
  LineStart : Z;
  LineEnd : Z;
  Score : float64;
  Preview : string;
  Summary : string;
  Ref : string;
  Repository : string
}.

Definition clamp (score : float64) : float64 :=
  if math.IsNaN score || math.IsInf score then Fin 0 else score.

(** [output]. *)
Definition output (res : slice models.SearchResult) : list Simple :=
  map (fun r =>
         let score := clamp (models.Score r) in
         let preview := models.Content (models.Chunk_ r) in
         {| Path := models.Path (models.Chunk_ r);
            Language := models.Language (models.Chunk_ r);
            LineStart := models.LineStart (models.Chunk_ r);
            LineEnd := models.LineEnd (models.Chunk_ r);
            Score := score;
            Preview := preview;
            Summary := models.Summary (models.Chunk_ r);
            Ref := models.Ref (models.Chunk_ r);
            Repository := models.Repository (models.Chunk_ r) |})
      (match res with Some l => l | None => [] end).

(** The loop of the [/search] handler over a non-nil result. *)
Definition handler_scores (res : list models.SearchResult) : list models.SearchResult :=
  map (fun r => {| models.Chunk_ := models.Chunk_ r;
                   models.Score := clamp (models.Score r) |}) res.

End api.

(* ================================================================== *)
(** * The specification's own wording, for comparison *)

Module spec.
Import strings.

(** "count of newline characters in the content". *)
Definition newlines (content : string) : Z :=
  Z.of_nat (count_occ ascii_dec (list_ascii_of_string content) "010"%char).

(** "comment-like line: [#] or [//] prefix after trimming, length > 10". *)
Definition comment_like (line : string) : bool :=
  (HasPrefix line "#" || HasPrefix line "//") && (len line >? 10).

(** "the first comment-like line among the first five lines, else
    [Code file: <path>]". *)
Definition stub_summary (filePath content : string) : string :=
  match find comment_like (map TrimSpace (firstn 5 (Split content "010"))) with
  | Some line => line
  | None => ("Code file: " ++ filePath)%string
  end.

Definition finite (f : float64) : Prop :=
  math.IsNaN f = false /\ math.IsInf f = false.

(** The delta policy of the indexing pipeline. *)
Definition need_summary (found : bool) (stored_hash stored_summary hash : string) : bool :=
  negb found || negb (String.eqb stored_hash hash) || String.eqb stored_summary "".

Definition need_embed (found : bool) (stored_hash : string) (has_vec : bool)
    (hash : string) : bool :=
  negb found || negb (String.eqb stored_hash hash) || negb has_vec.

End spec.

(* ================================================================== *)
(** * Invariants of the table *)

Module invariants.

(** The primary key of [chunks]: no two rows with one [id]. *)
Definition pk_unique (st : store.Pg) : Prop :=
  NoDup (map store.id (store.rows st)).

(** The identifiers of a table written by the indexer alone: every [id]
    is [chunkID] of the row's path and span. *)
Definition ids_derived (st : store.Pg) : Prop :=
  Forall (fun r => store.id r
                   = indexer.chunkID (store.path r) (store.line_start r) (store.line_end r))
         (store.rows st).

End invariants.

(* ================================================================== *)
(** * Names for the steps of the indexer *)

Module steps.
Import indexer.

Section WithFilepath.
Variable filepath_Rel : string -> string -> string * error.
Context {S : Type}.

(** The span that [naiveChunk] gives to a text. *)
Definition last_line (body : string) : Z := strings.Count body "010" + 1.

(** What [processWorkItem] sends to [Summarize]. *)
Definition sent_text (body : string) : string :=
  if strings.len body >? 400000 then strings.upto 400000 body else body.

(** The summary it keeps from the answer. *)
Definition kept_summary (answer : string * error) (body : string) : string :=
  match snd answer with
  | None =>
      if negb (String.eqb (strings.TrimSpace (fst answer)) "") then fst answer
      else summarizeHeuristic body
  | Some _ => summarizeHeuristic body
  end.

(** The two decisions, from the answer of [GetChunkMeta]. *)
Definition decide (answer : store.ChunkMeta * bool * error) (hash : string)
    : bool * bool :=
  let '(meta, found, err) := answer in
  match err with
  | Some _ => (true, true)
  | None =>
      (spec.need_summary found (store.ContentHash meta) (store.Summary meta) hash,
       spec.need_embed found (store.ContentHash meta) (store.HasSummaryVec meta) hash)
  end.

(** The chunk it hands to [UpsertChunk]. *)
Definition upsert_arg (ix : Indexer S) (item : workItem) (summary : string)
    : models.Chunk :=
  let relPath := rel filepath_Rel (RepoRoot ix) (path item) in
  {| models.ID := chunkID relPath 1 (last_line (content item));
     models.Repository := Repository ix;
     models.Ref := Ref ix;
     models.Path := relPath;
     models.Language := guessLang (path item);
     models.Summary := summary;
     models.Content := content item;
     models.LineStart := 1;
     models.LineEnd := last_line (content item);
     models.CreatedAt := 0 |}.

(** [processWorkItem] in straight line, for a client that is not nil. *)
Definition step (ix : Indexer S) (c : ai.Client) (item : workItem) (st : S)
    : go (error * S * list Event) :=
  let relPath := rel filepath_Rel (RepoRoot ix) (path item) in
  let lang := guessLang (path item) in
  let body := content item in
  let hash := hashContent body in
  let answer := store.GetChunkMeta (Store ix) (Repository ix) relPath 1
                                   (last_line body) st in
  let '(needSummary, needEmbed) := decide answer hash in
  match
    (if needSummary
     then option_map (fun a => kept_summary a body)
                     (ai.Summarize c relPath lang (sent_text body))
     else Some (store.Summary (fst (fst answer))))
  with
  | None => None
  | Some summary =>
      match (if needEmbed then option_map fst (ai.Embed c summary) else Some None) with
      | None => None
      | Some vec =>
          let m := upsert_arg ix item summary in
          let '(e, st') := store.UpsertChunk (Store ix) m vec hash st in
          Some (None, st',
                (if needSummary then [CallSummarize relPath lang (sent_text body)] else [])
                ++ (if needEmbed then [CallEmbed summary] else [])
                ++ [LogIndexingChunk relPath (last_line body - 1 + 1) needSummary needEmbed;
                    CallUpsertChunk m vec hash e])
      end
  end.

(** The items that reach [processWorkItem] in a run. *)
Definition reaches (ix : Indexer S) (entry : string * bool) : list workItem :=
  if snd entry then []
  else if shouldSkip (fst entry) then []
  else match snd (FileReader_ ix (fst entry)) with
       | Some _ => []
       | None => [ {| path := fst entry; content := fst (FileReader_ ix (fst entry)) |} ]
       end.

Definition work (ix : Indexer S) : list workItem :=
  flat_map (reaches ix) (fst (Walker ix (RepoRoot ix))).

(** [other] has the content of [item] if it has its relative path. *)
Definition agrees (ix : Indexer S) (other item : workItem) : Prop :=
  rel filepath_Rel (RepoRoot ix) (path other) = rel filepath_Rel (RepoRoot ix) (path item) ->
  content other = content item.

(** Two items of a walk with one relative path have one content. *)
Definition one_content_per_path (ix : Indexer S) : Prop :=
  forall a b : workItem,
    In a (work ix) -> In b (work ix) ->
    rel filepath_Rel (RepoRoot ix) (path a) = rel filepath_Rel (RepoRoot ix) (path b) ->
    content a = content b.

End WithFilepath.

(** The first run stored what the second run looks for: every embedding
    call returned a vector, and every upsert succeeded with a summary that
    is not empty. *)
Definition stores (c : ai.Client) (e : Event) : Prop :=
  match e with
  | CallEmbed text => exists v err, ai.Embed c text = Some (Some v, err)
  | CallUpsertChunk m _ _ result => result = None /\ models.Summary m <> ""
  | _ => True
  end.

(** A run that calls no model and decides (false, false) for every
    chunk. *)
Definition quiet (e : Event) : Prop :=
  match e with
  | CallSummarize _ _ _ => False
  | CallEmbed _ => False
  | LogIndexingChunk _ _ need_summary need_embed =>
      need_summary = false /\ need_embed = false
  | CallUpsertChunk _ summaryVec _ _ => summaryVec = None
  end.

(** The row that [GetChunkMeta] finds carries the hash, a summary and a
    vector. *)
Definition good (st : store.Pg) (repo pth : string) (ls le : Z) (h : string) : Prop :=
  exists r : store.Row,
    find (store.meta_match repo pth ls le) (store.rows st) = Some r
    /\ store.content_hash r = h
    /\ store.summary r <> ""
    /\ store.summary_vec r <> None.

Definition item_good (filepath_Rel : string -> string -> string * error)
    (ix : Indexer store.Pg) (st : store.Pg) (item : workItem) : Prop :=
  good st (Repository ix) (rel filepath_Rel (RepoRoot ix) (path item)) 1
       (last_line (content item)) (hashContent (content item)).

End steps.

(* ================================================================== *)
(** * Concrete stores, clients and trees *)

Module fixtures.

Definition nl : string := String "010" EmptyString.

(** An engine with pgvector's input rule and three constant functions. *)
Definition flat_engine (d : float64) (rank sim : Q) : store.Engine :=
  {| store.vector_in := store.at_least_one_dimension;
     store.cosine_distance := fun _ _ => d;
     store.ts_rank_cd := fun _ _ => rank;
     store.similarity := fun _ _ => sim |}.

Definition no_opts (q : string) : store.QueryOpts :=
  {| store.Repository := "";
     store.Ref := "";
     store.Language := "";
     store.PathContains := "";
     store.QueryText := q |}.

Definition a_row (pth lang : string) (vec : option (list float32)) : store.Row :=
  {| store.id := indexer.chunkID pth 1 1;
     store.repository := "x";
     store.ref := "main";
     store.path := pth;
     store.language := lang;
     store.summary := "";
     store.content := "";
     store.line_start := 1;
     store.line_end := 1;
     store.summary_vec := vec;
     store.content_hash := indexer.hashContent "";
     store.summarized_at := None;
     store.created_at := 0 |}.

Definition a_chunk (repo rf pth : string) : models.Chunk :=
  {| models.ID := indexer.chunkID pth 1 1;
     models.Repository := repo;
     models.Ref := rf;
     models.Path := pth;
     models.Language := "go";
     models.Summary := "";
     models.Content := "package main";
     models.LineStart := 1;
     models.LineEnd := 1;
     models.CreatedAt := 0 |}.

Definition old_row : store.Row :=
  {| store.id := indexer.chunkID "main.go" 1 1;
     store.repository := "x";
     store.ref := "main";
     store.path := "main.go";
     store.language := "go";
     store.summary := "the entry point";
     store.content := "package old";
     store.line_start := 1;
     store.line_end := 1;
     store.summary_vec := Some [1%Q; 0%Q; 0%Q];
     store.content_hash := indexer.hashContent "package old";
     store.summarized_at := Some 0;
     store.created_at := 0 |}.

Definition old_table : store.Pg :=
  {| store.dim := 3; store.rows := [old_row]; store.clock := 7 |}.

Definition a_table (d : Z) (rs : list store.Row) : store.Pg :=
  {| store.dim := d; store.rows := rs; store.clock := 0 |}.

(** A store that answers every search with one result of score NaN, as an
    implementation of the interface may. *)
Definition nan_result : models.SearchResult :=
  {| models.Chunk_ := a_chunk "x" "main" "main.go"; models.Score := NaN |}.

Definition nan_store : store.ChunkStore unit :=
  {| store.UpsertChunk := fun _ _ _ s => (None, s);
     store.Search := fun _ _ _ _ => (Some [nan_result], None);
     store.GetChunkMeta := fun _ _ _ _ _ => (store.no_meta, false, None) |}.

(** A store whose metadata lookup fails and whose upsert counts. *)
Definition down_store : store.ChunkStore Z :=
  {| store.UpsertChunk := fun _ _ _ n => (None, n + 1);
     store.Search := fun _ _ _ _ => (None, Some (ErrConn "down"));
     store.GetChunkMeta := fun _ _ _ _ _ => (store.no_meta, false, Some (ErrConn "down")) |}.

(** A client whose embedding always fails and whose summaries succeed. *)
Definition no_embed_client : ai.Client :=
  {| ai.Embed := fun _ => Some (None, Some (ErrUpstream "embedding service unavailable"));
     ai.Summarize := fun _ _ _ => Some ("a summary", None);
     ai.Dim := 3 |}.

(** [filepath.Rel] on a path below the root; elsewhere it reports an
    error, and [rel] then keeps the path. *)
Definition Rel_below (root p : string) : string * error :=
  if String.prefix (root ++ "/")%string p
  then (strings.drop (String.length root + 1) p, None)
  else ("", Some (ErrUpstream "Rel: can't make relative"))%string.

(** Scenario A: the tree [/r] with [main.go]. *)
Definition main_go : string :=
  ("package main" ++ nl ++ nl ++ "func main() {}" ++ nl)%string.

Definition tree_walker : indexer.FileSystemWalker :=
  fun root => ([(root, true); ((root ++ "/main.go")%string, false)], None).

Definition tree_reader : indexer.FileReader :=
  fun p => if String.eqb p "/r/main.go" then (main_go, None)
           else ("", Some (ErrUpstream "file not found")).

Definition an_indexer {S : Type} (st : store.ChunkStore S) (c : ai.Client)
    : indexer.Indexer S :=
  {| indexer.Store := st;
     indexer.RepoRoot := "/r";
     indexer.Repository := "x";
     indexer.Ref := "main";
     indexer.Client := Some c;
     indexer.Walker := tree_walker;
     indexer.FileReader_ := tree_reader |}.

(** Two candidates that differ by their path alone. *)
Definition src_cand : store.Cand :=
  store.cand (flat_engine (Fin (1 # 2)) (1 # 10) (3 # 10)) [1%Q] "foo" "foo" false
             (a_row "src/foo.go" "go" (Some [1%Q])).

Definition sample_cand : store.Cand :=
  store.cand (flat_engine (Fin (1 # 2)) (1 # 10) (3 # 10)) [1%Q] "foo" "foo" false
             (a_row "sample/foo.go" "go" (Some [1%Q])).

Definition stub_indexer : indexer.Indexer store.Pg :=
  an_indexer (store.PgStore (flat_engine (Fin 0) 0 0)) (ai.Stub (ai.NewStubClient 3)).

Definition no_embed_indexer : indexer.Indexer store.Pg :=
  an_indexer (store.PgStore (flat_engine (Fin 0) 0 0)) no_embed_client.

End fixtures.

(* ================================================================== *)
(** * internal/store: the unique index and the two listings *)

Module schema.

(** The columns of [chunks_repo_path_span_ref_uidx], the arbiter of
    [ON CONFLICT]. *)
Definition key_of (r : store.Row) : string * string * string * Z * Z :=
  (store.repository r, store.ref r, store.path r, store.line_start r, store.line_end r).

(** The unique index: no two rows with one key. *)
Definition key_unique (st : store.Pg) : Prop :=
  NoDup (map key_of (store.rows st)).

End schema.

Module listing.

Section WithCollation.

(** The order of the database's collation on [text], which [ORDER BY]
    follows. *)
Variable text_le : string -> string -> bool.

(** SELECT DISTINCT: one copy of every value. *)
Fixpoint distinct (l : list string) : list string :=
  match l with
  | [] => []
  | x :: r => if existsb (String.eqb x) r then distinct r else x :: distinct r
  end.

Fixpoint insert_asc (x : string) (l : list string) : list string :=
  match l with
  | [] => [x]
  | y :: r => if text_le x y then x :: l else y :: insert_asc x r
  end.

(** ORDER BY ... (ascending). *)
Definition order_asc (l : list string) : list string :=
  fold_right insert_asc [] l.

(** [var out []string; for rows.Next() { ...; out = append(out, v) }]:
    the slice stays [nil] when no row comes. *)
Definition collect (l : list string) : slice string :=
  match l with
  | [] => None
  | _ => Some l
  end.

(** [Store.GetRepositories]. *)
Definition GetRepositories (st : store.Pg) : slice string * error :=
  (collect (order_asc (distinct (map store.repository (store.rows st)))), None).

(** [Store.GetRefs]. *)
Definition GetRefs (repository : string) (st : store.Pg) : slice string * error :=
  (collect (order_asc (distinct
     (map store.ref
          (filter (fun r => String.eqb (store.repository r) repository)
                  (store.rows st))))),
   None).

End WithCollation.

(** The elements of a slice. *)
Definition elements {A : Type} (s : slice A) : list A :=
  match s with
  | Some l => l
  | None => []
  end.

Fixpoint ascending (text_le : string -> string -> bool) (l : list string) : Prop :=
  match l with
  | [] => True
  | x :: r => Forall (fun y => text_le x y = true) r /\ ascending text_le r
  end.

End listing.

(* ================================================================== *)
(** * internal/ai: the configuration and the providers *)

Module providers.
Import strings.

(** [errors.New]: an error that carries its message. *)
Definition errors_New (msg : string) : err := ErrUpstream msg.

Definition ProviderOpenAI : string := "openai".
Definition ProviderVertexAI : string := "vertexai".
Definition ProviderStub : string := "stub".

Record ClientConfig : Type := {
  APIKey : string;
  EmbedModel : string;
  SummaryModel : string;
  Dim : Z;
  ProjectID : string;
  Provider : string;
  Location : string
}.

(** [strings.ReplaceAll(s, old, new)] for [old] and [new] of one byte. *)
Fixpoint ReplaceAll (s : string) (old new : ascii) : string :=
  match s with
  | EmptyString => EmptyString
  | String c r => String (if Ascii.eqb c old then new else c) (ReplaceAll r old new)
  end.

(** ** OpenAI *)

(** The body of a request, before [json.Marshal]. *)
Inductive Payload : Type :=
| EmbeddingsPayload (input model : string)
| ChatPayload (model system user : string) (temperature : Q) (max_tokens : Z).

Record Request : Type := {
  Method : string;
  URL : string;
  Header : list (string * string);
  Body : Payload
}.

(** A response: the status, and what [json.Decode] makes of the body for
    each of the three structs that the client declares. *)
Record Response : Type := {
  StatusCode : Z;
  Status : string;
  Data : list (slice float32) + err;
  Choices : list string + err;
  ErrorMessage : string
}.

(** [http.Header.Set]. *)
Definition Header_Set (h : list (string * string)) (k v : string)
    : list (string * string) :=
  filter (fun kv => negb (String.eqb (fst kv) k)) h ++ [(k, v)].

Record OpenAIClient : Type := {
  config : ClientConfig;
  http : Request -> Response + err
}.

(** [NewOpenAIClient]: the defaults that it writes into the configuration;
    [http] is the network as the client reaches it. *)
Definition NewOpenAIClient (http : Request -> Response + err) (config : ClientConfig)
    : OpenAIClient :=
  let embedModel :=
    if String.eqb (EmbedModel config) "" then "text-embedding-3-small"
    else EmbedModel config in
  let summaryModel :=
    if String.eqb (SummaryModel config) "" then "gpt-4o-mini"
    else SummaryModel config in
  let dim :=
    if Dim config =? 0 then
      if String.eqb embedModel "text-embedding-3-small" then 1536
      else if String.eqb embedModel "text-embedding-3-large" then 3072
      else if String.eqb embedModel "text-embedding-ada-002" then 1536
      else 1536
    else Dim config in
  {| config := {| APIKey := APIKey config;
                  EmbedModel := embedModel;
                  SummaryModel := summaryModel;
                  Dim := dim;
                  ProjectID := ProjectID config;
                  Provider := Provider config;
                  Location := Location config |};
     http := http |}.

Module OpenAIClient.

Definition setHeaders (c : OpenAIClient) (h : list (string * string))
    : list (string * string) :=
  let h := Header_Set h "Content-Type" "application/json" in
  let h := Header_Set h "Authorization" ("Bearer " ++ APIKey (config c))%string in
  if HasPrefix (APIKey (config c)) "sk-proj-"
     && negb (String.eqb (ProjectID (config c)) "")
  then Header_Set h "OpenAI-Project" (ProjectID (config c))
  else h.

Definition Embed (c : OpenAIClient) (text : string) : slice float32 * error :=
  if String.eqb (APIKey (config c)) "" then
    (None, Some (errors_New "PROVIDER_API_KEY unset"))
  else
    let req := {| Method := "POST";
                  URL := "https://api.openai.com/v1/embeddings";
                  Header := setHeaders c [];
                  Body := EmbeddingsPayload text (EmbedModel (config c)) |} in
    match http c req with
    | inr e => (None, Some e)
    | inl resp =>
        if negb (StatusCode resp =? 200) then
          (None, Some (errors_New "openai embedding non-200"))
        else
          match Data resp with
          | inr e => (None, Some e)
          | inl [] => (None, Some (errors_New "no embedding"))
          | inl (d :: _) => (d, None)
          end
    end.

Definition sys : string :=
  ("You are a concise code summarizer. Write at most 240 characters, 1"
   ++ of_bytes [226; 128; 147]%N
   ++ "2 sentences, no code blocks, no backticks. Mention the file's purpose and notable actions. Prefer verbs. If the text is configuration, say what it configures.")%string.

Definition maxInput : Z := 8000.

Definition Summarize (c : OpenAIClient) (filePath language content : string)
    : string * error :=
  if String.eqb (APIKey (config c)) "" then
    ("", Some (errors_New "PROVIDER_API_KEY unset"))
  else
    let content := if len content >? maxInput then upto maxInput content else content in
    let user := ("Path: " ++ filePath ++ String "010" "Language: " ++ language
                 ++ String "010" "---" ++ String "010" content)%string in
    let req := {| Method := "POST";
                  URL := "https://api.openai.com/v1/chat/completions";
                  Header := setHeaders c [];
                  Body := ChatPayload (SummaryModel (config c)) sys user (2 # 10) 120 |} in
    match http c req with
    | inr e => ("", Some e)
    | inl resp =>
        if (StatusCode resp <? 200) || (StatusCode resp >=? 300) then
          if negb (String.eqb (ErrorMessage resp) "") then
            ("", Some (errors_New (ErrorMessage resp)))
          else ("", Some (errors_New (Status resp)))
        else
          match Choices resp with
          | inr e => ("", Some e)
          | inl [] => ("", Some (errors_New "no choices"))
          | inl (first :: _) =>
              let s := TrimSpace first in
              let s := ReplaceAll s "010" " " in
              (s, None)
          end
    end.

Definition Dim (c : OpenAIClient) : Z := Dim (config c).

End OpenAIClient.

(** [*OpenAIClient] as a [Client]. *)
Definition OpenAI (c : OpenAIClient) : ai.Client :=
  {| ai.Embed := fun text => Some (OpenAIClient.Embed c text);
     ai.Summarize := fun filePath language content =>
                       Some (OpenAIClient.Summarize c filePath language content);
     ai.Dim := OpenAIClient.Dim c |}.

(** ** Vertex AI *)

(** [genai.ClientConfig], the fields that the constructor sets; the
    backend is always Vertex AI. *)
Record genaiClientConfig : Type := {
  cc_APIKey : string;
  cc_Project : string;
  cc_Location : string
}.

Record VertexAIClient : Type := {
  vertex_config : ClientConfig;
  client : genaiClientConfig
}.

(** [NewVertexAIClient]; [genai_NewClient] is the constructor of the
    library, which gives a client for a configuration or fails with a
    message. *)
Definition NewVertexAIClient (genai_NewClient : genaiClientConfig -> option string)
    (config : option ClientConfig) : option VertexAIClient * error :=
  match config with
  | None => (None, Some (errors_New "config cannot be nil"))
  | Some config =>
      let embedModel :=
        if String.eqb (EmbedModel config) "" then "text-embedding-005"
        else EmbedModel config in
      let summaryModel :=
        if String.eqb (SummaryModel config) "" then "gemini-2.0-flash"
        else SummaryModel config in
      let dim := if Dim config =? 0 then 768 else Dim config in
      let location :=
        if String.eqb (Location config) "" && String.eqb (TrimSpace (APIKey config)) ""
        then "us-central1" else Location config in
      let cc :=
        {| cc_APIKey := if negb (String.eqb (TrimSpace (APIKey config)) "")
                        then APIKey config else "";
           cc_Project := if negb (String.eqb (TrimSpace (ProjectID config)) "")
                         then ProjectID config else "";
           cc_Location := if negb (String.eqb (TrimSpace location) "")
                          then location else "" |} in
      match genai_NewClient cc with
      | Some msg =>
          (None, Some (errors_New ("failed to create Gemini client: " ++ msg)%string))
      | None =>
          (Some {| vertex_config := {| APIKey := APIKey config;
                                       EmbedModel := embedModel;
                                       SummaryModel := summaryModel;
                                       Dim := dim;
                                       ProjectID := ProjectID config;
                                       Provider := Provider config;
                                       Location := location |};
                   client := cc |},
           None)
      end
  end.

(** ** The choice of the provider *)

Inductive Built : Type :=
| BuiltOpenAI (c : OpenAIClient)
| BuiltVertexAI (c : VertexAIClient)
| BuiltStub (s : ai.StubClient).

(** [Client.Dim] of what [NewClient] built. *)
Definition Dim_of (b : Built) : Z :=
  match b with
  | BuiltOpenAI c => OpenAIClient.Dim c
  | BuiltVertexAI c => Dim (vertex_config c)
  | BuiltStub s => ai.StubClient.Dim s
  end.

(** [NewClient].  When the Vertex AI constructor fails, the Go value is an
    interface that holds a nil pointer; the callers look at the error
    alone, and the model gives no client. *)
Definition NewClient (http : Request -> Response + err)
    (genai_NewClient : genaiClientConfig -> option string)
    (config : option ClientConfig) : option Built * error :=
  match config with
  | None => (None, Some (errors_New "client config is required"))
  | Some config =>
      if String.eqb (Provider config) ProviderOpenAI then
        (Some (BuiltOpenAI (NewOpenAIClient http config)), None)
      else if String.eqb (Provider config) ProviderVertexAI then
        match NewVertexAIClient genai_NewClient (Some config) with
        | (Some c, e) => (Some (BuiltVertexAI c), e)
        | (None, e) => (None, e)
        end
      else if String.eqb (Provider config) ProviderStub then
        (Some (BuiltStub (ai.NewStubClient (Dim config))), None)
      else
        (None, Some (errors_New ("unsupported provider: " ++ Provider config)%string))
  end.

End providers.

(* ================================================================== *)
(** * cmd/indexer: the ref of a local directory *)

Module cmd_indexer.
Import strings.

(** [strings.TrimRight(s, cutset)] for a cutset of one byte. *)
Fixpoint TrimRight (s : string) (c : ascii) : string :=
  match s with
  | EmptyString => EmptyString
  | String x r =>
      match TrimRight r c with
      | EmptyString => if Ascii.eqb x c then EmptyString else String x EmptyString
      | t => String x t
      end
  end.

(** [parts := strings.Split(strings.TrimRight(repo, "/"), "/")] and
    [parts[len(parts)-1]]; [Split] gives at least one part. *)
Definition local_ref (repo : string) : string :=
  last (Split (TrimRight repo "/") "/") "".

End cmd_indexer.

(* ================================================================== *)
(** * Names for the statements that follow *)

Module props.

(** A lower-case hexadecimal digit. *)
Definition is_hex (c : ascii) : bool :=
  let n := N_of_ascii c in
  (((48 <=? n) && (n <=? 57)) || ((97 <=? n) && (n <=? 102)))%N.

Definition bytes_all (p : ascii -> bool) (s : string) : bool :=
  forallb p (list_ascii_of_string s).

(** A byte of a token of [longestToken], after [ToLower]. *)
Definition is_lower_token_byte (c : ascii) : bool :=
  let n := N_of_ascii c in
  (((97 <=? n) && (n <=? 122)) || ((48 <=? n) && (n <=? 57))
   || (n =? 46) || (n =? 95) || (n =? 45))%N.

(** The text that [chunkID] hashes. *)
Definition id_text (path : string) (a b : Z) : string :=
  (path ++ "#" ++ indexer.fmtI a ++ ":" ++ indexer.fmtI b)%string.

(** A byte of a decimal numeral. *)
Definition is_decimal (c : ascii) : bool :=
  let n := N_of_ascii c in
  (((48 <=? n) && (n <=? 57)) || (n =? 45))%N.

(** The candidates of a query over the rows [rs], and the final score of
    one of them among them. *)
Definition candidates (eng : store.Engine) (sv : list float32)
    (qtext longest : string) (asked : bool) (rs : list store.Row) : list store.Cand :=
  map (store.cand eng sv qtext longest asked) rs.

Definition final_score (cs : list store.Cand) (c : store.Cand) : Q :=
  store.score_of (store.max_over store.sem_sim cs) (store.max_over store.lex_sum cs)
                 (store.max_over store.tri cs) c.

(** A byte that LIKE takes literally. *)
Definition plain (c : ascii) : bool :=
  negb (Ascii.eqb c "%" || Ascii.eqb c "_" || Ascii.eqb c "\").

(** The options with a path filter alone. *)
Definition path_filter (pat : string) : store.QueryOpts :=
  {| store.Repository := "";
     store.Ref := "";
     store.Language := "";
     store.PathContains := pat;
     store.QueryText := "" |}.

(** [n] slashes. *)
Fixpoint slashes (n : nat) : string :=
  match n with
  | O => EmptyString
  | S m => String "/" (slashes m)
  end.

(** The dimension that [NewClient] gives to a client when the
    configuration leaves it at 0. *)
Definition default_dim (provider embedModel : string) : Z :=
  if String.eqb provider providers.ProviderOpenAI then
    if String.eqb embedModel "text-embedding-3-large" then 3072 else 1536
  else if String.eqb provider providers.ProviderVertexAI then 768
  else 0.

(** The step of the loop of [longestToken]. *)
Definition pick (longest t : string) : string :=
  if strings.len t >? strings.len longest then t else longest.

(** The scores of a result, when all are numbers. *)
Fixpoint numbers (l : list models.SearchResult) : option (list Q) :=
  match l with
  | [] => Some []
  | r :: rest =>
      match models.Score r, numbers rest with
      | Fin q, Some qs => Some (q :: qs)
      | _, _ => None
      end
  end.

Fixpoint descending (l : list Q) : Prop :=
  match l with
  | [] => True
  | x :: r => Forall (fun y => (y <= x)%Q) r /\ descending r
  end.

(** The result [x] shows the row [r]. *)
Definition shows (x : models.SearchResult) (r : store.Row) : Prop :=
  models.Chunk_ x
  = {| models.ID := store.id r;
       models.Repository := store.repository r;
       models.Ref := store.ref r;
       models.Path := store.path r;
       models.Language := store.language r;
       models.Summary := store.summary r;
       models.Content := store.content r;
       models.LineStart := store.line_start r;
       models.LineEnd := store.line_end r;
       models.CreatedAt := store.created_at r |}.

(** The row [r] with another [summarized_at]. *)
Definition summarized (r : store.Row) (t : option Z) : store.Row :=
  {| store.id := store.id r;
     store.repository := store.repository r;
     store.ref := store.ref r;
     store.path := store.path r;
     store.language := store.language r;
     store.summary := store.summary r;
     store.content := store.content r;
     store.line_start := store.line_start r;
     store.line_end := store.line_end r;
     store.summary_vec := store.summary_vec r;
     store.content_hash := store.content_hash r;
     store.summarized_at := t;
     store.created_at := store.created_at r |}.

(** The relative paths of the upserts of a run, in order. *)
Definition upserted_paths (evs : list indexer.Event) : list string :=
  flat_map (fun e => match e with
                     | indexer.CallUpsertChunk m _ _ _ => [models.Path m]
                     | _ => []
                     end) evs.

(** What a run sends out is well formed: a text for [Summarize] has at
    most 400000 bytes; an upsert carries the labels [repo] and [rf], the
    span from line 1 to the last line of its content, the identifier
    derived from its path and span, and the hash of its content. *)
Definition well_formed (repo rf : string) (e : indexer.Event) : Prop :=
  match e with
  | indexer.CallSummarize _ _ text => strings.len text <= 400000
  | indexer.CallUpsertChunk m _ contentHash _ =>
      models.Repository m = repo
      /\ models.Ref m = rf
      /\ models.LineStart m = 1
      /\ models.LineEnd m = strings.Count (models.Content m) "010" + 1
      /\ models.ID m
         = indexer.chunkID (models.Path m) (models.LineStart m) (models.LineEnd m)
      /\ contentHash = indexer.hashContent (models.Content m)
  | _ => True
  end.

(** The vector that an upsert carried. *)
Definition upserts_no_vector (e : indexer.Event) : Prop :=
  match e with
  | indexer.CallUpsertChunk _ summaryVec _ _ => summaryVec = None
  | _ => True
  end.

Definition is_upsert (e : indexer.Event) : bool :=
  match e with
  | indexer.CallUpsertChunk _ _ _ _ => true
  | _ => false
  end.

Definition is_model_call (e : indexer.Event) : bool :=
  match e with
  | indexer.CallSummarize _ _ _ => true
  | indexer.CallEmbed _ => true
  | _ => false
  end.

End props.

(* ================================================================== *)
(** * More concrete tables and chunks *)

Module samples.

(** The chunk of [fixtures.old_row] as a run over an unchanged tree sends
    it again: same content, same hash, the stored summary. *)
Definition old_chunk : models.Chunk :=
  {| models.ID := indexer.chunkID "main.go" 1 1;
     models.Repository := "x";
     models.Ref := "main";
     models.Path := "main.go";
     models.Language := "go";
     models.Summary := "the entry point";
     models.Content := "package old";
     models.LineStart := 1;
     models.LineEnd := 1;
     models.CreatedAt := 0 |}.

(** A total preorder on texts, for want of a collation: by length. *)
Definition by_length (a b : string) : bool :=
  Nat.leb (String.length a) (String.length b).

(** An OpenAI client without a key, over a network that answers every
    request with status 200 and nothing to decode. *)
Definition keyless : providers.OpenAIClient :=
  providers.NewOpenAIClient
    (fun _ => inl {| providers.StatusCode := 200;
                     providers.Status := "200 OK";
                     providers.Data := inl [];
                     providers.Choices := inl [];
                     providers.ErrorMessage := "" |})
    {| providers.APIKey := "";
       providers.EmbedModel := "";
       providers.SummaryModel := "";
       providers.Dim := 0;
       providers.ProjectID := "";
       providers.Provider := providers.ProviderOpenAI;
       providers.Location := "" |}.

Definition keyless_indexer : indexer.Indexer store.Pg :=
  fixtures.an_indexer (store.PgStore (fixtures.flat_engine (Fin 0) 0 0))
                      (providers.OpenAI keyless).

(** A table whose one row has no vector. *)
Definition bare_table : store.Pg :=
  fixtures.a_table 3 [fixtures.a_row "src/foo.go" "go" None].

(** An indexer without a client, as [NewWithDependencies] builds it from a
    [nil] client. *)
Definition nil_indexer : indexer.Indexer store.Pg :=
  {| indexer.Store := store.PgStore (fixtures.flat_engine (Fin 0) 0 0);
     indexer.RepoRoot := "/r";
     indexer.Repository := "x";
     indexer.Ref := "main";
     indexer.Client := None;
     indexer.Walker := fixtures.tree_walker;
     indexer.FileReader_ := fixtures.tree_reader |}.

End samples.

Example sha1_abc :
  hex.EncodeToString (sha1.Sum "abc") = "a9993e364706816aba3e25717850c26c9cd0d89d".
Proof. vm_compute. reflexivity. Qed.

Example sha1_empty :
  hex.EncodeToString (sha1.Sum "") = "da39a3ee5e6b4b0d3255bfef95601890afd80709".
Proof. vm_compute. reflexivity. Qed.

Example sha1_two_blocks :
  hex.EncodeToString
    (sha1.Sum "abcdbcdecdefdefgefghfghighijhijkijkljklmklmnlmnomnopnopq")
  = "84983e441c3bd26ebaae4aa1f95129e5e54670f1".
Proof. vm_compute. reflexivity. Qed.

(** The digests are never unfolded below. *)
Opaque indexer.chunkID indexer.hashContent.

(* ================================================================== *)
(** * Strings *)

Section StringFacts.
Import strings.

Lemma Count_newlines (s : string) : Count s "010" = spec.newlines s.
Proof.
  unfold spec.newlines.
  induction s as [|c r IH]; [reflexivity|].
  cbn [Count list_ascii_of_string count_occ].
  rewrite IH.
  destruct (ascii_dec c "010") as [->|n].
  - rewrite Ascii.eqb_refl. lia.
  - destruct (Ascii.eqb_spec c "010") as [e|_]; [contradiction|].
    destruct (ascii_dec "010" c) as [e|_]; [congruence|]. lia.
Qed.

Lemma Count_nonneg (s : string) : 0 <= Count s "010".
Proof. rewrite Count_newlines. unfold spec.newlines. lia. Qed.

End StringFacts.

(* ================================================================== *)
(** * Chunking *)

(** C7.  For every file content the chunker yields exactly one chunk; it
    starts at line 1, ends at the number of newline characters plus one and
    holds the whole text.  A text of one line without newline ends at line 1,
    and a text with three newlines at line 4. *)
Theorem naiveChunk_one_chunk_per_file :
  forall path content : string,
    indexer.naiveChunk path content =
      [ {| indexer.Content := content;
           indexer.LineStart := 1;
           indexer.LineEnd := spec.newlines content + 1 |} ]
    /\ indexer.naiveChunk path "package main" =
         [ {| indexer.Content := "package main";
              indexer.LineStart := 1;
              indexer.LineEnd := 1 |} ]
    /\ map indexer.LineEnd (indexer.naiveChunk path fixtures.main_go) = [4].
Proof.
  intros path content. split; [|split].
  - unfold indexer.naiveChunk. now rewrite Count_newlines.
  - reflexivity.
  - reflexivity.
Qed.

(* ================================================================== *)
(** * The stub client *)

Section StubFacts.
Import strings.

Lemma first_comment_find (lines : list string) :
  ai.first_comment lines = find spec.comment_like (map TrimSpace lines).
Proof.
  induction lines as [|l r IH]; [reflexivity|].
  cbn [ai.first_comment map find]. unfold spec.comment_like at 1.
  destruct (HasPrefix (TrimSpace l) "#" || HasPrefix (TrimSpace l) "//");
    cbn [andb]; [|exact IH].
  destruct (len (TrimSpace l) >? 10); [reflexivity|exact IH].
Qed.

Lemma first_five {A : Type} (l : list A) :
  firstn (Z.to_nat (ai.min 5 (Z.of_nat (List.length l)))) l = firstn 5 l.
Proof.
  unfold ai.min. destruct (Z.ltb_spec 5 (Z.of_nat (List.length l))) as [H|H].
  - reflexivity.
  - rewrite Nat2Z.id, firstn_all. symmetry. apply firstn_all2. lia.
Qed.

Lemma repeat_all_zero (n : nat) : Forall (fun x : float32 => x = 0%Q) (repeat 0%Q n).
Proof. induction n; cbn; constructor; auto. Qed.

End StubFacts.

(** C8.  The stub's [Embed] returns, without error, a vector of zeros whose
    length is the configured dimension, and its [Summarize] returns, without
    error, the first comment-like line among the first five lines of the
    content, or [Code file: <path>] when there is none. *)
Theorem stub_client_contract :
  forall (d : Z) (text filePath language content : string),
    0 <= d ->
    (exists v : list float32,
        ai.Embed (ai.Stub (ai.NewStubClient d)) text = Some (Some v, None)
        /\ Z.of_nat (List.length v) = d
        /\ Forall (fun x => x = 0%Q) v)
    /\ ai.Summarize (ai.Stub (ai.NewStubClient d)) filePath language content
       = Some (spec.stub_summary filePath content, None).
Proof.
  intros d text filePath language content Hd. split.
  - exists (repeat 0%Q (Z.to_nat d)).
    cbn [ai.Embed ai.Stub]. unfold ai.StubClient.Embed, ai.make_float32.
    cbn [ai.dim ai.NewStubClient].
    destruct (Z.ltb_spec d 0) as [H|_]; [lia|].
    split; [reflexivity|]. split.
    + rewrite repeat_length. lia.
    + apply repeat_all_zero.
  - cbn [ai.Summarize ai.Stub]. unfold ai.StubClient.Summarize, spec.stub_summary.
    rewrite first_five, first_comment_find.
    destruct (find spec.comment_like _); reflexivity.
Qed.

Lemma stub_client_contract_witness :
  (exists v : list float32,
      ai.Embed (ai.Stub (ai.NewStubClient 3)) "hello" = Some (Some v, None)
      /\ Z.of_nat (List.length v) = 3
      /\ Forall (fun x => x = 0%Q) v)
  /\ ai.Summarize (ai.Stub (ai.NewStubClient 3)) "test.js" "javascript" "// Short"
     = Some (spec.stub_summary "test.js" "// Short", None).
Proof. apply (stub_client_contract 3 "hello" "test.js" "javascript" "// Short"). lia. Defined.

(* ================================================================== *)
(** * Non-finite scores *)

Lemma clamp_finite (f : float64) : spec.finite (api.clamp f).
Proof. destruct f; split; reflexivity. Qed.

Lemma clamp_keeps_finite (f : float64) : spec.finite f -> api.clamp f = f.
Proof. destruct f; intros [H1 H2]; cbn in *; congruence. Qed.

Lemma Query_returns_store_result {S : Type} (s : search.Service S) (q : string)
    (k : Z) (opt : store.QueryOpts) (st : S) (head : slice float32)
    (res : slice models.SearchResult) :
  ai.Embed (search.Client s) (strings.TrimSpace q) = Some (head, None) ->
  store.Search (search.Store s) head k
               (search.with_QueryText opt (strings.TrimSpace q)) st = (res, None) ->
  search.Query s q k opt st = Some (res, None).
Proof. intros He Hs. unfold search.Query. rewrite He, Hs. reflexivity. Qed.



(* ================================================================== *)
(** * The composite score *)

Section ScoreFacts.
Import store.
Local Open Scope Q_scope.

Lemma LEAST_GREATEST_0_1_range (x : option float64) :
  0 <= LEAST_GREATEST_0_1 x <= 1.
Proof.
  destruct x as [[q| | |]|]; cbn; try (split; discriminate).
  split.
  - apply Q.min_glb; [apply Q.le_max_r|discriminate].
  - apply Q.le_min_r.
Qed.

Lemma fold_max_ge_init (f : Cand -> Q) (l : list Cand) (m : Q) :
  m <= fold_left (fun m x => Qmax m (f x)) l m.
Proof.
  revert m. induction l as [|a l IH]; intros m; cbn; [apply Qle_refl|].
  eapply Qle_trans; [apply Q.le_max_l|apply IH].
Qed.

Lemma fold_max_ge_elem (f : Cand -> Q) (l : list Cand) (m : Q) (c : Cand) :
  In c l -> f c <= fold_left (fun m x => Qmax m (f x)) l m.
Proof.
  revert m. induction l as [|a l IH]; intros m Hin; [contradiction|].
  cbn. destruct Hin as [->|Hin].
  - eapply Qle_trans; [apply Q.le_max_r|apply fold_max_ge_init].
  - now apply IH.
Qed.

Lemma max_over_ge (f : Cand -> Q) (cs : list Cand) (c : Cand) :
  In c cs -> f c <= max_over f cs.
Proof.
  destruct cs as [|a l]; [contradiction|]. intros [->|Hin]; cbn.
  - apply fold_max_ge_init.
  - now apply fold_max_ge_elem.
Qed.

Lemma normalized_range (x m : Q) : 0 <= x -> x <= m -> 0 <= normalized x m <= 1.
Proof.
  intros Hx Hm. unfold normalized.
  destruct (Qeq_bool m 0) eqn:E; [split; discriminate|].
  apply Qeq_bool_neq in E.
  assert (Hpos : 0 < m).
  { destruct (Qlt_le_dec 0 m) as [H|H]; [exact H|].
    exfalso. apply E. apply Qle_antisym; [exact H|].
    eapply Qle_trans; eassumption. }
  split.
  - apply Qle_shift_div_l; [exact Hpos|]. now rewrite Qmult_0_l.
  - apply Qle_shift_div_r; [exact Hpos|]. now rewrite Qmult_1_l.
Qed.

Lemma script_bias_of_cases (asked : bool) (lang : string) :
  script_bias_of asked lang = (-1)%Z \/ script_bias_of asked lang = 0%Z
  \/ script_bias_of asked lang = 1%Z.
Proof.
  unfold script_bias_of. destruct asked; [|tauto].
  destruct (in_list lang _); [tauto|]. destruct (in_list lang _); tauto.
Qed.

Lemma noise_penalty_of_cases (pth : string) :
  noise_penalty_of pth = 0%Z \/ noise_penalty_of pth = 1%Z.
Proof. unfold noise_penalty_of. destruct (noise_scan _ _); tauto. Qed.

Lemma score_of_range (ms ml mt : Q) (c : Cand) :
  0 <= normalized (sem_sim c) ms <= 1 ->
  0 <= normalized (lex_sum c) ml <= 1 ->
  0 <= normalized (tri c) mt <= 1 ->
  (script_bias c = (-1)%Z \/ script_bias c = 0%Z \/ script_bias c = 1%Z) ->
  (noise_penalty c = 0%Z \/ noise_penalty c = 1%Z) ->
  - (17 # 100) <= score_of ms ml mt c <= 110 # 100.
Proof.
  intros Hs Hl Ht Hb Hn. unfold score_of.
  destruct Hb as [-> | [-> | ->]]; destruct Hn as [-> | ->];
    unfold inject_Z; lra.
Qed.

Lemma in_scored (cs : list Cand) (c : Cand) (s : Q) :
  In (c, s) (scored cs) ->
  In c cs
  /\ s = score_of (max_over sem_sim cs) (max_over lex_sum cs) (max_over tri cs) c.
Proof.
  unfold scored. intros H. apply in_map_iff in H as [c0 [E Hin]].
  inversion E; subst. now split.
Qed.

Lemma in_insert_desc (x y : Cand * Q) (l : list (Cand * Q)) :
  In y (insert_desc x l) -> y = x \/ In y l.
Proof.
  induction l as [|z l IH]; cbn.
  - intros [<-|[]]. now left.
  - destruct (Qle_bool (snd z) (snd x)); cbn.
    + intros [<-|[<-|H]]; [now left|right; now left|right; now right].
    + intros [<-|H]; [right; now left|].
      destruct (IH H) as [->|H']; [now left|right; now right].
Qed.

Lemma in_order_desc (y : Cand * Q) (l : list (Cand * Q)) :
  In y (order_desc l) -> In y l.
Proof.
  induction l as [|x l IH]; cbn; [tauto|].
  intros H. apply in_insert_desc in H as [->|H]; [now left|right; now apply IH].
Qed.

Lemma in_firstn {A : Type} (n : nat) (l : list A) (x : A) :
  In x (firstn n l) -> In x l.
Proof.
  revert l. induction n as [|n IH]; intros [|a l]; cbn; try tauto.
  intros [->|H]; [now left|right; now apply IH].
Qed.

Lemma ranking_query_out (eng : Engine) (sv : list float32) (qtext longest : string)
    (asked : bool) (opt : QueryOpts) (k : Z) (st : Pg) (out : list (Cand * Q))
    (x : Cand * Q) :
  ranking_query eng sv qtext longest asked opt k st = inr out ->
  In x out ->
  In x (scored (map (cand eng sv qtext longest asked) (filter (where_ opt) (rows st)))).
Proof.
  unfold ranking_query.
  destruct (negb (vector_in eng sv)); [discriminate|].
  destruct (k <? 0)%Z; [discriminate|].
  destruct (existsb _ _); [discriminate|].
  intros E Hin. inversion E; subst; clear E.
  apply in_order_desc. eapply in_firstn. exact Hin.
Qed.

End ScoreFacts.

(** C3, as the code has it.  For every ranking query that succeeds, every
    returned candidate has its three signals, normalized by the maxima over
    the candidate set, in [0, 1], a script bias among -1, 0, 1 and a noise
    penalty among 0, 1, and its score lies in [-0.17, 1.10]; the engine's
    trigram similarity is taken to be non-negative. *)
Theorem score_within_bounds :
  forall (eng : store.Engine) (sv : list float32) (qtext longest : string)
         (asked : bool) (opt : store.QueryOpts) (k : Z) (st : store.Pg)
         (out : list (store.Cand * Q)) (c : store.Cand) (s : Q),
    (forall a b : string, 0 <= store.similarity eng a b)%Q ->
    store.ranking_query eng sv qtext longest asked opt k st = inr out ->
    In (c, s) out ->
    let cs := map (store.cand eng sv qtext longest asked)
                  (filter (store.where_ opt) (store.rows st)) in
    (0 <= store.normalized (store.sem_sim c) (store.max_over store.sem_sim cs) <= 1)%Q
    /\ (0 <= store.normalized (store.lex_sum c) (store.max_over store.lex_sum cs) <= 1)%Q
    /\ (0 <= store.normalized (store.tri c) (store.max_over store.tri cs) <= 1)%Q
    /\ (store.script_bias c = -1 \/ store.script_bias c = 0 \/ store.script_bias c = 1)
    /\ (store.noise_penalty c = 0 \/ store.noise_penalty c = 1)
    /\ (- (17 # 100) <= s <= 110 # 100)%Q.
Proof.
  intros eng sv qtext longest asked opt k st out c s Hsim Hq Hin cs.
  pose proof (ranking_query_out _ _ _ _ _ _ _ _ _ _ Hq Hin) as Hsc.
  fold cs in Hsc. apply in_scored in Hsc as [Hc ->].
  assert (Hr : exists r, c = store.cand eng sv qtext longest asked r).
  { subst cs. apply in_map_iff in Hc as [r [<- _]]. now exists r. }
  destruct Hr as [r Hr].
  assert (Hsem : (0 <= store.sem_sim c <= 1)%Q).
  { rewrite Hr. cbn [store.sem_sim store.cand]. apply LEAST_GREATEST_0_1_range. }
  assert (Hlex : (0 <= store.lex_sum c <= 1)%Q).
  { rewrite Hr. cbn [store.lex_sum store.cand]. apply LEAST_GREATEST_0_1_range. }
  assert (Htri : (0 <= store.tri c)%Q).
  { rewrite Hr. cbn [store.tri store.cand]. unfold store.COALESCE.
    destruct (store.NULLIF longest ""); [apply Hsim|discriminate]. }
  assert (Hb : store.script_bias c = -1 \/ store.script_bias c = 0 \/ store.script_bias c = 1).
  { rewrite Hr. cbn [store.script_bias store.cand]. apply script_bias_of_cases. }
  assert (Hn : store.noise_penalty c = 0 \/ store.noise_penalty c = 1).
  { rewrite Hr. cbn [store.noise_penalty store.cand]. apply noise_penalty_of_cases. }
  assert (Ns : (0 <= store.normalized (store.sem_sim c) (store.max_over store.sem_sim cs) <= 1)%Q).
  { apply normalized_range; [apply Hsem|now apply max_over_ge]. }
  assert (Nl : (0 <= store.normalized (store.lex_sum c) (store.max_over store.lex_sum cs) <= 1)%Q).
  { apply normalized_range; [apply Hlex|now apply max_over_ge]. }
  assert (Nt : (0 <= store.normalized (store.tri c) (store.max_over store.tri cs) <= 1)%Q).
  { apply normalized_range; [apply Htri|now apply max_over_ge]. }
  repeat (split; [assumption|]).
  now apply score_of_range.
Qed.

Lemma score_within_bounds_witness :
  (forall a b : string,
      0 <= store.similarity (fixtures.flat_engine (Fin (1 # 2)) (1 # 10) (3 # 10)) a b)%Q
  /\ match store.ranking_query (fixtures.flat_engine (Fin (1 # 2)) (1 # 10) (3 # 10))
             [1%Q] "script" "script" true (fixtures.no_opts "script") 10
             (fixtures.a_table 1 [fixtures.a_row "scripts/wipe.sh" "shell" (Some [1%Q]);
                                  fixtures.a_row "config/wipe.yaml" "yaml" None])
     with
     | inr ((c, s) :: _) => (- (17 # 100) <= s <= 110 # 100)%Q
     | _ => False
     end.
Proof.
  split; [intros a b; cbn; discriminate|].
  destruct (store.ranking_query _ _ _ _ _ _ _ _) as [e|[|[c s] out]] eqn:E.
  - vm_compute in E. discriminate.
  - vm_compute in E. discriminate.
  - apply (score_within_bounds
             (fixtures.flat_engine (Fin (1 # 2)) (1 # 10) (3 # 10))
             [1%Q] "script" "script" true (fixtures.no_opts "script") 10
             (fixtures.a_table 1 [fixtures.a_row "scripts/wipe.sh" "shell" (Some [1%Q]);
                                  fixtures.a_row "config/wipe.yaml" "yaml" None])
             ((c, s) :: out) c s).
    + intros a b; cbn; discriminate.
    + exact E.
    + left; reflexivity.
Defined.

(** C3, as stated, fails: a YAML file under [test/], asked for with the word
    "script", and without any other signal, scores -0.17, below -0.07. *)
Lemma score_below_minus_seven_hundredths :
  exists (r : models.SearchResult) (q : Q),
    store.Store.Search (fixtures.flat_engine (Fin 0) 0 0) (Some [1%Q]) 10
                       (fixtures.no_opts "script")
                       (fixtures.a_table 1 [fixtures.a_row "test/deploy.yaml" "yaml" None])
      = (Some [r], None)
    /\ models.Score r = Fin q
    /\ (q == - (17 # 100))%Q
    /\ (q < - (7 # 100))%Q.
Proof.
  eexists. eexists. split; [vm_compute; reflexivity|].
  split; [reflexivity|]. split; reflexivity.
Qed.

(* ================================================================== *)
(** * The noise penalty *)

(** C4, as the code has it.  Of two candidates with the same signals, one
    at [src/foo.go] and one at [sample/foo.go], whose first segment is one
    of the names of the pattern, the second has noise penalty 1, the first
    0, and the second's score is the first's minus 0.07. *)
Theorem noise_penalty_on_sample_path :
  forall (eng : store.Engine) (sv : list float32) (qtext longest : string)
         (asked : bool) (ra rb : store.Row) (ms ml mt : Q),
    store.path ra = "src/foo.go" ->
    store.path rb = "sample/foo.go" ->
    let a := store.cand eng sv qtext longest asked ra in
    let b := store.cand eng sv qtext longest asked rb in
    (store.sem_sim a == store.sem_sim b)%Q ->
    (store.lex_sum a == store.lex_sum b)%Q ->
    (store.tri a == store.tri b)%Q ->
    store.script_bias a = store.script_bias b ->
    store.noise_penalty a = 0
    /\ store.noise_penalty b = 1
    /\ (store.score_of ms ml mt b == store.score_of ms ml mt a - (7 # 100))%Q.
Proof.
  intros eng sv qtext longest asked ra rb ms ml mt Ha Hb a b Hs Hl Ht Hbias.
  assert (Na : store.noise_penalty a = 0).
  { subst a. cbn [store.noise_penalty store.cand]. rewrite Ha. reflexivity. }
  assert (Nb : store.noise_penalty b = 1).
  { subst b. cbn [store.noise_penalty store.cand]. rewrite Hb. reflexivity. }
  split; [exact Na|]. split; [exact Nb|].
  unfold store.score_of, store.normalized.
  rewrite Na, Nb, Hbias.
  destruct (Qeq_bool ms 0), (Qeq_bool ml 0), (Qeq_bool mt 0);
    rewrite ?Hs, ?Hl, ?Ht; unfold inject_Z; ring.
Qed.

Lemma noise_penalty_on_sample_path_witness :
  store.noise_penalty fixtures.src_cand = 0
  /\ store.noise_penalty fixtures.sample_cand = 1
  /\ (store.score_of 1 1 1 fixtures.sample_cand
      == store.score_of 1 1 1 fixtures.src_cand - (7 # 100))%Q.
Proof.
  apply (noise_penalty_on_sample_path
           (fixtures.flat_engine (Fin (1 # 2)) (1 # 10) (3 # 10)) [1%Q] "foo" "foo" false
           (fixtures.a_row "src/foo.go" "go" (Some [1%Q]))
           (fixtures.a_row "sample/foo.go" "go" (Some [1%Q])) 1 1 1);
    reflexivity.
Defined.

(** C4, as stated, fails: [samples/foo.go] does not match the pattern, its
    noise penalty is 0, and it scores what [src/foo.go] scores. *)
Lemma samples_path_not_penalized :
  store.noise_penalty_of "samples/foo.go" = 0
  /\ exists (a b : models.SearchResult),
       store.Store.Search
         (fixtures.flat_engine (Fin (1 # 2)) (1 # 10) (3 # 10))
         (Some [1%Q]) 10 (fixtures.no_opts "foo")
         (fixtures.a_table 1 [fixtures.a_row "src/foo.go" "go" (Some [1%Q]);
                              fixtures.a_row "samples/foo.go" "go" (Some [1%Q])])
         = (Some [a; b], None)
       /\ models.Path (models.Chunk_ a) = "src/foo.go"
       /\ models.Path (models.Chunk_ b) = "samples/foo.go"
       /\ models.Score b = models.Score a.
Proof.
  split; [reflexivity|].
  eexists. eexists. split; [vm_compute; reflexivity|].
  repeat split.
Qed.

(* ================================================================== *)
(** * Upsert *)

Section UpsertFacts.
Import store.

Lemma same_key_true (c : models.Chunk) (r : Row) :
  same_key c r = true <->
  repository r = models.Repository c /\ ref r = models.Ref c
  /\ path r = models.Path c /\ line_start r = models.LineStart c
  /\ line_end r = models.LineEnd c.
Proof.
  unfold same_key. rewrite !andb_true_iff, !String.eqb_eq, !Z.eqb_eq. tauto.
Qed.

Lemma meta_match_true (repo pth : string) (ls le : Z) (r : Row) :
  meta_match repo pth ls le r = true <->
  repository r = repo /\ path r = pth /\ line_start r = ls /\ line_end r = le.
Proof.
  unfold meta_match. rewrite !andb_true_iff, !String.eqb_eq, !Z.eqb_eq. tauto.
Qed.

Lemma existsb_false_forall {A : Type} (f : A -> bool) (l : list A) :
  existsb f l = false <-> forall x, In x l -> f x = false.
Proof.
  induction l as [|a l IH]; cbn.
  - split; [intros _ x []|reflexivity].
  - rewrite orb_false_iff, IH. split.
    + intros [Ha Hl] x [<-|Hx]; auto.
    + intros H. split; [apply H; now left|intros x Hx; apply H; now right].
Qed.

Lemma NoDup_map_inj {A B : Type} (f : A -> B) (l : list A) (x y : A) :
  NoDup (map f l) -> In x l -> In y l -> f x = f y -> x = y.
Proof.
  induction l as [|a l IH]; cbn; [tauto|].
  intros Hnd Hx Hy E. inversion Hnd as [|? ? Hnotin Hnd']; subst.
  destruct Hx as [<-|Hx], Hy as [<-|Hy].
  - reflexivity.
  - exfalso. apply Hnotin. rewrite E. now apply in_map.
  - exfalso. apply Hnotin. rewrite <- E. now apply in_map.
  - now apply IH.
Qed.

Lemma NoDup_app_one {A : Type} (l : list A) (x : A) :
  NoDup l -> ~ In x l -> NoDup (l ++ [x]).
Proof.
  induction l as [|a l IH]; cbn; intros Hnd Hx.
  - constructor; [intros []|constructor].
  - inversion Hnd as [|? ? Ha Hl]; subst. constructor.
    + rewrite in_app_iff. cbn. intros [H|[H|[]]]; [contradiction|].
      apply Hx. now left.
    + apply IH; [exact Hl|]. intros H. apply Hx. now right.
Qed.

(** The binding of the slice in [UpsertChunk] keeps it as it is. *)
Ltac bind_slice v :=
  replace (match v with Some x => Some x | None => None end) with v
    by (now destruct v).

Lemma upsert_on_conflict (c : models.Chunk) (summaryVec : slice float32)
    (contentHash : string) (st : Pg) :
  fits (dim st) summaryVec = true ->
  existsb (same_key c) (rows st) = true ->
  Store.UpsertChunk c summaryVec contentHash st
  = (None,
     tick st (map (fun r => if same_key c r
                            then do_update r (excluded c summaryVec contentHash (clock st))
                            else r) (rows st))).
Proof.
  intros Hf Hk. unfold Store.UpsertChunk.
  bind_slice summaryVec.
  now rewrite Hf, Hk.
Qed.

Lemma upsert_insert (c : models.Chunk) (summaryVec : slice float32)
    (contentHash : string) (st : Pg) :
  fits (dim st) summaryVec = true ->
  existsb (same_key c) (rows st) = false ->
  Store.UpsertChunk c summaryVec contentHash st
  = if existsb (fun r => String.eqb (id r) (models.ID c)) (rows st)
    then (Some (ErrUniqueViolation "chunks_pkey"), tick st (rows st))
    else (None, tick st (rows st ++ [excluded c summaryVec contentHash (clock st)])).
Proof.
  intros Hf Hk. unfold Store.UpsertChunk.
  bind_slice summaryVec.
  now rewrite Hf, Hk.
Qed.

Lemma upsert_rejected (c : models.Chunk) (summaryVec : slice float32)
    (contentHash : string) (st : Pg) :
  fits (dim st) summaryVec = false ->
  Store.UpsertChunk c summaryVec contentHash st
  = (Some (ErrDataException "expected other dimensions"), tick st (rows st)).
Proof.
  intros Hf. unfold Store.UpsertChunk.
  bind_slice summaryVec.
  now rewrite Hf.
Qed.

End UpsertFacts.

(** C2.  When an upsert meets a row with its key, the statement succeeds
    and, at the row's place, content, language and content hash are the new
    ones; the summary is the new one if that is not empty and the stored one
    otherwise; the vector is the new one if one is given and the stored one
    otherwise; [created_at], the identifier and the key are the stored ones.
    The vector, when given, has the dimension of the column. *)
Theorem upsert_merge_rules :
  forall (c : models.Chunk) (summaryVec : slice float32) (contentHash : string)
         (st : store.Pg) (n : nat) (r : store.Row),
    nth_error (store.rows st) n = Some r ->
    store.same_key c r = true ->
    store.fits (store.dim st) summaryVec = true ->
    fst (store.Store.UpsertChunk c summaryVec contentHash st) = None
    /\ exists r' : store.Row,
        nth_error (store.rows (snd (store.Store.UpsertChunk c summaryVec contentHash st))) n
          = Some r'
        /\ List.length (store.rows (snd (store.Store.UpsertChunk c summaryVec contentHash st)))
           = List.length (store.rows st)
        /\ store.content r' = models.Content c
        /\ store.language r' = models.Language c
        /\ store.content_hash r' = contentHash
        /\ store.summary r'
           = (if String.eqb (models.Summary c) "" then store.summary r
              else models.Summary c)
        /\ store.summary_vec r'
           = match summaryVec with
             | Some v => Some v
             | None => store.summary_vec r
             end
        /\ store.created_at r' = store.created_at r
        /\ store.id r' = store.id r
        /\ store.same_key c r' = true.
Proof.
  intros c summaryVec contentHash st n r Hn Hk Hf.
  assert (Hex : existsb (store.same_key c) (store.rows st) = true).
  { apply existsb_exists. exists r. split; [|exact Hk].
    eapply nth_error_In. exact Hn. }
  rewrite (upsert_on_conflict _ _ _ _ Hf Hex). cbn [fst snd store.rows store.tick].
  split; [reflexivity|].
  exists (store.do_update r (store.excluded c summaryVec contentHash (store.clock st))).
  split.
  { rewrite nth_error_map, Hn. cbn. now rewrite Hk. }
  split; [apply length_map|].
  cbn [store.do_update store.excluded store.content store.language store.content_hash
       store.summary store.summary_vec store.created_at store.id].
  split; [reflexivity|]. split; [reflexivity|]. split; [reflexivity|].
  split.
  { unfold store.COALESCE, store.NULLIF.
    destruct (String.eqb (models.Summary c) ""); reflexivity. }
  split.
  { unfold store.COALESCE_null. destruct summaryVec; reflexivity. }
  split; [reflexivity|]. split; [reflexivity|].
  exact Hk.
Qed.

Lemma upsert_merge_rules_witness :
  nth_error (store.rows fixtures.old_table) 0 = Some fixtures.old_row
  /\ store.same_key (fixtures.a_chunk "x" "main" "main.go") fixtures.old_row = true
  /\ store.fits (store.dim fixtures.old_table) None = true
  /\ fst (store.Store.UpsertChunk (fixtures.a_chunk "x" "main" "main.go") None
                              "0123" fixtures.old_table) = None
  /\ exists r' : store.Row,
      nth_error (store.rows (snd (store.Store.UpsertChunk (fixtures.a_chunk "x" "main" "main.go")
                                                      None "0123" fixtures.old_table))) 0
        = Some r'
      /\ store.content r' = "package main"
      /\ store.summary r' = "the entry point"
      /\ store.summary_vec r' = Some [1%Q; 0%Q; 0%Q]
      /\ store.created_at r' = 0.
Proof.
  split; [reflexivity|]. split; [reflexivity|]. split; [reflexivity|].
  destruct (upsert_merge_rules (fixtures.a_chunk "x" "main" "main.go") None "0123"
              fixtures.old_table 0 fixtures.old_row eq_refl eq_refl eq_refl)
    as [H0 [r' (H1 & _ & H3 & _ & _ & H6 & H7 & H8 & _)]].
  split; [exact H0|]. exists r'.
  split; [exact H1|]. split; [exact H3|]. split; [exact H6|]. split; [exact H7|exact H8].
Defined.

(* ================================================================== *)
(** * Identifiers across repositories *)

(** C9.  In a table whose identifiers are unique and derived by [chunkID],
    an upsert of a chunk with the path and span of a stored row, but another
    repository or ref, and with its identifier derived in the same way,
    meets no row with its key, collides with the stored row on the primary
    key, and fails with a unique violation; the rows are unchanged. *)
Theorem upsert_other_repository_collides :
  forall (c : models.Chunk) (summaryVec : slice float32) (contentHash : string)
         (st : store.Pg) (r : store.Row),
    invariants.pk_unique st ->
    invariants.ids_derived st ->
    In r (store.rows st) ->
    store.path r = models.Path c ->
    store.line_start r = models.LineStart c ->
    store.line_end r = models.LineEnd c ->
    (store.repository r <> models.Repository c \/ store.ref r <> models.Ref c) ->
    models.ID c = indexer.chunkID (models.Path c) (models.LineStart c) (models.LineEnd c) ->
    store.fits (store.dim st) summaryVec = true ->
    models.ID c = store.id r
    /\ existsb (store.same_key c) (store.rows st) = false
    /\ fst (store.Store.UpsertChunk c summaryVec contentHash st)
       = Some (ErrUniqueViolation "chunks_pkey")
    /\ store.rows (snd (store.Store.UpsertChunk c summaryVec contentHash st)) = store.rows st.
Proof.
  intros c summaryVec contentHash st r Hpk Hids Hin Hp Hls Hle Hdiff Hid Hf.
  pose proof (proj1 (Forall_forall _ _) Hids) as Hder.
  assert (Eid : models.ID c = store.id r).
  { rewrite Hid, (Hder r Hin), Hp, Hls, Hle. reflexivity. }
  assert (Hnokey : existsb (store.same_key c) (store.rows st) = false).
  { apply existsb_false_forall. intros r2 Hin2.
    destruct (store.same_key c r2) eqn:Hk; [|reflexivity]. exfalso.
    apply same_key_true in Hk as (Hrepo & Href & Hp2 & Hls2 & Hle2).
    assert (E : r2 = r).
    { apply (NoDup_map_inj store.id (store.rows st)); try assumption.
      rewrite (Hder r2 Hin2), (Hder r Hin). congruence. }
    subst r2. destruct Hdiff as [H|H]; contradiction. }
  assert (Hidex : existsb (fun x => String.eqb (store.id x) (models.ID c)) (store.rows st) = true).
  { apply existsb_exists. exists r. split; [exact Hin|].
    rewrite Eid. apply String.eqb_refl. }
  rewrite (upsert_insert _ _ _ _ Hf Hnokey), Hidex.
  repeat split; assumption.
Qed.

Lemma upsert_other_repository_collides_witness :
  invariants.pk_unique fixtures.old_table
  /\ invariants.ids_derived fixtures.old_table
  /\ fst (store.Store.UpsertChunk (fixtures.a_chunk "y" "main" "main.go")
                              (Some [0%Q; 0%Q; 0%Q]) "0123" fixtures.old_table)
     = Some (ErrUniqueViolation "chunks_pkey")
  /\ store.rows (snd (store.Store.UpsertChunk (fixtures.a_chunk "y" "main" "main.go")
                                          (Some [0%Q; 0%Q; 0%Q]) "0123" fixtures.old_table))
     = store.rows fixtures.old_table.
Proof.
  assert (Hpk : invariants.pk_unique fixtures.old_table).
  { constructor; [intros []|constructor]. }
  assert (Hids : invariants.ids_derived fixtures.old_table).
  { constructor; [reflexivity|constructor]. }
  split; [exact Hpk|]. split; [exact Hids|].
  refine (proj2 (proj2 (upsert_other_repository_collides
                          (fixtures.a_chunk "y" "main" "main.go") (Some [0%Q; 0%Q; 0%Q])
                          "0123" fixtures.old_table fixtures.old_row
                          Hpk Hids (or_introl eq_refl) eq_refl eq_refl eq_refl
                          (or_introl _) eq_refl eq_refl))).
  discriminate.
Defined.


(* ================================================================== *)
(** * The delta policy *)

Section IndexerFacts.
Import indexer.
Variable filepath_Rel : string -> string -> string * error.
Context {S : Type}.

Lemma summarize_or_heuristic_runs (c : ai.Client) (relPath lang text whole : string)
    (st : S) :
  summarize_or_heuristic (S := S) c relPath lang text whole st
  = match ai.Summarize c relPath lang text with
    | Some answer =>
        Some (steps.kept_summary answer whole, st, [CallSummarize relPath lang text])
    | None => None
    end.
Proof.
  unfold summarize_or_heuristic, bind, emit, lift, ret, steps.kept_summary.
  destruct (ai.Summarize c relPath lang text) as [[s [e|]]|]; cbn [fst snd];
    [reflexivity| |reflexivity].
  destruct (negb (String.eqb (strings.TrimSpace s) "")); reflexivity.
Qed.

Lemma processWorkItem_step (ix : Indexer S) (c : ai.Client) (item : workItem) (st : S) :
  Client ix = Some c ->
  processWorkItem filepath_Rel ix item st = steps.step filepath_Rel ix c item st.
Proof.
  intros Hc.
  unfold processWorkItem, naiveChunk, forEach, processChunk, steps.step.
  cbn [Content LineStart LineEnd].
  fold (steps.last_line (content item)).
  rewrite Hc.
  unfold bind, emit, lift, ret, panic, steps.sent_text. cbv beta.
  destruct (store.GetChunkMeta _ _ _ _ _ _) as [[meta found] err].
  unfold steps.decide, spec.need_summary, spec.need_embed. cbn [fst snd].
  destruct (match err with
            | Some _ => (true, true)
            | None => _
            end) as [needSummary needEmbed].
  destruct needSummary, needEmbed;
    try destruct (strings.len (content item) >? 400000);
    rewrite ?summarize_or_heuristic_runs;
    try destruct (ai.Summarize c _ _ _) as [answer|]; cbn [option_map];
    try reflexivity;
    try destruct (ai.Embed c _) as [r|]; cbn [option_map];
    try reflexivity;
    destruct (store.UpsertChunk _ _ _ _ _) as [e st']; reflexivity.
Qed.

End IndexerFacts.

(** C10.  When [GetChunkMeta] returns an error, [processWorkItem] does not
    return it: it decides (true, true), calls [Summarize], calls [Embed] on
    the summary it kept, upserts the chunk with the vector that [Embed]
    returned, and returns nil.  The client is not nil and its two calls
    return. *)
Theorem lookup_error_reindexes :
  forall (S : Type) (filepath_Rel : string -> string -> string * error)
         (ix : indexer.Indexer S) (c : ai.Client) (item : indexer.workItem) (st : S)
         (meta : store.ChunkMeta) (found : bool) (e : err)
         (answer : string * error) (embedded : slice float32 * error),
    let relPath := indexer.rel filepath_Rel (indexer.RepoRoot ix) (indexer.path item) in
    let lang := indexer.guessLang (indexer.path item) in
    let body := indexer.content item in
    let hash := indexer.hashContent body in
    let summary := steps.kept_summary answer body in
    let m := steps.upsert_arg filepath_Rel ix item summary in
    indexer.Client ix = Some c ->
    store.GetChunkMeta (indexer.Store ix) (indexer.Repository ix) relPath 1
                       (steps.last_line body) st = (meta, found, Some e) ->
    ai.Summarize c relPath lang (steps.sent_text body) = Some answer ->
    ai.Embed c summary = Some embedded ->
    indexer.processWorkItem filepath_Rel ix item st
    = Some (None,
            snd (store.UpsertChunk (indexer.Store ix) m (fst embedded) hash st),
            [ indexer.CallSummarize relPath lang (steps.sent_text body);
              indexer.CallEmbed summary;
              indexer.LogIndexingChunk relPath (steps.last_line body - 1 + 1) true true;
              indexer.CallUpsertChunk m (fst embedded) hash
                (fst (store.UpsertChunk (indexer.Store ix) m (fst embedded) hash st)) ]).
Proof.
  intros S filepath_Rel ix c item st meta found e answer embedded
         relPath lang body hash summary m Hc Hm Hs He.
  rewrite (processWorkItem_step filepath_Rel ix c item st Hc).
  unfold steps.step. fold relPath lang body hash.
  rewrite Hm. cbn [steps.decide]. rewrite Hs. cbn [option_map].
  fold summary. rewrite He. cbn [option_map]. fold m.
  destruct (store.UpsertChunk (indexer.Store ix) m (fst embedded) hash st) as [ue st'].
  reflexivity.
Qed.

Lemma lookup_error_reindexes_witness :
  exists (st' : Z) (m : models.Chunk) (h : string),
    indexer.processWorkItem fixtures.Rel_below
      (fixtures.an_indexer fixtures.down_store (ai.Stub (ai.NewStubClient 3)))
      {| indexer.path := "/r/main.go"; indexer.content := "package main" |} 0
    = Some (None, st',
            [ indexer.CallSummarize "main.go" "go" "package main";
              indexer.CallEmbed "Code file: main.go";
              indexer.LogIndexingChunk "main.go" 1 true true;
              indexer.CallUpsertChunk m (Some [0%Q; 0%Q; 0%Q]) h None ])
    /\ st' = 1
    /\ models.Summary m = "Code file: main.go".
Proof.
  eexists. eexists. eexists. split.
  - apply (lookup_error_reindexes Z fixtures.Rel_below
             (fixtures.an_indexer fixtures.down_store (ai.Stub (ai.NewStubClient 3)))
             (ai.Stub (ai.NewStubClient 3))
             {| indexer.path := "/r/main.go"; indexer.content := "package main" |} 0
             store.no_meta false (ErrConn "down")
             ("Code file: main.go", None) (Some [0%Q; 0%Q; 0%Q], None));
      reflexivity.
  - split; reflexivity.
Defined.

(* ================================================================== *)
(** * The search service when the embedder fails *)

Lemma Query_embed_failure {S : Type} (s : search.Service S) (q : string) (k : Z)
    (opt : store.QueryOpts) (st : S) (head : slice float32) (e : err) :
  ai.Embed (search.Client s) (strings.TrimSpace q) = Some (head, Some e) ->
  search.Query s q k opt st
  = match store.Search (search.Store s) None k
                       (search.with_QueryText opt (strings.TrimSpace q)) st with
    | (_, Some e') => Some (None, Some e')
    | (res, None) => Some (res, None)
    end.
Proof.
  intros He. unfold search.Query. rewrite He.
  destruct (store.Search _ _ _ _ _) as [res [e'|]]; reflexivity.
Qed.

Lemma Search_nil_vector (eng : store.Engine) (k : Z) (opt : store.QueryOpts)
    (st : store.Pg) :
  store.vector_in eng [] = false ->
  strings.TrimSpace (store.QueryText opt) <> "" ->
  store.Store.Search eng None k opt st
  = (None, Some (ErrDataException "vector must have at least 1 dimension")).
Proof.
  intros Hin Hq. unfold store.Store.Search.
  destruct (String.eqb_spec (strings.TrimSpace (store.QueryText opt)) "") as [E|_];
    [contradiction|].
  unfold store.ranking_query. cbn [store.NewVector]. now rewrite Hin.
Qed.

(** Were the vector without elements accepted, [cosine_distance] would
    still fail on the first candidate that has a vector. *)
Lemma Search_nil_vector_other_dimensions (eng : store.Engine) (k : Z)
    (opt : store.QueryOpts) (st : store.Pg) (r : store.Row) (x : float32)
    (v : list float32) :
  strings.TrimSpace (store.QueryText opt) <> "" ->
  In r (store.rows st) ->
  store.where_ opt r = true ->
  store.summary_vec r = Some (x :: v) ->
  exists e : err, store.Store.Search eng None k opt st = (None, Some e).
Proof.
  intros Hq Hin Hw Hv. unfold store.Store.Search.
  destruct (String.eqb_spec (strings.TrimSpace (store.QueryText opt)) "") as [E|_];
    [contradiction|].
  unfold store.ranking_query. cbn [store.NewVector].
  destruct (negb (store.vector_in eng [])); [eexists; reflexivity|].
  destruct (k <? 0); [eexists; reflexivity|].
  assert (Hex : existsb (fun r0 => match store.summary_vec r0 with
                                   | Some v0 => negb (Nat.eqb (List.length v0)
                                                              (List.length (@nil float32)))
                                   | None => false
                                   end)
                        (filter (store.where_ opt) (store.rows st)) = true).
  { apply existsb_exists. exists r. split; [now apply filter_In|].
    rewrite Hv. reflexivity. }
  rewrite Hex. eexists; reflexivity.
Qed.



(* ================================================================== *)
(** * The table across upserts *)

Section TableFacts.
Import store.

Lemma find_map_stable (p : Row -> bool) (f : Row -> Row) (l : list Row) :
  (forall r, p (f r) = p r) ->
  find p (map f l) = option_map f (find p l).
Proof.
  intros Hp. induction l as [|a l IH]; [reflexivity|].
  cbn [map find]. rewrite Hp. destruct (p a); [reflexivity|exact IH].
Qed.

Lemma find_app_first (p : Row -> bool) (l l' : list Row) :
  find p (l ++ l') = match find p l with
                     | Some x => Some x
                     | None => find p l'
                     end.
Proof.
  induction l as [|a l IH]; [reflexivity|].
  cbn [app find]. destruct (p a); [reflexivity|exact IH].
Qed.

Lemma meta_match_merged (c : models.Chunk) (new : Row) (repo pth : string)
    (ls le : Z) (r : Row) :
  meta_match repo pth ls le (if same_key c r then do_update r new else r)
  = meta_match repo pth ls le r.
Proof. destruct (same_key c r); reflexivity. Qed.

Lemma same_key_meta_match (c : models.Chunk) (r : Row) :
  same_key c r = true ->
  meta_match (models.Repository c) (models.Path c) (models.LineStart c)
             (models.LineEnd c) r = true.
Proof.
  intros H. apply same_key_true in H as (H1 & _ & H3 & H4 & H5).
  apply meta_match_true. tauto.
Qed.

Lemma merged_summary_kept (new old : string) :
  old <> "" -> COALESCE (NULLIF new "") old <> "".
Proof.
  intros Ho. unfold COALESCE, NULLIF.
  destruct (String.eqb_spec new "") as [E|E]; assumption.
Qed.

Lemma merged_summary_new (new old : string) :
  new <> "" -> COALESCE (NULLIF new "") old = new.
Proof.
  intros Hn. unfold COALESCE, NULLIF.
  destruct (String.eqb_spec new "") as [E|E]; [contradiction|reflexivity].
Qed.

Lemma merged_vec_kept (new old : option (list float32)) :
  old <> None -> COALESCE_null new old <> None.
Proof. intros Ho. destruct new; [discriminate|exact Ho]. Qed.

(** An upsert keeps what a lookup finds good, provided that, when it hits
    the looked-up row, it carries the same hash. *)
Lemma good_after_upsert (c : models.Chunk) (vec : slice float32) (h' : string)
    (st : Pg) (repo pth : string) (ls le : Z) (h : string) :
  steps.good st repo pth ls le h ->
  (models.Repository c = repo -> models.Path c = pth ->
   models.LineStart c = ls -> models.LineEnd c = le -> h' = h) ->
  steps.good (snd (Store.UpsertChunk c vec h' st)) repo pth ls le h.
Proof.
  intros (r & Hfind & Hh & Hs & Hv) Hsame. unfold steps.good.
  destruct (fits (dim st) vec) eqn:Hf.
  2:{ rewrite (upsert_rejected _ _ _ _ Hf). cbn [snd tick rows].
      exists r. repeat split; assumption. }
  destruct (existsb (same_key c) (rows st)) eqn:Hk.
  - rewrite (upsert_on_conflict _ _ _ _ Hf Hk). cbn [snd tick rows].
    rewrite find_map_stable by (intros; apply meta_match_merged).
    rewrite Hfind. cbn [option_map].
    destruct (same_key c r) eqn:Hkr.
    + eexists. split; [reflexivity|].
      cbn [do_update excluded content_hash summary summary_vec].
      split.
      { apply find_some in Hfind as [_ Hm].
        apply meta_match_true in Hm as (M1 & M2 & M3 & M4).
        apply same_key_true in Hkr as (K1 & _ & K3 & K4 & K5).
        rewrite Hsame; congruence. }
      split; [now apply merged_summary_kept|now apply merged_vec_kept].
    + exists r. repeat split; assumption.
  - rewrite (upsert_insert _ _ _ _ Hf Hk).
    destruct (existsb (fun x => String.eqb (id x) (models.ID c)) (rows st));
      cbn [snd tick rows].
    + exists r. repeat split; assumption.
    + rewrite find_app_first, Hfind. exists r. repeat split; assumption.
Qed.

(** The identifiers stay unique and derived. *)
Lemma wf_after_upsert (c : models.Chunk) (vec : slice float32) (h : string) (st : Pg) :
  invariants.pk_unique st -> invariants.ids_derived st ->
  models.ID c = indexer.chunkID (models.Path c) (models.LineStart c) (models.LineEnd c) ->
  invariants.pk_unique (snd (Store.UpsertChunk c vec h st))
  /\ invariants.ids_derived (snd (Store.UpsertChunk c vec h st)).
Proof.
  unfold invariants.pk_unique, invariants.ids_derived. intros Hpk Hids Hid.
  destruct (fits (dim st) vec) eqn:Hf.
  2:{ rewrite (upsert_rejected _ _ _ _ Hf). cbn [snd tick rows]. tauto. }
  destruct (existsb (same_key c) (rows st)) eqn:Hk.
  - rewrite (upsert_on_conflict _ _ _ _ Hf Hk). cbn [snd tick rows]. split.
    + rewrite map_map.
      erewrite map_ext; [exact Hpk|]. intros r. cbv beta.
      destruct (same_key c r); reflexivity.
    + apply Forall_forall. intros r' Hin.
      apply in_map_iff in Hin as [r [<- Hin]].
      pose proof (proj1 (Forall_forall _ _) Hids r Hin) as Hr.
      destruct (same_key c r); [|exact Hr]. exact Hr.
  - rewrite (upsert_insert _ _ _ _ Hf Hk).
    destruct (existsb (fun r => String.eqb (id r) (models.ID c)) (rows st)) eqn:Hi;
      cbn [snd tick rows]; [tauto|].
    split.
    + rewrite map_app. cbn [map excluded id].
      apply NoDup_app_one; [exact Hpk|].
      intros Hin. apply in_map_iff in Hin as [r [E Hin]].
      pose proof (proj1 (existsb_false_forall _ _) Hi r Hin) as N.
      cbv beta in N. rewrite E, String.eqb_refl in N. discriminate.
    + apply Forall_app. split; [exact Hids|].
      constructor; [|constructor]. cbn [excluded id path line_start line_end].
      exact Hid.
Qed.

(** A successful upsert leaves, under its own lookup key, a row with its
    hash, its summary and a vector: the one it brought, or the one that
    the lookup had found. *)
Lemma good_after_own_upsert (c : models.Chunk) (vec : slice float32) (h : string)
    (st : Pg) :
  invariants.pk_unique st -> invariants.ids_derived st ->
  models.ID c = indexer.chunkID (models.Path c) (models.LineStart c) (models.LineEnd c) ->
  fst (Store.UpsertChunk c vec h st) = None ->
  models.Summary c <> "" ->
  (vec <> None
   \/ exists r0,
       find (meta_match (models.Repository c) (models.Path c)
                        (models.LineStart c) (models.LineEnd c)) (rows st) = Some r0
       /\ summary_vec r0 <> None) ->
  steps.good (snd (Store.UpsertChunk c vec h st))
             (models.Repository c) (models.Path c)
             (models.LineStart c) (models.LineEnd c) h.
Proof.
  intros Hpk Hids Hid Hok Hsum Hvec. unfold steps.good.
  pose proof (proj1 (Forall_forall _ _) Hids) as Hder.
  destruct (fits (dim st) vec) eqn:Hf.
  2:{ rewrite (upsert_rejected _ _ _ _ Hf) in Hok. discriminate. }
  destruct (existsb (same_key c) (rows st)) eqn:Hk.
  - rewrite (upsert_on_conflict _ _ _ _ Hf Hk). cbn [snd tick rows].
    rewrite find_map_stable by (intros; apply meta_match_merged).
    apply existsb_exists in Hk as (r1 & Hin1 & Hk1).
    pose proof (same_key_meta_match _ _ Hk1) as Hm1.
    destruct (find (meta_match (models.Repository c) (models.Path c)
                               (models.LineStart c) (models.LineEnd c)) (rows st))
      as [r|] eqn:Hfind.
    2:{ pose proof (find_none _ _ Hfind r1 Hin1) as N. congruence. }
    pose proof (find_some _ _ Hfind) as [Hin Hm].
    assert (E : r = r1).
    { apply (NoDup_map_inj id (rows st)); try assumption.
      rewrite (Hder r Hin), (Hder r1 Hin1).
      apply meta_match_true in Hm as (_ & M2 & M3 & M4).
      apply meta_match_true in Hm1 as (_ & N2 & N3 & N4).
      congruence. }
    subst r1. cbn [option_map]. rewrite Hk1.
    eexists. split; [reflexivity|].
    cbn [do_update excluded content_hash summary summary_vec].
    split; [reflexivity|]. split.
    + now rewrite merged_summary_new.
    + destruct vec as [v|]; [discriminate|].
      destruct Hvec as [Hv|(r0 & Hf0 & Hv0)]; [congruence|].
      cbn [COALESCE_null]. congruence.
  - rewrite (upsert_insert _ _ _ _ Hf Hk) in Hok |- *.
    destruct (existsb (fun x => String.eqb (id x) (models.ID c)) (rows st)) eqn:Hi;
      [discriminate|].
    cbn [snd tick rows].
    assert (Hnone : find (meta_match (models.Repository c) (models.Path c)
                                     (models.LineStart c) (models.LineEnd c))
                         (rows st) = None).
    { destruct (find _ (rows st)) as [r|] eqn:Hfind; [exfalso|reflexivity].
      pose proof (find_some _ _ Hfind) as [Hin Hm].
      apply meta_match_true in Hm as (_ & M2 & M3 & M4).
      pose proof (proj1 (existsb_false_forall _ _) Hi r Hin) as N. cbv beta in N.
      rewrite (Hder r Hin), M2, M3, M4, <- Hid, String.eqb_refl in N. discriminate. }
    rewrite find_app_first, Hnone. cbn [find].
    assert (Hnew : meta_match (models.Repository c) (models.Path c)
                              (models.LineStart c) (models.LineEnd c)
                              (excluded c vec h (clock st)) = true).
    { apply meta_match_true. cbn. tauto. }
    rewrite Hnew. eexists. split; [reflexivity|].
    cbn [excluded content_hash summary summary_vec].
    split; [reflexivity|]. split; [exact Hsum|].
    destruct Hvec as [Hv|(r0 & Hf0 & _)]; [exact Hv|congruence].
Qed.

End TableFacts.

(* ================================================================== *)
(** * One item of a run over the table *)

Section StepFacts.
Import indexer.
Variable filepath_Rel : string -> string -> string * error.

Lemma step_inversion {S : Type} (ix : Indexer S) (c : ai.Client) (item : workItem)
    (st st' : S) (e : error) (evs : list Event) :
  steps.step filepath_Rel ix c item st = Some (e, st', evs) ->
  exists (summary : string) (vec : slice float32) (needS needE : bool)
         (pre : list Event),
    let relPath := rel filepath_Rel (RepoRoot ix) (path item) in
    let body := content item in
    let m := steps.upsert_arg filepath_Rel ix item summary in
    let answer := store.GetChunkMeta (Store ix) (Repository ix) relPath 1
                                     (steps.last_line body) st in
    e = None
    /\ st' = snd (store.UpsertChunk (Store ix) m vec (hashContent body) st)
    /\ evs = pre ++ [LogIndexingChunk relPath (steps.last_line body - 1 + 1) needS needE;
                     CallUpsertChunk m vec (hashContent body)
                       (fst (store.UpsertChunk (Store ix) m vec (hashContent body) st))]
    /\ steps.decide answer (hashContent body) = (needS, needE)
    /\ (needE = true ->
        In (CallEmbed summary) pre
        /\ exists r, ai.Embed c summary = Some r /\ vec = fst r)
    /\ (needE = false -> vec = None).
Proof.
  unfold steps.step.
  destruct (steps.decide _ _) as [needS needE] eqn:Hd.
  destruct (if needS then _ else _) as [summary|]; [|discriminate].
  destruct needE; cbn [option_map].
  - destruct (ai.Embed c summary) as [r|] eqn:He; [|discriminate]. cbn [option_map].
    destruct (store.UpsertChunk _ _ _ _ _) as [ue s'] eqn:Hu.
    intros H. inversion H; subst; clear H.
    exists summary, (fst r), needS, true,
      ((if needS
        then [CallSummarize (rel filepath_Rel (RepoRoot ix) (path item))
                            (guessLang (path item)) (steps.sent_text (content item))]
        else []) ++ [CallEmbed summary]).
    cbv zeta. rewrite Hu. cbn [fst snd].
    split; [reflexivity|]. split; [reflexivity|].
    split; [now rewrite <- app_assoc|].
    split; [reflexivity|]. split.
    + intros _. split; [apply in_or_app; right; now left|].
      exists r. now split.
    + discriminate.
  - destruct (store.UpsertChunk _ _ _ _ _) as [ue s'] eqn:Hu.
    intros H. inversion H; subst; clear H.
    exists summary, None, needS, false,
      (if needS
       then [CallSummarize (rel filepath_Rel (RepoRoot ix) (path item))
                           (guessLang (path item)) (steps.sent_text (content item))]
       else []).
    cbv zeta. rewrite Hu. cbn [fst snd].
    split; [reflexivity|]. split; [reflexivity|].
    split; [reflexivity|].
    split; [reflexivity|]. split; [discriminate|reflexivity].
Qed.

Variable eng : store.Engine.
Variable ix : Indexer store.Pg.
Variable c : ai.Client.
Hypothesis HStore : Store ix = store.PgStore eng.
Hypothesis HClient : Client ix = Some c.

(** An upsert for [item] keeps good every item that agrees with it on the
    content when it agrees on the relative path. *)
Lemma others_stay_good (item other : workItem) (summary : string)
    (vec : slice float32) (st : store.Pg) :
  steps.agrees filepath_Rel ix other item ->
  steps.item_good filepath_Rel ix st other ->
  steps.item_good filepath_Rel ix
    (snd (store.Store.UpsertChunk (steps.upsert_arg filepath_Rel ix item summary) vec
                              (hashContent (content item)) st))
    other.
Proof.
  intros Hsame Hgood. unfold steps.item_good in *.
  apply good_after_upsert; [exact Hgood|].
  cbn [steps.upsert_arg models.Repository models.Path models.LineStart models.LineEnd].
  intros _ Hp _ _. f_equal. symmetry. apply Hsame. symmetry. exact Hp.
Qed.

Lemma second_step (item : workItem) (st : store.Pg) :
  steps.item_good filepath_Rel ix st item ->
  exists (st' : store.Pg) (evs : list Event),
    processWorkItem filepath_Rel ix item st = Some (None, st', evs)
    /\ Forall steps.quiet evs
    /\ forall other : workItem,
        steps.agrees filepath_Rel ix other item ->
        steps.item_good filepath_Rel ix st other ->
        steps.item_good filepath_Rel ix st' other.
Proof.
  intros Hgood.
  rewrite (processWorkItem_step filepath_Rel ix c item st HClient).
  unfold steps.step. rewrite HStore.
  cbn [store.GetChunkMeta store.UpsertChunk store.PgStore].
  destruct Hgood as (r & Hfind & Hh & Hs & Hv).
  unfold store.Store.GetChunkMeta. rewrite Hfind.
  unfold steps.decide, spec.need_summary, spec.need_embed.
  cbn [store.ContentHash store.Summary store.HasSummaryVec store.COALESCE fst snd negb orb].
  rewrite Hh, String.eqb_refl.
  destruct (String.eqb_spec (store.summary r) "") as [E|_]; [contradiction|].
  destruct (store.summary_vec r) as [v|] eqn:Ev; [|contradiction].
  cbn [negb orb app].
  destruct (store.Store.UpsertChunk _ None _ st) as [ue st'] eqn:Hu.
  exists st'. eexists. split; [reflexivity|]. split.
  - repeat constructor.
  - intros other Hsame Hother.
    replace st' with (snd (store.Store.UpsertChunk
                             (steps.upsert_arg filepath_Rel ix item (store.summary r))
                             None (hashContent (content item)) st))
      by (now rewrite Hu).
    now apply others_stay_good.
Qed.

Lemma decide_no_embed (st : store.Pg) (repo pth : string) (ls le : Z) (h : string)
    (needS : bool) :
  steps.decide (store.Store.GetChunkMeta repo pth ls le st) h = (needS, false) ->
  exists r0, find (store.meta_match repo pth ls le) (store.rows st) = Some r0
             /\ store.summary_vec r0 <> None.
Proof.
  unfold store.Store.GetChunkMeta, steps.decide, spec.need_embed.
  destruct (find _ (store.rows st)) as [r0|].
  - cbn [store.HasSummaryVec negb orb]. intros H. injection H as _ H1.
    exists r0. split; [reflexivity|].
    destruct (store.summary_vec r0); [discriminate|].
    rewrite orb_true_r in H1. discriminate.
  - cbn. discriminate.
Qed.

Lemma first_step (item : workItem) (st st' : store.Pg) (e : error)
    (evs : list Event) :
  invariants.pk_unique st -> invariants.ids_derived st ->
  processWorkItem filepath_Rel ix item st = Some (e, st', evs) ->
  Forall (steps.stores c) evs ->
  (invariants.pk_unique st' /\ invariants.ids_derived st')
  /\ steps.item_good filepath_Rel ix st' item
  /\ forall other : workItem,
      steps.agrees filepath_Rel ix other item ->
      steps.item_good filepath_Rel ix st other ->
      steps.item_good filepath_Rel ix st' other.
Proof.
  intros Hpk Hids Hrun Hev.
  rewrite (processWorkItem_step filepath_Rel ix c item st HClient) in Hrun.
  apply step_inversion in Hrun.
  destruct Hrun as [summary [vec [needS [needE [pre Hinv]]]]].
  cbv zeta in Hinv.
  destruct Hinv as (_ & Hst & Hevs & Hd & Hemb & Hnoemb).
  rewrite HStore in Hst, Hevs, Hd.
  cbn [store.GetChunkMeta store.UpsertChunk store.PgStore] in Hst, Hevs, Hd.
  subst evs. apply Forall_app in Hev as [Hpre Hlast].
  inversion Hlast as [|? ? _ Hup]; subst.
  inversion Hup as [|? ? Hstored _]; subst.
  cbn [steps.stores] in Hstored. destruct Hstored as [Hok Hsum].
  cbn [steps.upsert_arg models.Summary] in Hsum.
  set (m := steps.upsert_arg filepath_Rel ix item summary) in *.
  assert (Hid : models.ID m
                = chunkID (models.Path m) (models.LineStart m) (models.LineEnd m))
    by reflexivity.
  split; [now apply wf_after_upsert|]. split.
  - unfold steps.item_good.
    apply (good_after_own_upsert m vec (hashContent (content item)) st);
      try assumption.
    destruct needE.
    + left. destruct (Hemb eq_refl) as (Hin & r & He & ->).
      pose proof (proj1 (Forall_forall _ _) Hpre _ Hin) as (v & err0 & Hv).
      cbn in Hv. rewrite He in Hv. inversion Hv. discriminate.
    + right. apply (decide_no_embed _ _ _ _ _ _ _ Hd).
  - intros other Hsame Hother. now apply others_stay_good.
Qed.

End StepFacts.

(* ================================================================== *)
(** * Two runs in a row *)

Section RunFacts.
Import indexer.
Variable filepath_Rel : string -> string -> string * error.
Variable eng : store.Engine.
Variable ix : Indexer store.Pg.
Variable c : ai.Client.
Hypothesis HStore : Store ix = store.PgStore eng.
Hypothesis HClient : Client ix = Some c.
Hypothesis HOne : steps.one_content_per_path filepath_Rel ix.

Lemma visit_reaches (entry : string * bool) (st : store.Pg) :
  visit filepath_Rel ix entry st
  = match steps.reaches ix entry with
    | [] => Some (tt, st, [])
    | item :: _ =>
        match processWorkItem filepath_Rel ix item st with
        | Some (_, st', evs) => Some (tt, st', evs ++ [])
        | None => None
        end
    end.
Proof.
  destruct entry as [p is_dir]. unfold visit, steps.reaches. cbn [fst snd].
  destruct is_dir; [reflexivity|].
  destruct (shouldSkip p); [reflexivity|].
  destruct (FileReader_ ix p) as [b [e|]]; cbn [fst snd]; [reflexivity|].
  unfold bind, ret.
  destruct (processWorkItem filepath_Rel ix _ st) as [[[e st'] evs]|]; reflexivity.
Qed.

Lemma reaches_at_most_one (entry : string * bool) (item : workItem)
    (rest : list workItem) :
  steps.reaches ix entry = item :: rest -> rest = [].
Proof.
  unfold steps.reaches. destruct (snd entry); [discriminate|].
  destruct (shouldSkip (fst entry)); [discriminate|].
  destruct (snd (FileReader_ ix (fst entry))); [discriminate|].
  intros H. now inversion H.
Qed.

Lemma forEach_cons {A : Type} (f : A -> M store.Pg unit) (a : A) (l : list A)
    (st : store.Pg) :
  forEach f (a :: l) st
  = match f a st with
    | Some (_, s1, l1) =>
        match forEach f l s1 with
        | Some (u, s2, l2) => Some (u, s2, l1 ++ l2)
        | None => None
        end
    | None => None
    end.
Proof. reflexivity. Qed.

(** The first run: what it has passed is good, and stays good. *)
Lemma first_run_invariant (entries : list (string * bool)) :
  forall (st st' : store.Pg) (u : unit) (evs : list Event) (P : workItem -> Prop),
    (forall x, In x (flat_map (steps.reaches ix) entries) -> In x (steps.work ix)) ->
    invariants.pk_unique st -> invariants.ids_derived st ->
    (forall g, P g -> In g (steps.work ix) /\ steps.item_good filepath_Rel ix st g) ->
    forEach (visit filepath_Rel ix) entries st = Some (u, st', evs) ->
    Forall (steps.stores c) evs ->
    forall g, P g \/ In g (flat_map (steps.reaches ix) entries) ->
              steps.item_good filepath_Rel ix st' g.
Proof.
  induction entries as [|a entries IH]; intros st st' u evs P Hsub Hpk Hids HP Hrun Hev g Hg.
  - cbn in Hrun. unfold ret in Hrun. injection Hrun as _ <- _.
    destruct Hg as [Hg|[]]. now apply HP.
  - rewrite forEach_cons, visit_reaches in Hrun.
    cbn [flat_map] in Hsub, Hg.
    destruct (steps.reaches ix a) as [|item rest] eqn:Hr.
    + cbn [app] in Hsub, Hg. cbv beta iota in Hrun.
      destruct (forEach (visit filepath_Rel ix) entries st) as [[[u' s2] l2]|] eqn:Hrest;
        [|discriminate].
      injection Hrun as -> -> <-. cbn [app] in Hev.
      now apply (IH st st' u l2 P).
    + pose proof (reaches_at_most_one _ _ _ Hr) as ->.
      destruct (processWorkItem filepath_Rel ix item st) as [[[e s1] l1]|] eqn:Hitem;
        [|discriminate].
      destruct (forEach (visit filepath_Rel ix) entries s1) as [[[u' s2] l2]|] eqn:Hrest;
        [|discriminate].
      injection Hrun as -> -> <-. rewrite app_nil_r in Hev.
      apply Forall_app in Hev as [Hev1 Hev2].
      assert (Hitem_in : In item (steps.work ix)) by (apply Hsub; now left).
      destruct (first_step filepath_Rel eng ix c HStore HClient item st s1 e l1
                           Hpk Hids Hitem Hev1) as [[Hpk1 Hids1] [Hgood1 Hkeep]].
      apply (IH s1 st' u l2 (fun x => P x \/ x = item)); try assumption.
      * intros x Hx. apply Hsub. cbn [app]. now right.
      * intros x [Hx| ->].
        -- destruct (HP x Hx) as [Hin Hgd]. split; [exact Hin|].
           apply Hkeep; [|exact Hgd]. intros Hrel. now apply HOne.
        -- now split.
      * cbn [app] in Hg. destruct Hg as [Hg|[Hg|Hg]]; [left; now left| |now right].
        left. right. now symmetry.
Qed.

(** The second run: every item is found good, nothing is asked of the
    model, and every item stays good. *)
Lemma second_run_invariant (entries : list (string * bool)) :
  forall st : store.Pg,
    (forall x, In x (flat_map (steps.reaches ix) entries) -> In x (steps.work ix)) ->
    (forall g, In g (steps.work ix) -> steps.item_good filepath_Rel ix st g) ->
    exists (st' : store.Pg) (evs : list Event),
      forEach (visit filepath_Rel ix) entries st = Some (tt, st', evs)
      /\ Forall steps.quiet evs
      /\ forall g, In g (steps.work ix) -> steps.item_good filepath_Rel ix st' g.
Proof.
  induction entries as [|a entries IH]; intros st Hsub Hall.
  - exists st, []. split; [reflexivity|]. split; [constructor|exact Hall].
  - rewrite forEach_cons, visit_reaches. cbn [flat_map] in Hsub.
    destruct (steps.reaches ix a) as [|item rest] eqn:Hr.
    + cbn [app] in Hsub. destruct (IH st Hsub Hall) as (st' & evs & Hrun & Hq & Hgood).
      exists st', evs. rewrite Hrun. now split.
    + pose proof (reaches_at_most_one _ _ _ Hr) as ->.
      assert (Hitem_in : In item (steps.work ix)) by (apply Hsub; now left).
      destruct (second_step filepath_Rel eng ix c HStore HClient item st
                            (Hall item Hitem_in)) as (s1 & l1 & Hitem & Hq1 & Hkeep).
      rewrite Hitem.
      assert (Hall1 : forall g, In g (steps.work ix) ->
                                steps.item_good filepath_Rel ix s1 g).
      { intros g Hg. apply Hkeep; [|now apply Hall]. intros Hrel. now apply HOne. }
      assert (Hsub1 : forall x, In x (flat_map (steps.reaches ix) entries) ->
                                In x (steps.work ix)).
      { intros x Hx. apply Hsub. cbn [app]. now right. }
      destruct (IH s1 Hsub1 Hall1) as (st' & evs & Hrun & Hq & Hgood).
      exists st', ((l1 ++ []) ++ evs). rewrite Hrun.
      split; [reflexivity|]. split; [|exact Hgood].
      rewrite app_nil_r. apply Forall_app. now split.
Qed.

End RunFacts.



(* ================================================================== *)
(** * More on strings *)

Section MoreStringFacts.
Import strings.

Lemma len_upto (s : string) : forall n : Z, 0 <= n -> len (upto n s) <= n.
Proof.
  unfold len. induction s as [|c r IH]; intros n Hn; cbn [upto String.length].
  - lia.
  - destruct (Z.leb_spec n 0); cbn [String.length]; [lia|].
    specialize (IH (n - 1)). lia.
Qed.

Lemma upto_prefix (s : string) : forall n : Z, String.prefix (upto n s) s = true.
Proof.
  induction s as [|c r IH]; intros n; cbn [upto]; [reflexivity|].
  destruct (n <=? 0); [reflexivity|].
  cbn [String.prefix]. destruct (ascii_dec c c) as [_|N]; [apply IH|congruence].
Qed.

Lemma upto_all (s : string) : forall n : Z, len s <= n -> upto n s = s.
Proof.
  unfold len. induction s as [|c r IH]; intros n Hn; cbn [upto String.length] in *;
    [reflexivity|].
  destruct (Z.leb_spec n 0); [lia|].
  f_equal. apply IH. lia.
Qed.

Lemma len_upto_exact (s : string) :
  forall n : Z, 0 <= n -> n <= len s -> len (upto n s) = n.
Proof.
  unfold len. induction s as [|c r IH]; intros n Hn Hs; cbn [upto String.length] in *.
  - lia.
  - destruct (Z.leb_spec n 0); cbn [String.length]; [lia|].
    specialize (IH (n - 1)). lia.
Qed.

Lemma prefix_refl (a : string) : String.prefix a a = true.
Proof.
  induction a as [|c a IH]; [reflexivity|].
  cbn [String.prefix]. destruct (ascii_dec c c); [exact IH|congruence].
Qed.

Lemma prefix_app (a b : string) : String.prefix a (a ++ b)%string = true.
Proof.
  induction a as [|c a IH]; [destruct b; reflexivity|].
  cbn [String.append String.prefix]. destruct (ascii_dec c c); [exact IH|congruence].
Qed.

Lemma prefix_of_app (a b : string) :
  forall s : string, String.prefix (a ++ b)%string s = true -> String.prefix a s = true.
Proof.
  induction a as [|c a IH]; intros s H; [destruct s; reflexivity|].
  destruct s as [|d s]; [discriminate|].
  cbn [String.append String.prefix] in *.
  destruct (ascii_dec c d); [now apply IH|discriminate].
Qed.

Lemma drop_app (a b : string) : drop (String.length a) (a ++ b)%string = b.
Proof. induction a as [|c a IH]; [destruct b; reflexivity|exact IH]. Qed.

Lemma Contains_here (s sub : string) :
  String.prefix sub s = true -> Contains s sub = true.
Proof. intros H. destruct s; cbn [Contains]; rewrite H; reflexivity. Qed.

Lemma Contains_app (a d b : string) : Contains (a ++ d ++ b)%string d = true.
Proof.
  induction a as [|c a IH].
  - cbn [String.append]. apply Contains_here, prefix_app.
  - cbn [String.append Contains]. rewrite IH. apply orb_true_r.
Qed.

Lemma Contains_of_app (s a b : string) :
  Contains s (a ++ b)%string = true -> Contains s a = true.
Proof.
  induction s as [|c s IH]; cbn [Contains]; intros H.
  - rewrite orb_false_r in *. now apply prefix_of_app in H.
  - apply orb_true_iff in H as [H|H].
    + apply prefix_of_app in H. now rewrite H.
    + rewrite (IH H). apply orb_true_r.
Qed.

Lemma ToLower_app (a b : string) :
  ToLower (a ++ b)%string = (ToLower a ++ ToLower b)%string.
Proof. induction a as [|c a IH]; [reflexivity|]. cbn. now rewrite IH. Qed.

Lemma lower_byte_idem (c : ascii) : lower_byte (lower_byte c) = lower_byte c.
Proof.
  destruct c as [[] [] [] [] [] [] [] []]; vm_compute; reflexivity.
Qed.

Lemma ToLower_idem (s : string) : ToLower (ToLower s) = ToLower s.
Proof.
  induction s as [|c s IH]; [reflexivity|].
  cbn [ToLower]. now rewrite lower_byte_idem, IH.
Qed.

Lemma string_length_app (a b : string) :
  String.length (a ++ b)%string = (String.length a + String.length b)%nat.
Proof. induction a as [|c a IH]; [reflexivity|]. cbn. now rewrite IH. Qed.

End MoreStringFacts.

(* ================================================================== *)
(** * The helpers of the indexer *)

Section IndexerHelpers.
Import strings indexer.

Lemma scan_ext_app (s e : string) :
  scan_ext e = Found e -> scan_ext (s ++ e)%string = Found e.
Proof.
  intros He. induction s as [|c s IH]; [exact He|].
  cbn [String.append scan_ext]. now rewrite IH.
Qed.

Lemma Ext_app (s e : string) : scan_ext e = Found e -> Ext (s ++ e)%string = e.
Proof. intros He. unfold Ext. now rewrite scan_ext_app. Qed.

Lemma lower_byte_dot_slash (c : ascii) :
  Ascii.eqb (lower_byte c) "." = Ascii.eqb c "."
  /\ Ascii.eqb (lower_byte c) "/" = Ascii.eqb c "/".
Proof.
  destruct c as [[] [] [] [] [] [] [] []]; vm_compute; split; reflexivity.
Qed.

Lemma scan_ext_ToLower (s : string) :
  scan_ext (ToLower s)
  = match scan_ext s with
    | Found e => Found (ToLower e)
    | Separator => Separator
    | Neither => Neither
    end.
Proof.
  induction s as [|c s IH]; [reflexivity|].
  cbn [ToLower scan_ext]. rewrite IH.
  destruct (scan_ext s); try reflexivity.
  destruct (lower_byte_dot_slash c) as [-> ->].
  destruct (Ascii.eqb c "."); [reflexivity|].
  destruct (Ascii.eqb c "/"); reflexivity.
Qed.

Lemma Ext_ToLower (p : string) : Ext (ToLower p) = ToLower (Ext p).
Proof. unfold Ext. rewrite scan_ext_ToLower. destruct (scan_ext p); reflexivity. Qed.

Lemma length_EncodeToString (bs : list Z) :
  String.length (hex.EncodeToString bs) = (2 * List.length bs)%nat.
Proof. induction bs as [|b r IH]; [reflexivity|]. cbn [hex.EncodeToString String.length List.length]. lia. Qed.

Lemma digit_is_hex (n : Z) : 0 <= n < 16 -> props.is_hex (hex.digit n) = true.
Proof.
  intros H.
  assert (E : exists k : nat, (k < 16)%nat /\ n = Z.of_nat k)
    by (exists (Z.to_nat n); lia).
  destruct E as (k & Hk & ->).
  do 16 (destruct k as [|k]; [reflexivity|]). lia.
Qed.

Lemma is_hex_EncodeToString (bs : list Z) :
  Forall (fun b => 0 <= b < 256) bs ->
  props.bytes_all props.is_hex (hex.EncodeToString bs) = true.
Proof.
  unfold props.bytes_all. induction 1 as [|b r Hb _ IH]; [reflexivity|].
  cbn [hex.EncodeToString list_ascii_of_string forallb].
  rewrite IH, !digit_is_hex; [reflexivity| |].
  - change 15 with (Z.ones 4). rewrite Z.land_ones by lia.
    apply Z.mod_pos_bound. reflexivity.
  - rewrite Z.shiftr_div_pow2 by lia. change (2 ^ 4) with 16.
    split; [apply Z.div_pos; lia|apply Z.div_lt_upper_bound; lia].
Qed.

Lemma be_bytes_range (n : nat) (x : Z) : Forall (fun b => 0 <= b < 256) (sha1.be_bytes n x).
Proof.
  induction n as [|n IH]; [constructor|].
  cbn [sha1.be_bytes]. constructor; [|exact IH].
  change 255 with (Z.ones 8). rewrite Z.land_ones by lia.
  apply Z.mod_pos_bound. reflexivity.
Qed.

Lemma length_be_bytes (n : nat) (x : Z) : List.length (sha1.be_bytes n x) = n.
Proof. induction n as [|n IH]; [reflexivity|]. cbn [sha1.be_bytes List.length]. now rewrite IH. Qed.

Lemma sha1_hex_shape (s : string) :
  String.length (hex.EncodeToString (sha1.Sum s)) = 40%nat
  /\ props.bytes_all props.is_hex (hex.EncodeToString (sha1.Sum s)) = true.
Proof.
  unfold sha1.Sum.
  destruct (sha1.blocks _ _ _) as [[[[h0 h1] h2] h3] h4].
  split.
  - rewrite length_EncodeToString, !List.length_app, !length_be_bytes. reflexivity.
  - apply is_hex_EncodeToString.
    repeat (apply Forall_app; split); apply be_bytes_range.
Qed.

End IndexerHelpers.

(** X1.  [summarizeHeuristic] returns at most 240 bytes, and they are the
    first bytes of the trimmed text: the whole of it when it has at most
    240 bytes, its first 240 bytes otherwise. *)
Theorem summarizeHeuristic_bounds :
  forall s : string,
    strings.len (indexer.summarizeHeuristic s) <= 240
    /\ String.prefix (indexer.summarizeHeuristic s) (strings.TrimSpace s) = true
    /\ (if strings.len (strings.TrimSpace s) <=? 240
        then indexer.summarizeHeuristic s = strings.TrimSpace s
        else strings.len (indexer.summarizeHeuristic s) = 240).
Proof.
  intros s. unfold indexer.summarizeHeuristic.
  destruct (Z.gtb_spec (strings.len (strings.TrimSpace s)) 240) as [Hlong|Hshort].
  - split; [apply len_upto; lia|]. split; [apply upto_prefix|].
    destruct (Z.leb_spec (strings.len (strings.TrimSpace s)) 240); [lia|].
    apply len_upto_exact; lia.
  - split; [lia|]. split; [apply prefix_refl|].
    destruct (Z.leb_spec (strings.len (strings.TrimSpace s)) 240); [reflexivity|lia].
Qed.

(** X2.  [shouldSkip] holds for every path that has one of the listed
    directories as a segment below its first, and for every path whose
    name ends in one of the listed extensions; it does not look at the
    casing of the path. *)
Theorem shouldSkip_denylist :
  Forall (fun d => forall a b : string, indexer.shouldSkip (a ++ d ++ b) = true)
         indexer.skipped_dirs
  /\ Forall (fun e => forall s : string, indexer.shouldSkip (s ++ e) = true)
            indexer.skipped_exts
  /\ forall p : string, indexer.shouldSkip (strings.ToLower p) = indexer.shouldSkip p.
Proof.
  split; [|split].
  - apply Forall_forall. intros d Hd a b. unfold indexer.shouldSkip.
    assert (Hlow : strings.ToLower d = d).
    { repeat (destruct Hd as [<-|Hd]; [reflexivity|]). destruct Hd. }
    rewrite !ToLower_app, Hlow.
    assert (H : existsb (strings.Contains
                           (strings.ToLower a ++ d ++ strings.ToLower b)%string)
                        indexer.skipped_dirs = true).
    { apply existsb_exists. exists d. split; [exact Hd|apply Contains_app]. }
    now rewrite H.
  - apply Forall_forall. intros e He s. unfold indexer.shouldSkip.
    assert (Hlow : strings.ToLower e = e).
    { repeat (destruct He as [<-|He]; [reflexivity|]). destruct He. }
    rewrite ToLower_app, Hlow.
    assert (Hext : indexer.Ext (strings.ToLower s ++ e)%string = e).
    { apply Ext_app.
      repeat (destruct He as [<-|He]; [reflexivity|]). destruct He. }
    rewrite Hext.
    assert (H : existsb (String.eqb e) indexer.skipped_exts = true).
    { apply existsb_exists. exists e. split; [exact He|apply String.eqb_refl]. }
    rewrite H. now destruct (existsb _ indexer.skipped_dirs).
  - intros p. unfold indexer.shouldSkip. now rewrite ToLower_idem.
Qed.

(** X3.  [guessLang] reads the extension of the last element alone: each
    of the twelve listed extensions gives its language whatever precedes
    it, an extension outside the list gives itself without the dot, and
    the casing of the path does not matter. *)
Theorem guessLang_by_extension :
  Forall (fun el : string * string =>
            forall s : string, indexer.guessLang (s ++ fst el) = snd el)
         [(".sh", "shell"); (".py", "python"); (".go", "go"); (".md", "markdown");
          (".tf", "terraform"); (".js", "javascript"); (".ts", "typescript");
          (".java", "java"); (".rb", "ruby"); (".yaml", "yaml"); (".yml", "yaml");
          (".json", "json"); (".bash", "bash"); (".rs", "rs"); (".txt", "txt")]
  /\ forall p : string, indexer.guessLang (strings.ToLower p) = indexer.guessLang p.
Proof.
  split.
  - repeat (constructor;
            [intros s; unfold indexer.guessLang; cbn [fst snd];
             rewrite Ext_app by reflexivity; reflexivity|]).
    constructor.
  - intros p. unfold indexer.guessLang.
    now rewrite Ext_ToLower, ToLower_idem.
Qed.

(** X4.  The language that the indexer stores for a file and the bias that
    the ranking gives to that language, when the query asks for a script:
    [.sh], [.bash], [.py] and [.go] files get +1, [.yaml], [.yml], [.tf]
    and [.json] files get -1, in any directory. *)
Theorem script_bias_by_extension :
  Forall (fun e => forall s : string,
            store.script_bias_of true (indexer.guessLang (s ++ e)) = 1)
         [".sh"; ".bash"; ".py"; ".go"]
  /\ Forall (fun e => forall s : string,
               store.script_bias_of true (indexer.guessLang (s ++ e)) = -1)
            [".yaml"; ".yml"; ".tf"; ".json"]
  /\ forall p : string, store.script_bias_of false (indexer.guessLang p) = 0.
Proof.
  split; [|split].
  - repeat (constructor;
            [intros s; unfold indexer.guessLang;
             rewrite Ext_app by reflexivity; reflexivity|]).
    constructor.
  - repeat (constructor;
            [intros s; unfold indexer.guessLang;
             rewrite Ext_app by reflexivity; reflexivity|]).
    constructor.
  - reflexivity.
Qed.

(** X5.  [chunkID] and [hashContent] always give forty lower-case
    hexadecimal digits. *)
Theorem ids_are_forty_hex_digits :
  (forall (p : string) (a b : Z),
      String.length (indexer.chunkID p a b) = 40%nat
      /\ props.bytes_all props.is_hex (indexer.chunkID p a b) = true)
  /\ (forall s : string,
         String.length (indexer.hashContent s) = 40%nat
         /\ props.bytes_all props.is_hex (indexer.hashContent s) = true).
Proof.
  split.
  - intros p a b.
    change (indexer.chunkID p a b)
      with (hex.EncodeToString
              (sha1.Sum (p ++ "#" ++ indexer.fmtI a ++ ":" ++ indexer.fmtI b)%string)).
    apply sha1_hex_shape.
  - intros s.
    change (indexer.hashContent s) with (hex.EncodeToString (sha1.Sum s)).
    apply sha1_hex_shape.
Qed.

(* ================================================================== *)
(** * The table under [UpsertChunk], row by row *)

Section MoreUpsertFacts.
Import store.

Lemma same_key_key_of (c : models.Chunk) (r : Row) :
  same_key c r = true <->
  schema.key_of r
  = (models.Repository c, models.Ref c, models.Path c,
     models.LineStart c, models.LineEnd c).
Proof.
  rewrite same_key_true. unfold schema.key_of. split.
  - intros (-> & -> & -> & -> & ->). reflexivity.
  - intros H. injection H as -> -> -> -> ->. repeat split.
Qed.

Lemma key_of_merged (c : models.Chunk) (new r : Row) :
  schema.key_of (if same_key c r then do_update r new else r) = schema.key_of r.
Proof. destruct (same_key c r); reflexivity. Qed.

Lemma id_merged (c : models.Chunk) (new r : Row) :
  id (if same_key c r then do_update r new else r) = id r.
Proof. destruct (same_key c r); reflexivity. Qed.

(** The four outcomes of [UpsertChunk]. *)
Lemma upsert_cases (c : models.Chunk) (vec : slice float32) (h : string) (st : Pg) :
  (fits (dim st) vec = false
   /\ Store.UpsertChunk c vec h st
      = (Some (ErrDataException "expected other dimensions"), tick st (rows st)))
  \/ (fits (dim st) vec = true
      /\ existsb (same_key c) (rows st) = true
      /\ Store.UpsertChunk c vec h st
         = (None,
            tick st (map (fun r => if same_key c r
                                   then do_update r (excluded c vec h (clock st))
                                   else r) (rows st))))
  \/ (fits (dim st) vec = true
      /\ existsb (same_key c) (rows st) = false
      /\ existsb (fun r => String.eqb (id r) (models.ID c)) (rows st) = true
      /\ Store.UpsertChunk c vec h st
         = (Some (ErrUniqueViolation "chunks_pkey"), tick st (rows st)))
  \/ (fits (dim st) vec = true
      /\ existsb (same_key c) (rows st) = false
      /\ existsb (fun r => String.eqb (id r) (models.ID c)) (rows st) = false
      /\ Store.UpsertChunk c vec h st
         = (None, tick st (rows st ++ [excluded c vec h (clock st)]))).
Proof.
  destruct (fits (dim st) vec) eqn:Hf.
  2:{ left. split; [reflexivity|]. now apply upsert_rejected. }
  right. destruct (existsb (same_key c) (rows st)) eqn:Hk.
  - left. split; [reflexivity|]. split; [reflexivity|]. now apply upsert_on_conflict.
  - right. rewrite (upsert_insert _ _ _ _ Hf Hk).
    destruct (existsb (fun r => String.eqb (id r) (models.ID c)) (rows st)) eqn:Hi.
    + left. repeat split; reflexivity.
    + right. repeat split; reflexivity.
Qed.

Lemma key_unique_after_upsert (c : models.Chunk) (vec : slice float32) (h : string)
    (st : Pg) :
  schema.key_unique st -> schema.key_unique (snd (Store.UpsertChunk c vec h st)).
Proof.
  unfold schema.key_unique. intros Hku.
  destruct (upsert_cases c vec h st)
    as [[_ ->]|[(_ & _ & ->)|[(_ & _ & _ & ->)|(_ & Hk & _ & ->)]]];
    cbn [snd tick rows]; try exact Hku.
  - rewrite map_map. erewrite map_ext; [exact Hku|].
    intros r. apply key_of_merged.
  - rewrite map_app. cbn [map]. apply NoDup_app_one; [exact Hku|].
    intros Hin. apply in_map_iff in Hin as [r [E Hin]].
    pose proof (proj1 (existsb_false_forall _ _) Hk r Hin) as N.
    assert (T : same_key c r = true) by (apply same_key_key_of; exact E).
    congruence.
Qed.

Lemma pk_unique_after_upsert (c : models.Chunk) (vec : slice float32) (h : string)
    (st : Pg) :
  invariants.pk_unique st -> invariants.pk_unique (snd (Store.UpsertChunk c vec h st)).
Proof.
  unfold invariants.pk_unique. intros Hpk.
  destruct (upsert_cases c vec h st)
    as [[_ ->]|[(_ & _ & ->)|[(_ & _ & _ & ->)|(_ & _ & Hi & ->)]]];
    cbn [snd tick rows]; try exact Hpk.
  - rewrite map_map. erewrite map_ext; [exact Hpk|].
    intros r. apply id_merged.
  - rewrite map_app. cbn [map excluded id]. apply NoDup_app_one; [exact Hpk|].
    intros Hin. apply in_map_iff in Hin as [r [E Hin]].
    pose proof (proj1 (existsb_false_forall _ _) Hi r Hin) as N.
    cbv beta in N. rewrite E, String.eqb_refl in N. discriminate.
Qed.

End MoreUpsertFacts.

(** X6.  [UpsertChunk] keeps the two uniqueness constraints of the table,
    the primary key on [id] and the unique index on the five key columns,
    whatever chunk it is given and whether it succeeds or fails. *)
Theorem upsert_keeps_constraints :
  forall (c : models.Chunk) (summaryVec : slice float32) (contentHash : string)
         (st : store.Pg),
    invariants.pk_unique st ->
    schema.key_unique st ->
    invariants.pk_unique (snd (store.Store.UpsertChunk c summaryVec contentHash st))
    /\ schema.key_unique (snd (store.Store.UpsertChunk c summaryVec contentHash st)).
Proof.
  intros c vec h st Hpk Hku. split.
  - now apply pk_unique_after_upsert.
  - now apply key_unique_after_upsert.
Qed.

Lemma upsert_keeps_constraints_witness :
  invariants.pk_unique fixtures.old_table
  /\ schema.key_unique fixtures.old_table
  /\ invariants.pk_unique
       (snd (store.Store.UpsertChunk (fixtures.a_chunk "x" "main" "lib.go")
                                     (Some [0%Q; 1%Q; 0%Q]) "h" fixtures.old_table))
  /\ schema.key_unique
       (snd (store.Store.UpsertChunk (fixtures.a_chunk "x" "main" "lib.go")
                                     (Some [0%Q; 1%Q; 0%Q]) "h" fixtures.old_table)).
Proof.
  assert (Hpk : invariants.pk_unique fixtures.old_table).
  { repeat constructor. intros []. }
  assert (Hku : schema.key_unique fixtures.old_table).
  { repeat constructor. intros []. }
  split; [exact Hpk|]. split; [exact Hku|].
  exact (upsert_keeps_constraints (fixtures.a_chunk "x" "main" "lib.go")
           (Some [0%Q; 1%Q; 0%Q]) "h" fixtures.old_table Hpk Hku).
Defined.



(** X8.  Insert, then look up.  After a successful [UpsertChunk], when the
    rows under the chunk's repository, path and span all have its ref,
    [GetChunkMeta] finds a row with the hash just written; its summary is
    the chunk's, or the one found before when the chunk's is empty; it has
    a vector when one was given or one was found before. *)
Theorem upsert_then_lookup :
  forall (c : models.Chunk) (summaryVec : slice float32) (contentHash : string)
         (st : store.Pg),
    fst (store.Store.UpsertChunk c summaryVec contentHash st) = None ->
    (forall r : store.Row,
        In r (store.rows st) ->
        store.meta_match (models.Repository c) (models.Path c)
                         (models.LineStart c) (models.LineEnd c) r = true ->
        store.ref r = models.Ref c) ->
    store.Store.GetChunkMeta (models.Repository c) (models.Path c)
                             (models.LineStart c) (models.LineEnd c)
                             (snd (store.Store.UpsertChunk c summaryVec contentHash st))
    = ({| store.ContentHash := contentHash;
          store.Summary :=
            if String.eqb (models.Summary c) ""
            then store.Summary
                   (fst (fst (store.Store.GetChunkMeta
                                (models.Repository c) (models.Path c)
                                (models.LineStart c) (models.LineEnd c) st)))
            else models.Summary c;
          store.HasSummaryVec :=
            match summaryVec with
            | Some _ => true
            | None =>
                store.HasSummaryVec
                  (fst (fst (store.Store.GetChunkMeta
                               (models.Repository c) (models.Path c)
                               (models.LineStart c) (models.LineEnd c) st)))
            end |},
       true, None).
Proof.
  intros c vec h st Hok Href.
  assert (Hsame : forall r, In r (store.rows st) ->
            store.meta_match (models.Repository c) (models.Path c)
                             (models.LineStart c) (models.LineEnd c) r = true ->
            store.same_key c r = true).
  { intros r Hin Hm. pose proof (Href r Hin Hm) as Hr.
    apply meta_match_true in Hm as (M1 & M2 & M3 & M4).
    apply same_key_true. repeat split; assumption. }
  destruct (upsert_cases c vec h st)
    as [[_ E]|[(_ & Hk & E)|[(_ & _ & _ & E)|(_ & Hk & _ & E)]]];
    rewrite E in Hok |- *; cbn [fst snd] in Hok |- *; try discriminate.
  - unfold store.Store.GetChunkMeta. cbn [store.tick store.rows].
    rewrite find_map_stable by (intros; apply meta_match_merged).
    apply existsb_exists in Hk as (r1 & Hin1 & Hk1).
    pose proof (same_key_meta_match _ _ Hk1) as Hm1.
    destruct (find _ (store.rows st)) as [r|] eqn:Hfind.
    2:{ pose proof (find_none _ _ Hfind r1 Hin1) as N. congruence. }
    pose proof (find_some _ _ Hfind) as [Hin Hm].
    cbn [option_map]. rewrite (Hsame r Hin Hm).
    cbn [store.do_update store.excluded store.content_hash store.summary
         store.summary_vec store.ContentHash store.Summary store.HasSummaryVec fst].
    unfold store.COALESCE, store.NULLIF, store.COALESCE_null.
    destruct (String.eqb (models.Summary c) ""), vec; reflexivity.
  - unfold store.Store.GetChunkMeta. cbn [store.tick store.rows].
    assert (Hnone : find (store.meta_match (models.Repository c) (models.Path c)
                                           (models.LineStart c) (models.LineEnd c))
                         (store.rows st) = None).
    { destruct (find _ (store.rows st)) as [r|] eqn:Hfind; [exfalso|reflexivity].
      pose proof (find_some _ _ Hfind) as [Hin Hm].
      pose proof (proj1 (existsb_false_forall _ _) Hk r Hin) as N.
      rewrite (Hsame r Hin Hm) in N. discriminate. }
    rewrite find_app_first, Hnone. cbn [find].
    assert (Hnew : store.meta_match (models.Repository c) (models.Path c)
                                    (models.LineStart c) (models.LineEnd c)
                                    (store.excluded c vec h (store.clock st)) = true).
    { apply meta_match_true. cbn. tauto. }
    rewrite Hnew.
    cbn [store.excluded store.content_hash store.summary store.summary_vec
         store.no_meta store.ContentHash store.Summary store.HasSummaryVec fst
         store.COALESCE].
    destruct (String.eqb_spec (models.Summary c) "") as [->|_], vec; reflexivity.
Qed.

Lemma upsert_then_lookup_witness :
  store.Store.GetChunkMeta "x" "lib.go" 1 1
    (snd (store.Store.UpsertChunk (fixtures.a_chunk "x" "main" "lib.go")
                                  (Some [0%Q; 1%Q; 0%Q]) "h" fixtures.old_table))
  = ({| store.ContentHash := "h"; store.Summary := ""; store.HasSummaryVec := true |},
     true, None).
Proof.
  refine (upsert_then_lookup (fixtures.a_chunk "x" "main" "lib.go")
            (Some [0%Q; 1%Q; 0%Q]) "h" fixtures.old_table _ _).
  - vm_compute. reflexivity.
  - intros r [<-|[]] H. reflexivity.
Defined.

(** X9.  A run over an unchanged file sends the stored row again, without
    a vector.  That upsert succeeds and rewrites the row as it was, but for
    [summarized_at]: when the summary is not empty it becomes the time of
    the statement, although nothing was summarized. *)
Theorem upsert_again_touches_summarized_at :
  forall (c : models.Chunk) (contentHash : string) (st : store.Pg) (n : nat)
         (r : store.Row),
    nth_error (store.rows st) n = Some r ->
    store.same_key c r = true ->
    models.Language c = store.language r ->
    models.Content c = store.content r ->
    models.Summary c = store.summary r ->
    contentHash = store.content_hash r ->
    fst (store.Store.UpsertChunk c None contentHash st) = None
    /\ nth_error (store.rows (snd (store.Store.UpsertChunk c None contentHash st))) n
       = Some (props.summarized r
                 (if String.eqb (store.summary r) "" then store.summarized_at r
                  else Some (store.clock st))).
Proof.
  intros c h st n r Hn Hk Hl Hc Hs Hh.
  assert (Hex : existsb (store.same_key c) (store.rows st) = true).
  { apply existsb_exists. exists r. split; [|exact Hk].
    eapply nth_error_In. exact Hn. }
  rewrite (upsert_on_conflict c None h st eq_refl Hex).
  cbn [fst snd store.tick store.rows]. split; [reflexivity|].
  rewrite nth_error_map, Hn. cbn [option_map]. rewrite Hk.
  unfold store.do_update, store.excluded, props.summarized.
  cbn [store.language store.summary store.content store.summary_vec
       store.content_hash store.summarized_at].
  rewrite Hl, Hc, Hs, Hh.
  unfold store.COALESCE, store.NULLIF, store.COALESCE_null.
  destruct (String.eqb (store.summary r) ""); reflexivity.
Qed.

Lemma upsert_again_touches_summarized_at_witness :
  fst (store.Store.UpsertChunk samples.old_chunk None
                               (indexer.hashContent "package old") fixtures.old_table)
  = None
  /\ nth_error
       (store.rows (snd (store.Store.UpsertChunk samples.old_chunk None
                           (indexer.hashContent "package old") fixtures.old_table))) 0
     = Some (props.summarized fixtures.old_row (Some 7)).
Proof.
  exact (upsert_again_touches_summarized_at samples.old_chunk
           (indexer.hashContent "package old") fixtures.old_table 0 fixtures.old_row
           eq_refl eq_refl eq_refl eq_refl eq_refl eq_refl).
Defined.

(* ================================================================== *)
(** * The ranking, as a list *)

Section RankingFacts.
Import store.

Lemma length_insert_desc (x : Cand * Q) (l : list (Cand * Q)) :
  List.length (insert_desc x l) = S (List.length l).
Proof.
  induction l as [|y l IH]; [reflexivity|].
  cbn [insert_desc]. destruct (Qle_bool (snd y) (snd x)); cbn [List.length]; [reflexivity|].
  now rewrite IH.
Qed.

Lemma length_order_desc (l : list (Cand * Q)) :
  List.length (order_desc l) = List.length l.
Proof.
  induction l as [|x l IH]; [reflexivity|].
  cbn [order_desc fold_right]. fold (order_desc l).
  now rewrite length_insert_desc, IH.
Qed.

Lemma descending_insert_desc (x : Cand * Q) (l : list (Cand * Q)) :
  props.descending (map snd l) -> props.descending (map snd (insert_desc x l)).
Proof.
  induction l as [|y l IH]; intros Hl.
  - cbn. split; [constructor|exact I].
  - cbn [insert_desc]. cbn [map props.descending] in Hl. destruct Hl as [Hy Hl].
    destruct (Qle_bool (snd y) (snd x)) eqn:E.
    + apply Qle_bool_iff in E. cbn [map props.descending].
      split; [|split; assumption].
      constructor; [exact E|].
      eapply Forall_impl; [|exact Hy]. intros q Hq. cbv beta in Hq.
      now apply Qle_trans with (snd y).
    + assert (Hxy : (snd x <= snd y)%Q).
      { destruct (Qlt_le_dec (snd x) (snd y)) as [H|H]; [now apply Qlt_le_weak|].
        apply Qle_bool_iff in H. congruence. }
      cbn [map props.descending]. split; [|now apply IH].
      apply Forall_forall. intros q Hq.
      apply in_map_iff in Hq as [z [<- Hz]].
      apply in_insert_desc in Hz as [->|Hz]; [exact Hxy|].
      apply (proj1 (Forall_forall _ _) Hy). now apply in_map.
Qed.

Lemma descending_order_desc (l : list (Cand * Q)) :
  props.descending (map snd (order_desc l)).
Proof.
  induction l as [|x l IH]; [exact I|].
  cbn [order_desc fold_right]. fold (order_desc l).
  now apply descending_insert_desc.
Qed.

Lemma descending_firstn (n : nat) (l : list Q) :
  props.descending l -> props.descending (firstn n l).
Proof.
  revert l. induction n as [|n IH]; intros [|x l] H; cbn [firstn props.descending];
    try exact I.
  destruct H as [Hx Hl]. split; [|now apply IH].
  apply Forall_forall. intros q Hq. apply in_firstn in Hq.
  now apply (proj1 (Forall_forall _ _) Hx).
Qed.

Lemma numbers_to_result (l : list (Cand * Q)) :
  props.numbers (map to_result l) = Some (map snd l).
Proof.
  induction l as [|x l IH]; [reflexivity|].
  cbn [map props.numbers to_result models.Score]. now rewrite IH.
Qed.

Lemma ranking_query_inr (eng : Engine) (sv : list float32) (qtext longest : string)
    (asked : bool) (opt : QueryOpts) (k : Z) (st : Pg) (out : list (Cand * Q)) :
  ranking_query eng sv qtext longest asked opt k st = inr out ->
  out = firstn (Z.to_nat k)
               (order_desc (scored (map (cand eng sv qtext longest asked)
                                        (filter (where_ opt) (rows st))))).
Proof.
  unfold ranking_query.
  destruct (negb (vector_in eng sv)); [discriminate|].
  destruct (k <? 0)%Z; [discriminate|].
  destruct (existsb _ _); [discriminate|].
  intros E. now inversion E.
Qed.

Lemma elements_grown (rs : list (Cand * Q)) :
  listing.elements (match rs with
                    | [] => None
                    | _ => Some (map to_result rs)
                    end)
  = map to_result rs.
Proof. destruct rs; reflexivity. Qed.

End RankingFacts.


(** X11.  A query of white space alone is answered with the empty,
    non-nil slice and no error, whatever [k], the filters and the table
    are, and although the embedder is asked and may have failed. *)
Theorem Query_blank_query :
  forall (eng : store.Engine) (client : ai.Client) (q : string) (k : Z)
         (opt : store.QueryOpts) (st : store.Pg) (answer : slice float32 * error),
    strings.TrimSpace q = "" ->
    ai.Embed client "" = Some answer ->
    search.Query (search.NewService client (store.PgStore eng)) q k opt st
    = Some (Some [], None).
Proof.
  intros eng client q k opt st [head e] Hq He.
  unfold search.Query. cbn [search.NewService search.Client search.Store].
  rewrite Hq, He.
  cbn [store.Search store.PgStore]. unfold store.Store.Search.
  cbn [search.with_QueryText store.QueryText].
  change (strings.TrimSpace "") with "".
  cbn [String.eqb]. reflexivity.
Qed.

Lemma Query_blank_query_witness :
  search.Query (search.NewService fixtures.no_embed_client
                  (store.PgStore (fixtures.flat_engine (Fin 0) 0 0)))
               "   " (-1) (fixtures.no_opts "") fixtures.old_table
  = Some (Some [], None).
Proof.
  exact (Query_blank_query (fixtures.flat_engine (Fin 0) 0 0) fixtures.no_embed_client
           "   " (-1) (fixtures.no_opts "") fixtures.old_table _ eq_refl eq_refl).
Defined.

(* ================================================================== *)
(** * The query text: the script nudge and the trigram token *)

Section QueryTextFacts.
Import strings store.

Lemma asked_word (w a b : string) :
  In w ["script"; "bash"; "shell"; "code"; "program"; "python"; "cli"] ->
  askedForScript (a ++ w ++ b) = true.
Proof.
  intros Hw. unfold askedForScript.
  assert (Hlow : ToLower w = w).
  { repeat (destruct Hw as [<-|Hw]; [reflexivity|]). destruct Hw. }
  rewrite !ToLower_app, Hlow.
  pose proof (Contains_app (ToLower a) w (ToLower b)) as Hc.
  repeat (destruct Hw as [<-|Hw];
          [rewrite Hc; rewrite ?orb_true_r; reflexivity|]).
  destruct Hw.
Qed.

Lemma lower_byte_lower (c : ascii) :
  is_token_byte (lower_byte c) = props.is_lower_token_byte (lower_byte c).
Proof. destruct c as [[] [] [] [] [] [] [] []]; vm_compute; reflexivity. Qed.

Lemma list_ascii_app (a b : string) :
  list_ascii_of_string (a ++ b)%string
  = list_ascii_of_string a ++ list_ascii_of_string b.
Proof. induction a as [|c a IH]; [reflexivity|]. cbn. now rewrite IH. Qed.

Lemma bytes_all_app (p : ascii -> bool) (a b : string) :
  props.bytes_all p (a ++ b)%string = props.bytes_all p a && props.bytes_all p b.
Proof. unfold props.bytes_all. now rewrite list_ascii_app, forallb_app. Qed.

Lemma tokens_bytes (p : ascii -> bool) (s : string) :
  forall cur : string,
    props.bytes_all p cur = true ->
    Forall (fun c => is_token_byte c = true -> p c = true) (list_ascii_of_string s) ->
    Forall (fun t => props.bytes_all p t = true) (tokens s cur).
Proof.
  induction s as [|c s IH]; intros cur Hcur Hs; cbn [tokens].
  - unfold flush. destruct (String.eqb cur ""); constructor; [exact Hcur|constructor].
  - cbn [list_ascii_of_string] in Hs. inversion Hs as [|? ? Hc Hs']; subst.
    destruct (is_token_byte c) eqn:Ec.
    + apply IH; [|exact Hs'].
      rewrite bytes_all_app, Hcur. unfold props.bytes_all. cbn. now rewrite (Hc eq_refl).
    + apply Forall_app. split.
      * unfold flush. destruct (String.eqb cur ""); constructor; [exact Hcur|constructor].
      * apply IH; [reflexivity|exact Hs'].
Qed.

Lemma ToLower_bytes (s : string) :
  Forall (fun c => is_token_byte c = true -> props.is_lower_token_byte c = true)
         (list_ascii_of_string (ToLower s)).
Proof.
  induction s as [|c s IH]; [constructor|].
  cbn [ToLower list_ascii_of_string]. constructor; [|exact IH].
  now rewrite lower_byte_lower.
Qed.

Lemma fold_pick (l : list string) :
  forall init : string,
    (fold_left props.pick l init = init \/ In (fold_left props.pick l init) l)
    /\ len init <= len (fold_left props.pick l init)
    /\ Forall (fun t => len t <= len (fold_left props.pick l init)) l.
Proof.
  induction l as [|t l IH]; intros init; cbn [fold_left].
  - split; [now left|]. split; [lia|constructor].
  - destruct (IH (props.pick init t)) as (Hin & Hge & Hall).
    assert (Hp : len init <= len (props.pick init t) /\ len t <= len (props.pick init t)).
    { unfold props.pick. destruct (Z.gtb_spec (len t) (len init)); lia. }
    split; [|split].
    + destruct Hin as [E|Hin]; [|right; now right].
      rewrite E. unfold props.pick. destruct (len t >? len init); [right; now left|now left].
    + lia.
    + constructor; [lia|exact Hall].
Qed.

End QueryTextFacts.

(** X12.  [askedForScript] holds for every text that has one of seven
    words as a substring, in any casing and inside longer words; the tests
    for the two plurals add nothing. *)
Theorem askedForScript_substrings :
  Forall (fun w => forall a b : string, store.askedForScript (a ++ w ++ b) = true)
         ["script"; "bash"; "shell"; "code"; "program"; "python"; "cli"]
  /\ (forall q : string,
         store.askedForScript q
         = (strings.Contains (strings.ToLower q) "script"
            || strings.Contains (strings.ToLower q) "bash"
            || strings.Contains (strings.ToLower q) "shell"
            || strings.Contains (strings.ToLower q) "code"
            || strings.Contains (strings.ToLower q) "program"
            || strings.Contains (strings.ToLower q) "python"
            || strings.Contains (strings.ToLower q) "cli"))
  /\ forall q : string, store.askedForScript (strings.ToLower q) = store.askedForScript q.
Proof.
  split; [|split].
  - apply Forall_forall. intros w Hw a b. now apply asked_word.
  - intros q. unfold store.askedForScript.
    pose proof (Contains_of_app (strings.ToLower q) "script" "s") as H1.
    pose proof (Contains_of_app (strings.ToLower q) "program" "s") as H2.
    change ("script" ++ "s")%string with "scripts" in H1.
    change ("program" ++ "s")%string with "programs" in H2.
    destruct (strings.Contains (strings.ToLower q) "scripts");
      [rewrite (H1 eq_refl); reflexivity|].
    destruct (strings.Contains (strings.ToLower q) "programs");
      [rewrite (H2 eq_refl)|];
      destruct (strings.Contains (strings.ToLower q) "script"),
               (strings.Contains (strings.ToLower q) "bash"),
               (strings.Contains (strings.ToLower q) "shell"),
               (strings.Contains (strings.ToLower q) "code"),
               (strings.Contains (strings.ToLower q) "program");
      try discriminate; reflexivity.
  - intros q. unfold store.askedForScript. now rewrite ToLower_idem.
Qed.

(** X13.  [longestToken] returns a token of the lower-cased text that no
    other token exceeds in length, or the empty string when the text has
    no token; it is made of [a-z], [0-9], [.], [_] and [-] alone. *)
Theorem longestToken_is_longest :
  forall s : string,
    (store.longestToken s = ""
     \/ In (store.longestToken s) (store.tokens (strings.ToLower s) ""))
    /\ Forall (fun t => strings.len t <= strings.len (store.longestToken s))
              (store.tokens (strings.ToLower s) "")
    /\ props.bytes_all props.is_lower_token_byte (store.longestToken s) = true.
Proof.
  intros s. unfold store.longestToken. fold props.pick.
  destruct (fold_pick (store.tokens (strings.ToLower s) "") "") as (Hin & _ & Hall).
  split; [exact Hin|]. split; [exact Hall|].
  destruct Hin as [->|Hin]; [reflexivity|].
  pose proof (tokens_bytes props.is_lower_token_byte (strings.ToLower s) ""
                eq_refl (ToLower_bytes s)) as Hb.
  exact (proj1 (Forall_forall _ _) Hb _ Hin).
Qed.

(* ================================================================== *)
(** * The noise penalty on whole segments *)

Section NoiseFacts.
Import strings store.

Lemma noise_scan_here (t : string) : noise_here t = true -> noise_scan true t = true.
Proof. intros H. destruct t; cbn [noise_scan]; rewrite H; reflexivity. Qed.

Lemma noise_scan_after (x t : string) :
  noise_here t = true ->
  forall at_start : bool, noise_scan at_start (x ++ String "/" t)%string = true.
Proof.
  intros Ht. induction x as [|c x IH]; intros at_start.
  - cbn [String.append noise_scan]. change (Ascii.eqb "/" "/") with true.
    rewrite (noise_scan_here t Ht). apply orb_true_r.
  - cbn [String.append noise_scan]. rewrite IH. apply orb_true_r.
Qed.

Lemma noise_here_word (w tail : string) :
  In w noise_words -> noise_tail tail = true -> noise_here (w ++ tail)%string = true.
Proof.
  intros Hw Ht. unfold noise_here. apply existsb_exists. exists w.
  split; [exact Hw|]. now rewrite prefix_app, drop_app.
Qed.

Lemma Contains_slash (c : ascii) (r : string) :
  Contains (String c r) "/" = Ascii.eqb c "/" || Contains r "/".
Proof.
  cbn [Contains String.prefix].
  destruct (Ascii.eqb_spec c "/") as [->|N].
  - destruct (ascii_dec "/" "/") as [_|N]; [|congruence]. now destruct r.
  - destruct (ascii_dec "/" c) as [E|_]; [congruence|reflexivity].
Qed.

Lemma Contains_slash_app (a b : string) :
  Contains (a ++ b)%string "/" = Contains a "/" || Contains b "/".
Proof.
  induction a as [|c a IH].
  - cbn [String.append]. now destruct b.
  - cbn [String.append]. rewrite !Contains_slash, IH. now rewrite orb_assoc.
Qed.

Lemma Contains_slash_ToLower (s : string) :
  Contains (ToLower s) "/" = Contains s "/".
Proof.
  induction s as [|c s IH]; [reflexivity|].
  cbn [ToLower]. rewrite !Contains_slash, IH.
  now destruct (lower_byte_dot_slash c) as [_ ->].
Qed.

Lemma noise_scan_no_slash (s : string) :
  Contains s "/" = false ->
  forall at_start : bool, noise_scan at_start s = at_start && noise_here s.
Proof.
  induction s as [|c s IH]; intros Hs at_start.
  - cbn [noise_scan]. apply orb_false_r.
  - rewrite Contains_slash in Hs. apply orb_false_iff in Hs as [Hc Hs].
    cbn [noise_scan]. rewrite Hc, (IH Hs false). cbn [andb]. apply orb_false_r.
Qed.

Lemma noise_here_dotted (w name : string) :
  In w noise_words -> noise_here (w ++ String "." name)%string = false.
Proof.
  intros Hw. unfold noise_here.
  repeat (destruct Hw as [<-|Hw]; [reflexivity|]). destruct Hw.
Qed.

End NoiseFacts.

(** X14.  The noise penalty is 1 for every path that has one of the eight
    names as a whole segment, at the start, in the middle or at the end,
    and it does not look at the casing. *)
Theorem noise_penalty_on_segments :
  Forall (fun w => forall dir rest : string,
            store.noise_penalty_of (dir ++ "/" ++ w ++ "/" ++ rest) = 1
            /\ store.noise_penalty_of (dir ++ "/" ++ w) = 1
            /\ store.noise_penalty_of (w ++ "/" ++ rest) = 1
            /\ store.noise_penalty_of w = 1)
         store.noise_words
  /\ forall p : string,
      store.noise_penalty_of (strings.ToLower p) = store.noise_penalty_of p.
Proof.
  split.
  - apply Forall_forall. intros w Hw dir rest.
    assert (Hlow : strings.ToLower w = w).
    { repeat (destruct Hw as [<-|Hw]; [reflexivity|]). destruct Hw. }
    assert (Hend : store.noise_here w = true).
    { apply existsb_exists. exists w. split; [exact Hw|].
      rewrite prefix_refl. replace (strings.drop (String.length w) w) with "".
      - reflexivity.
      - clear. induction w as [|c w IH]; [reflexivity|exact IH]. }
    assert (Hmid : forall t, store.noise_here (w ++ String "/" t) = true).
    { intros t. now apply noise_here_word. }
    unfold store.noise_penalty_of.
    rewrite !ToLower_app, Hlow.
    change (strings.ToLower "/") with "/".
    change ("/" ++ w ++ "/" ++ strings.ToLower rest)%string
      with (String "/" (w ++ String "/" (strings.ToLower rest)))%string.
    change ("/" ++ w)%string with (String "/" w).
    change ("/" ++ strings.ToLower rest)%string with (String "/" (strings.ToLower rest)).
    rewrite (noise_scan_after (strings.ToLower dir) _ (Hmid (strings.ToLower rest)) true).
    rewrite (noise_scan_after (strings.ToLower dir) _ Hend true).
    rewrite (noise_scan_here _ (Hmid (strings.ToLower rest))).
    rewrite (noise_scan_here _ Hend).
    repeat split.
  - intros p. unfold store.noise_penalty_of. now rewrite ToLower_idem.
Qed.

(** X15.  A file named after one of the eight names, as in [test.go] or
    [example.py], is not penalized: after the name the pattern wants a
    slash, a backslash or the end of the path, and a dot is none of them. *)
Theorem noise_penalty_misses_dotted_names :
  forall w name : string,
    In w store.noise_words ->
    strings.Contains name "/" = false ->
    store.noise_penalty_of (w ++ "." ++ name) = 0.
Proof.
  intros w name Hw Hname. unfold store.noise_penalty_of.
  assert (Hlow : strings.ToLower w = w).
  { repeat (destruct Hw as [<-|Hw]; [reflexivity|]). destruct Hw. }
  rewrite !ToLower_app, Hlow.
  change (strings.ToLower ".") with ".".
  change ("." ++ strings.ToLower name)%string with (String "." (strings.ToLower name)).
  rewrite noise_scan_no_slash.
  - now rewrite noise_here_dotted.
  - rewrite Contains_slash_app, Contains_slash, Contains_slash_ToLower, Hname.
    repeat (destruct Hw as [<-|Hw]; [reflexivity|]). destruct Hw.
Qed.

Lemma noise_penalty_misses_dotted_names_witness :
  store.noise_penalty_of ("test" ++ "." ++ "go") = 0.
Proof.
  exact (noise_penalty_misses_dotted_names "test" "go"
           (or_intror (or_intror (or_introl eq_refl))) eq_refl).
Defined.

(* ================================================================== *)
(** * The listings *)

Section ListingFacts.
Import listing.
Variable text_le : string -> string -> bool.

Lemma existsb_eqb_In (x : string) (l : list string) :
  existsb (String.eqb x) l = true <-> In x l.
Proof.
  rewrite existsb_exists. split.
  - intros (y & Hy & E). apply String.eqb_eq in E. now subst.
  - intros H. exists x. split; [exact H|apply String.eqb_refl].
Qed.

Lemma in_distinct (x : string) (l : list string) : In x (distinct l) <-> In x l.
Proof.
  induction l as [|y l IH]; [reflexivity|].
  cbn [distinct]. destruct (existsb (String.eqb y) l) eqn:E.
  - rewrite IH. cbn [In]. split; [now right|].
    intros [<-|H]; [now apply existsb_eqb_In|exact H].
  - cbn [In]. now rewrite IH.
Qed.

Lemma NoDup_distinct (l : list string) : NoDup (distinct l).
Proof.
  induction l as [|y l IH]; [constructor|].
  cbn [distinct]. destruct (existsb (String.eqb y) l) eqn:E; [exact IH|].
  constructor; [|exact IH].
  rewrite in_distinct, <- existsb_eqb_In, E. discriminate.
Qed.

Lemma in_insert_asc (x y : string) (l : list string) :
  In y (insert_asc text_le x l) <-> y = x \/ In y l.
Proof.
  induction l as [|z l IH]; cbn [insert_asc In].
  - intuition congruence.
  - destruct (text_le x z); cbn [In]; [intuition congruence|].
    rewrite IH. intuition congruence.
Qed.

Lemma in_order_asc (y : string) (l : list string) :
  In y (order_asc text_le l) <-> In y l.
Proof.
  induction l as [|x l IH]; [reflexivity|].
  cbn [order_asc fold_right]. fold (order_asc text_le l).
  rewrite in_insert_asc, IH. cbn [In]. intuition congruence.
Qed.

Lemma NoDup_insert_asc (x : string) (l : list string) :
  ~ In x l -> NoDup l -> NoDup (insert_asc text_le x l).
Proof.
  induction l as [|z l IH]; intros Hx Hl; cbn [insert_asc].
  - constructor; [intros []|constructor].
  - destruct (text_le x z); [now constructor|].
    inversion Hl as [|? ? Hz Hl']; subst. constructor.
    + rewrite in_insert_asc. intros [->|H]; [apply Hx; now left|contradiction].
    + apply IH; [|exact Hl']. intros H. apply Hx. now right.
Qed.

Lemma NoDup_order_asc (l : list string) : NoDup l -> NoDup (order_asc text_le l).
Proof.
  induction l as [|x l IH]; intros Hl; [constructor|].
  inversion Hl as [|? ? Hx Hl']; subst.
  cbn [order_asc fold_right]. fold (order_asc text_le l).
  apply NoDup_insert_asc; [now rewrite in_order_asc|now apply IH].
Qed.

Lemma elements_collect (l : list string) : elements (collect l) = l.
Proof. now destruct l. Qed.

Lemma collect_nil (l : list string) : collect l = None <-> l = [].
Proof. destruct l; cbn; split; intros H; congruence. Qed.

Lemma order_asc_nil (l : list string) : order_asc text_le l = [] <-> l = [].
Proof.
  split; [|now intros ->].
  destruct l as [|x l]; [reflexivity|]. intros H. exfalso.
  assert (Hin : In x (order_asc text_le (x :: l))) by (apply in_order_asc; now left).
  rewrite H in Hin. destruct Hin.
Qed.

Lemma distinct_nil (l : list string) : distinct l = [] <-> l = [].
Proof.
  split; [|now intros ->].
  destruct l as [|x l]; [reflexivity|]. intros H. exfalso.
  assert (Hin : In x (distinct (x :: l))) by (apply in_distinct; now left).
  rewrite H in Hin. destruct Hin.
Qed.

Hypothesis total : forall a b : string, text_le a b = true \/ text_le b a = true.
Hypothesis trans :
  forall a b c : string, text_le a b = true -> text_le b c = true -> text_le a c = true.

Lemma ascending_insert_asc (x : string) (l : list string) :
  ascending text_le l -> ascending text_le (insert_asc text_le x l).
Proof.
  induction l as [|z l IH]; intros Hl; cbn [insert_asc].
  - split; [constructor|exact I].
  - cbn [ascending] in Hl. destruct Hl as [Hz Hl].
    destruct (text_le x z) eqn:E.
    + cbn [ascending]. split; [|split; assumption].
      constructor; [exact E|].
      eapply Forall_impl; [|exact Hz]. intros y Hy. cbv beta in Hy.
      now apply trans with z.
    + assert (Hzx : text_le z x = true).
      { destruct (total x z) as [H|H]; [congruence|exact H]. }
      cbn [ascending]. split; [|now apply IH].
      apply Forall_forall. intros y Hy.
      apply in_insert_asc in Hy as [->|Hy]; [exact Hzx|].
      now apply (proj1 (Forall_forall _ _) Hz).
Qed.

Lemma ascending_order_asc (l : list string) : ascending text_le (order_asc text_le l).
Proof.
  induction l as [|x l IH]; [exact I|].
  cbn [order_asc fold_right]. fold (order_asc text_le l).
  now apply ascending_insert_asc.
Qed.

End ListingFacts.

(** X16.  [GetRepositories] lists every repository that has a row, once,
    and nothing else; [GetRefs] does the same for the refs of the rows of
    one repository.  Neither fails, and each returns the [nil] slice
    exactly when there is nothing to list. *)
Theorem listings_are_complete_and_distinct :
  forall (text_le : string -> string -> bool) (repo : string) (st : store.Pg),
    (snd (listing.GetRepositories text_le st) = None
     /\ NoDup (listing.elements (fst (listing.GetRepositories text_le st)))
     /\ (forall x : string,
            In x (listing.elements (fst (listing.GetRepositories text_le st)))
            <-> exists r : store.Row, In r (store.rows st) /\ store.repository r = x)
     /\ (fst (listing.GetRepositories text_le st) = None <-> store.rows st = []))
    /\ (snd (listing.GetRefs text_le repo st) = None
        /\ NoDup (listing.elements (fst (listing.GetRefs text_le repo st)))
        /\ (forall x : string,
               In x (listing.elements (fst (listing.GetRefs text_le repo st)))
               <-> exists r : store.Row,
                     In r (store.rows st)
                     /\ store.repository r = repo /\ store.ref r = x)
        /\ (fst (listing.GetRefs text_le repo st) = None
            <-> forall r : store.Row, In r (store.rows st) -> store.repository r <> repo)).
Proof.
  intros text_le repo st. unfold listing.GetRepositories, listing.GetRefs.
  cbn [fst snd]. rewrite !elements_collect. split.
  - split; [reflexivity|]. split; [apply NoDup_order_asc, NoDup_distinct|]. split.
    + intros x. rewrite in_order_asc, in_distinct, in_map_iff.
      split; intros (r & H1 & H2); exists r; now split.
    + rewrite collect_nil, order_asc_nil, distinct_nil. split.
      * intros H. now apply map_eq_nil in H.
      * now intros ->.
  - split; [reflexivity|]. split; [apply NoDup_order_asc, NoDup_distinct|]. split.
    + intros x. rewrite in_order_asc, in_distinct, in_map_iff. split.
      * intros (r & H1 & H2). apply filter_In in H2 as [H2 H3].
        apply String.eqb_eq in H3. exists r. now repeat split.
      * intros (r & H1 & H2 & H3). exists r. split; [exact H3|].
        apply filter_In. split; [exact H1|]. now apply String.eqb_eq.
    + rewrite collect_nil, order_asc_nil, distinct_nil. split.
      * intros H r Hr E. apply map_eq_nil in H.
        assert (Hin : In r (filter (fun r0 => String.eqb (store.repository r0) repo)
                                   (store.rows st))).
        { apply filter_In. split; [exact Hr|]. now apply String.eqb_eq. }
        rewrite H in Hin. destruct Hin.
      * intros H.
        destruct (filter _ (store.rows st)) as [|r l] eqn:E; [reflexivity|exfalso].
        assert (Hin : In r (filter (fun r0 => String.eqb (store.repository r0) repo)
                                   (store.rows st))) by (rewrite E; now left).
        apply filter_In in Hin as [Hr Hm]. apply String.eqb_eq in Hm.
        exact (H r Hr Hm).
Qed.

(** X17.  Both listings come in the order of the collation, when that is
    a total preorder. *)
Theorem listings_are_sorted :
  forall (text_le : string -> string -> bool) (repo : string) (st : store.Pg),
    (forall a b : string, text_le a b = true \/ text_le b a = true) ->
    (forall a b c : string,
        text_le a b = true -> text_le b c = true -> text_le a c = true) ->
    listing.ascending text_le
      (listing.elements (fst (listing.GetRepositories text_le st)))
    /\ listing.ascending text_le
         (listing.elements (fst (listing.GetRefs text_le repo st))).
Proof.
  intros text_le repo st total trans. unfold listing.GetRepositories, listing.GetRefs.
  cbn [fst]. rewrite !elements_collect.
  split; now apply ascending_order_asc.
Qed.

Lemma listings_are_sorted_witness :
  listing.ascending samples.by_length
    (listing.elements (fst (listing.GetRepositories samples.by_length fixtures.old_table)))
  /\ listing.ascending samples.by_length
       (listing.elements (fst (listing.GetRefs samples.by_length "x" fixtures.old_table))).
Proof.
  apply (listings_are_sorted samples.by_length "x" fixtures.old_table).
  - intros a b. unfold samples.by_length.
    destruct (Nat.leb_spec (String.length a) (String.length b)); [now left|right].
    apply Nat.leb_le. lia.
  - intros a b c. unfold samples.by_length. rewrite !Nat.leb_le. lia.
Defined.

(* ================================================================== *)
(** * A run, event by event *)

Section RunEvents.
Import indexer.
Variable filepath_Rel : string -> string -> string * error.
Context {S : Type}.

(** [processWorkItem] with a client, spelled out. *)
Lemma step_events (ix : Indexer S) (c : ai.Client) (item : workItem)
    (st st' : S) (e : error) (evs : list Event) :
  steps.step filepath_Rel ix c item st = Some (e, st', evs) ->
  exists (summary : string) (vec : slice float32) (needS needE : bool),
    e = None
    /\ st' = snd (store.UpsertChunk (Store ix)
                    (steps.upsert_arg filepath_Rel ix item summary) vec
                    (hashContent (content item)) st)
    /\ evs = (if needS
              then [CallSummarize (rel filepath_Rel (RepoRoot ix) (path item))
                                  (guessLang (path item))
                                  (steps.sent_text (content item))]
              else [])
             ++ (if needE then [CallEmbed summary] else [])
             ++ [LogIndexingChunk (rel filepath_Rel (RepoRoot ix) (path item))
                                  (steps.last_line (content item) - 1 + 1) needS needE;
                 CallUpsertChunk (steps.upsert_arg filepath_Rel ix item summary) vec
                   (hashContent (content item))
                   (fst (store.UpsertChunk (Store ix)
                           (steps.upsert_arg filepath_Rel ix item summary) vec
                           (hashContent (content item)) st))]
    /\ (if needE
        then exists r, ai.Embed c summary = Some r /\ vec = fst r
        else vec = None)
    /\ (if needS
        then exists a,
               ai.Summarize c (rel filepath_Rel (RepoRoot ix) (path item))
                            (guessLang (path item)) (steps.sent_text (content item))
               = Some a
               /\ summary = steps.kept_summary a (content item)
        else True).
Proof.
  unfold steps.step.
  destruct (steps.decide _ _) as [needS needE].
  destruct (if needS then _ else _) as [summary|] eqn:Hsum; [|discriminate].
  destruct (if needE then _ else _) as [vec|] eqn:Hvec; [|discriminate].
  destruct (store.UpsertChunk _ _ _ _ _) as [ue s'] eqn:Hu.
  intros H. injection H as <- <- <-.
  exists summary, vec, needS, needE. rewrite Hu. cbn [fst snd].
  split; [reflexivity|]. split; [reflexivity|]. split; [reflexivity|]. split.
  - destruct needE.
    + destruct (ai.Embed c summary) as [r|]; [|discriminate].
      cbn [option_map] in Hvec. injection Hvec as <-. now exists r.
    + now injection Hvec as <-.
  - destruct needS; [|exact I].
    destruct (ai.Summarize c _ _ _) as [a|]; [|discriminate].
    cbn [option_map] in Hsum. injection Hsum as <-. now exists a.
Qed.

(** [processWorkItem] without a client. *)
Lemma processWorkItem_nil (ix : Indexer S) (item : workItem) (st : S) :
  Client ix = None ->
  processWorkItem filepath_Rel ix item st
  = (if snd (steps.decide
               (store.GetChunkMeta (Store ix) (Repository ix)
                  (rel filepath_Rel (RepoRoot ix) (path item)) 1
                  (steps.last_line (content item)) st)
               (hashContent (content item)))
     then None
     else
       Some (None,
             snd (store.UpsertChunk (Store ix)
                    (steps.upsert_arg filepath_Rel ix item
                       (if fst (steps.decide
                                  (store.GetChunkMeta (Store ix) (Repository ix)
                                     (rel filepath_Rel (RepoRoot ix) (path item)) 1
                                     (steps.last_line (content item)) st)
                                  (hashContent (content item)))
                        then summarizeHeuristic (content item)
                        else store.Summary
                               (fst (fst (store.GetChunkMeta (Store ix) (Repository ix)
                                            (rel filepath_Rel (RepoRoot ix) (path item)) 1
                                            (steps.last_line (content item)) st)))))
                    None (hashContent (content item)) st),
             [LogIndexingChunk (rel filepath_Rel (RepoRoot ix) (path item))
                (steps.last_line (content item) - 1 + 1)
                (fst (steps.decide
                        (store.GetChunkMeta (Store ix) (Repository ix)
                           (rel filepath_Rel (RepoRoot ix) (path item)) 1
                           (steps.last_line (content item)) st)
                        (hashContent (content item))))
                false;
              CallUpsertChunk
                (steps.upsert_arg filepath_Rel ix item
                   (if fst (steps.decide
                              (store.GetChunkMeta (Store ix) (Repository ix)
                                 (rel filepath_Rel (RepoRoot ix) (path item)) 1
                                 (steps.last_line (content item)) st)
                              (hashContent (content item)))
                    then summarizeHeuristic (content item)
                    else store.Summary
                           (fst (fst (store.GetChunkMeta (Store ix) (Repository ix)
                                        (rel filepath_Rel (RepoRoot ix) (path item)) 1
                                        (steps.last_line (content item)) st)))))
                None (hashContent (content item))
                (fst (store.UpsertChunk (Store ix)
                        (steps.upsert_arg filepath_Rel ix item
                           (if fst (steps.decide
                                      (store.GetChunkMeta (Store ix) (Repository ix)
                                         (rel filepath_Rel (RepoRoot ix) (path item)) 1
                                         (steps.last_line (content item)) st)
                                      (hashContent (content item)))
                            then summarizeHeuristic (content item)
                            else store.Summary
                                   (fst (fst (store.GetChunkMeta (Store ix) (Repository ix)
                                                (rel filepath_Rel (RepoRoot ix) (path item)) 1
                                                (steps.last_line (content item)) st)))))
                        None (hashContent (content item)) st))])).
Proof.
  intros Hc.
  unfold processWorkItem, naiveChunk, forEach, processChunk.
  cbn [Content LineStart LineEnd].
  fold (steps.last_line (content item)).
  rewrite Hc.
  unfold bind, emit, lift, ret, panic. cbv beta.
  destruct (store.GetChunkMeta _ _ _ _ _ _) as [[meta found] err].
  unfold steps.decide, spec.need_summary, spec.need_embed. cbn [fst snd].
  destruct (match err with
            | Some _ => (true, true)
            | None => _
            end) as [needSummary needEmbed].
  cbn [fst snd].
  destruct needSummary, needEmbed; try reflexivity;
    unfold steps.upsert_arg;
    destruct (store.UpsertChunk _ _ _ _ _) as [e st']; reflexivity.
Qed.

Lemma visit_reaches_any (ix : Indexer S) (entry : string * bool) (st : S) :
  visit filepath_Rel ix entry st
  = match steps.reaches ix entry with
    | [] => Some (tt, st, [])
    | item :: _ =>
        match processWorkItem filepath_Rel ix item st with
        | Some (_, st', evs) => Some (tt, st', evs ++ [])
        | None => None
        end
    end.
Proof.
  destruct entry as [p is_dir]. unfold visit, steps.reaches. cbn [fst snd].
  destruct is_dir; [reflexivity|].
  destruct (shouldSkip p); [reflexivity|].
  destruct (FileReader_ ix p) as [b [e|]]; cbn [fst snd]; [reflexivity|].
  unfold bind, ret.
  destruct (processWorkItem filepath_Rel ix _ st) as [[[e st'] evs]|]; reflexivity.
Qed.

Lemma reaches_one (ix : Indexer S) (entry : string * bool) (item : workItem)
    (rest : list workItem) :
  steps.reaches ix entry = item :: rest -> rest = [].
Proof.
  unfold steps.reaches. destruct (snd entry); [discriminate|].
  destruct (shouldSkip (fst entry)); [discriminate|].
  destruct (snd (FileReader_ ix (fst entry))); [discriminate|].
  intros H. now inversion H.
Qed.

(** What holds of every item's events, and of the store along the way,
    holds of the run. *)
Lemma forEach_visit_invariant (ix : Indexer S) (P : Event -> Prop) (Q : S -> Prop) :
  (forall (item : workItem) (st st' : S) (e : error) (evs : list Event),
      Q st ->
      processWorkItem filepath_Rel ix item st = Some (e, st', evs) ->
      Forall P evs /\ Q st') ->
  forall (entries : list (string * bool)) (st st' : S) (u : unit) (evs : list Event),
    Q st ->
    forEach (visit filepath_Rel ix) entries st = Some (u, st', evs) ->
    Forall P evs /\ Q st'.
Proof.
  intros Hstep. induction entries as [|a entries IH]; intros st st' u evs HQ Hrun.
  - cbn in Hrun. unfold ret in Hrun. injection Hrun as _ <- <-. now split.
  - cbn [forEach] in Hrun. unfold bind in Hrun at 1.
    rewrite visit_reaches_any in Hrun.
    destruct (steps.reaches ix a) as [|item rest].
    + destruct (forEach (visit filepath_Rel ix) entries st) as [[[u' s2] l2]|] eqn:Hrest;
        [|discriminate].
      injection Hrun as _ <- <-. cbn [app]. now apply (IH st s2 u').
    + destruct (processWorkItem filepath_Rel ix item st) as [[[e s1] l1]|] eqn:Hitem;
        [|discriminate].
      destruct (forEach (visit filepath_Rel ix) entries s1) as [[[u' s2] l2]|] eqn:Hrest;
        [|discriminate].
      injection Hrun as _ <- <-. rewrite app_nil_r.
      destruct (Hstep item st s1 e l1 HQ Hitem) as [HP1 HQ1].
      destruct (IH s1 s2 u' l2 HQ1 Hrest) as [HP2 HQ2].
      split; [now apply Forall_app|exact HQ2].
Qed.

Lemma Run_invariant (ix : Indexer S) (P : Event -> Prop) (Q : S -> Prop) :
  (forall (item : workItem) (st st' : S) (e : error) (evs : list Event),
      Q st ->
      processWorkItem filepath_Rel ix item st = Some (e, st', evs) ->
      Forall P evs /\ Q st') ->
  forall (st st' : S) (e : error) (evs : list Event),
    Q st ->
    Run filepath_Rel ix st = Some (e, st', evs) ->
    e = snd (Walker ix (RepoRoot ix)) /\ Forall P evs /\ Q st'.
Proof.
  intros Hstep st st' e evs HQ Hrun. unfold Run in Hrun.
  destruct (Walker ix (RepoRoot ix)) as [entries walkErr]. cbn [snd].
  unfold bind, ret in Hrun.
  destruct (forEach (visit filepath_Rel ix) entries st) as [[[u s1] l1]|] eqn:Hfor;
    [|discriminate].
  injection Hrun as <- <- <-. rewrite app_nil_r.
  split; [reflexivity|].
  exact (forEach_visit_invariant ix P Q Hstep entries st s1 u l1 HQ Hfor).
Qed.

(** With a client that returns, every item is processed. *)
Lemma forEach_visit_total (ix : Indexer S) (c : ai.Client) :
  Client ix = Some c ->
  (forall filePath language text : string, ai.Summarize c filePath language text <> None) ->
  (forall text : string, ai.Embed c text <> None) ->
  forall (entries : list (string * bool)) (st : S),
  exists (st' : S) (evs : list Event),
    forEach (visit filepath_Rel ix) entries st = Some (tt, st', evs)
    /\ props.upserted_paths evs
       = map (fun item => rel filepath_Rel (RepoRoot ix) (path item))
             (flat_map (steps.reaches ix) entries).
Proof.
  intros Hc Hsum Hemb. induction entries as [|a entries IH]; intros st.
  - exists st, []. split; reflexivity.
  - cbn [forEach flat_map]. unfold bind at 1. rewrite visit_reaches_any.
    destruct (steps.reaches ix a) as [|item rest] eqn:Hr.
    + destruct (IH st) as (st' & evs & Hrun & Hp). exists st', evs.
      rewrite Hrun. split; [reflexivity|exact Hp].
    + pose proof (reaches_one _ _ _ _ Hr) as ->.
      rewrite (processWorkItem_step filepath_Rel ix c item st Hc).
      assert (Hstep : exists st1 evs1,
                 steps.step filepath_Rel ix c item st = Some (None, st1, evs1)
                 /\ props.upserted_paths evs1
                    = [rel filepath_Rel (RepoRoot ix) (path item)]).
      { unfold steps.step.
        destruct (steps.decide _ _) as [needS needE].
        destruct needS.
        - destruct (ai.Summarize c _ _ _) as [a0|] eqn:Hs; [|now apply Hsum in Hs].
          cbn [option_map]. destruct needE.
          + destruct (ai.Embed c _) as [r|] eqn:He; [|now apply Hemb in He].
            cbn [option_map].
            destruct (store.UpsertChunk _ _ _ _ _) as [ue s'].
            eexists. eexists. split; reflexivity.
          + destruct (store.UpsertChunk _ _ _ _ _) as [ue s'].
            eexists. eexists. split; reflexivity.
        - destruct needE.
          + destruct (ai.Embed c _) as [r|] eqn:He; [|now apply Hemb in He].
            cbn [option_map].
            destruct (store.UpsertChunk _ _ _ _ _) as [ue s'].
            eexists. eexists. split; reflexivity.
          + destruct (store.UpsertChunk _ _ _ _ _) as [ue s'].
            eexists. eexists. split; reflexivity. }
      destruct Hstep as (st1 & evs1 & Hstep & Hp1). rewrite Hstep.
      destruct (IH st1) as (st' & evs & Hrun & Hp). rewrite Hrun.
      exists st', ((evs1 ++ []) ++ evs). split; [reflexivity|].
      rewrite app_nil_r. unfold props.upserted_paths in *.
      rewrite flat_map_app, Hp1, Hp. reflexivity.
Qed.

End RunEvents.

Section ItemFacts.
Import indexer.
Variable filepath_Rel : string -> string -> string * error.
Context {S : Type}.

Lemma len_sent_text (body : string) : strings.len (steps.sent_text body) <= 400000.
Proof.
  unfold steps.sent_text.
  destruct (Z.gtb_spec (strings.len body) 400000); [apply len_upto|]; lia.
Qed.

Lemma upsert_arg_well_formed (ix : Indexer S) (item : workItem) (summary : string)
    (vec : slice float32) (result : error) :
  props.well_formed (Repository ix) (Ref ix)
    (CallUpsertChunk (steps.upsert_arg filepath_Rel ix item summary) vec
                     (hashContent (content item)) result).
Proof. cbn. repeat split. Qed.

(** Whatever the client is: the events of an item are well formed, and
    the store is left as its one upsert leaves it. *)
Lemma processWorkItem_outcome (ix : Indexer S) (item : workItem) (st st' : S)
    (e : error) (evs : list Event) :
  processWorkItem filepath_Rel ix item st = Some (e, st', evs) ->
  e = None
  /\ Forall (props.well_formed (Repository ix) (Ref ix)) evs
  /\ exists (summary : string) (vec : slice float32),
      st' = snd (store.UpsertChunk (Store ix)
                   (steps.upsert_arg filepath_Rel ix item summary) vec
                   (hashContent (content item)) st).
Proof.
  destruct (Client ix) as [c|] eqn:Hc.
  - rewrite (processWorkItem_step filepath_Rel ix c item st Hc). intros H.
    apply step_events in H as (summary & vec & needS & needE & -> & -> & -> & _ & _).
    split; [reflexivity|]. split; [|now exists summary, vec].
    repeat (apply Forall_app; split).
    + destruct needS; constructor; [apply len_sent_text|constructor].
    + destruct needE; constructor; [exact I|constructor].
    + constructor; [exact I|]. constructor; [|constructor].
      apply upsert_arg_well_formed.
  - rewrite (processWorkItem_nil filepath_Rel ix item st Hc).
    destruct (snd (steps.decide _ _)); [discriminate|].
    intros H. injection H as <- <- <-.
    split; [reflexivity|]. split; [|eexists; eexists; reflexivity].
    constructor; [exact I|]. constructor; [|constructor].
    apply upsert_arg_well_formed.
Qed.

End ItemFacts.



(** X19.  Everything that a run sends out is well formed, with or without
    a client: a text given to [Summarize] has at most 400000 bytes; every
    upsert carries the indexer's repository and ref, the span from line 1
    to the number of newlines plus one, the identifier derived by
    [chunkID] from its path and span, and the SHA-1 of its content. *)
Theorem Run_events_well_formed :
  forall (filepath_Rel : string -> string -> string * error) (S : Type)
         (ix : indexer.Indexer S) (st st' : S) (e : error)
         (evs : list indexer.Event),
    indexer.Run filepath_Rel ix st = Some (e, st', evs) ->
    Forall (props.well_formed (indexer.Repository ix) (indexer.Ref ix)) evs.
Proof.
  intros filepath_Rel S ix st st' e evs Hrun.
  apply (Run_invariant filepath_Rel ix
           (props.well_formed (indexer.Repository ix) (indexer.Ref ix))
           (fun _ => True)) in Hrun; [tauto| |exact I].
  intros item s s' e0 evs0 _ Hitem.
  apply processWorkItem_outcome in Hitem as (_ & H & _). now split.
Qed.

Lemma Run_events_well_formed_witness :
  exists (st' : store.Pg) (evs : list indexer.Event),
    indexer.Run fixtures.Rel_below fixtures.stub_indexer (store.empty 3)
    = Some (None, st', evs)
    /\ Forall (props.well_formed (indexer.Repository fixtures.stub_indexer)
                                 (indexer.Ref fixtures.stub_indexer)) evs.
Proof.
  destruct (indexer.Run fixtures.Rel_below fixtures.stub_indexer (store.empty 3))
    as [[[e st'] evs]|] eqn:E.
  2:{ vm_compute in E. discriminate. }
  pose proof E as E'. vm_compute in E'. injection E' as He _ _.
  exists st', evs. split; [rewrite <- He; reflexivity|].
  exact (Run_events_well_formed fixtures.Rel_below store.Pg fixtures.stub_indexer
           (store.empty 3) st' e evs E).
Defined.

(** X20.  A run over the Postgres store keeps the table as the indexer
    needs it: identifiers unique and derived by [chunkID], keys unique. *)
Theorem Run_keeps_table_invariants :
  forall (filepath_Rel : string -> string -> string * error) (eng : store.Engine)
         (ix : indexer.Indexer store.Pg) (st st' : store.Pg) (e : error)
         (evs : list indexer.Event),
    indexer.Store ix = store.PgStore eng ->
    invariants.pk_unique st ->
    invariants.ids_derived st ->
    schema.key_unique st ->
    indexer.Run filepath_Rel ix st = Some (e, st', evs) ->
    invariants.pk_unique st' /\ invariants.ids_derived st' /\ schema.key_unique st'.
Proof.
  intros filepath_Rel eng ix st st' e evs HStore Hpk Hids Hku Hrun.
  apply (Run_invariant filepath_Rel ix (fun _ => True)
           (fun s => invariants.pk_unique s /\ invariants.ids_derived s
                     /\ schema.key_unique s)) in Hrun; [tauto| |tauto].
  intros item s s' e0 evs0 (Hpk0 & Hids0 & Hku0) Hitem.
  apply processWorkItem_outcome in Hitem as (_ & _ & summary & vec & ->).
  rewrite HStore. cbn [store.UpsertChunk store.PgStore].
  split; [apply Forall_forall; intros; exact I|].
  destruct (wf_after_upsert (steps.upsert_arg filepath_Rel ix item summary) vec
              (indexer.hashContent (indexer.content item)) s Hpk0 Hids0 eq_refl)
    as [H1 H2].
  split; [exact H1|]. split; [exact H2|].
  now apply key_unique_after_upsert.
Qed.

Lemma Run_keeps_table_invariants_witness :
  exists (st' : store.Pg) (evs : list indexer.Event),
    indexer.Run fixtures.Rel_below fixtures.stub_indexer (store.empty 3)
    = Some (None, st', evs)
    /\ invariants.pk_unique st' /\ invariants.ids_derived st' /\ schema.key_unique st'.
Proof.
  destruct (indexer.Run fixtures.Rel_below fixtures.stub_indexer (store.empty 3))
    as [[[e st'] evs]|] eqn:E.
  2:{ vm_compute in E. discriminate. }
  pose proof E as E'. vm_compute in E'. injection E' as He _ _.
  exists st', evs. split; [rewrite <- He; reflexivity|].
  exact (Run_keeps_table_invariants fixtures.Rel_below (fixtures.flat_engine (Fin 0) 0 0)
           fixtures.stub_indexer (store.empty 3) st' e evs eq_refl
           (NoDup_nil _) (Forall_nil _) (NoDup_nil _) E).
Defined.



(* ================================================================== *)
(** * The providers *)

Section ProviderFacts.
Import strings providers.

Lemma Count_ReplaceAll (s : string) : Count (ReplaceAll s "010" " ") "010" = 0.
Proof.
  induction s as [|c s IH]; [reflexivity|].
  cbn [ReplaceAll Count]. rewrite IH.
  destruct (Ascii.eqb_spec c "010") as [->|N]; [reflexivity|].
  destruct (Ascii.eqb_spec c "010"); [contradiction|reflexivity].
Qed.

Lemma upto_upto (n : Z) (s : string) :
  0 <= n ->
  (if len (upto n s) >? n then upto n (upto n s) else upto n s)
  = (if len s >? n then upto n s else s).
Proof.
  intros Hn. pose proof (len_upto s n Hn) as Hle.
  destruct (Z.gtb_spec (len (upto n s)) n); [lia|].
  destruct (Z.gtb_spec (len s) n); [reflexivity|].
  apply upto_all. lia.
Qed.

Lemma keyless_Embed (c : OpenAIClient) (text : string) :
  APIKey (config c) = "" ->
  OpenAIClient.Embed c text = (None, Some (errors_New "PROVIDER_API_KEY unset")).
Proof. intros H. unfold OpenAIClient.Embed. now rewrite H. Qed.

End ProviderFacts.



(** X23.  The summary of the OpenAI client.  Only the first 8000 bytes of
    the content count; a summary that is returned has no line feed; with
    an error the summary is empty. *)
Theorem OpenAI_Summarize_shape :
  forall (c : providers.OpenAIClient) (filePath language content : string),
    providers.OpenAIClient.Summarize c filePath language content
    = providers.OpenAIClient.Summarize c filePath language (strings.upto 8000 content)
    /\ match providers.OpenAIClient.Summarize c filePath language content with
       | (s, None) => strings.Count s "010" = 0
       | (s, Some _) => s = ""
       end.
Proof.
  intros c filePath language content. split.
  - unfold providers.OpenAIClient.Summarize, providers.OpenAIClient.maxInput.
    cbv zeta. now rewrite upto_upto by lia.
  - unfold providers.OpenAIClient.Summarize.
    destruct (String.eqb (providers.APIKey (providers.config c)) ""); [reflexivity|].
    cbv zeta.
    destruct (providers.http c _) as [resp|e]; [|reflexivity].
    destruct ((providers.StatusCode resp <? 200) || (providers.StatusCode resp >=? 300)).
    + destruct (negb (String.eqb (providers.ErrorMessage resp) "")); reflexivity.
    + destruct (providers.Choices resp) as [[|first rest]|e]; try reflexivity.
      apply Count_ReplaceAll.
Qed.

(** X24.  [NewClient].  Without a configuration it fails.  With one it
    builds a client for the providers [openai], [vertexai] and [stub] and
    fails for any other; the client's dimension is the configured one, and
    when that is 0 it is 1536 for OpenAI (3072 for text-embedding-3-large),
    768 for Vertex AI, and 0 for the stub. *)
Theorem NewClient_dimension :
  forall (http : providers.Request -> providers.Response + err)
         (genai_NewClient : providers.genaiClientConfig -> option string),
    providers.NewClient http genai_NewClient None
    = (None, Some (providers.errors_New "client config is required"))
    /\ forall config : providers.ClientConfig,
        match providers.NewClient http genai_NewClient (Some config) with
        | (Some b, None) =>
            In (providers.Provider config)
               [providers.ProviderOpenAI; providers.ProviderVertexAI;
                providers.ProviderStub]
            /\ providers.Dim_of b
               = (if providers.Dim config =? 0
                  then props.default_dim (providers.Provider config)
                                         (providers.EmbedModel config)
                  else providers.Dim config)
        | (None, Some e) =>
            providers.Provider config = providers.ProviderVertexAI
            \/ e = providers.errors_New
                     ("unsupported provider: " ++ providers.Provider config)
        | _ => False
        end.
Proof.
  intros http g. split; [reflexivity|]. intros config.
  unfold providers.NewClient, props.default_dim.
  destruct (String.eqb_spec (providers.Provider config) providers.ProviderOpenAI)
    as [E1|N1].
  - split; [now left|]. cbn.
    destruct (providers.Dim config =? 0); [|reflexivity].
    destruct (String.eqb_spec (providers.EmbedModel config) "") as [->|Hm];
      [reflexivity|].
    destruct (String.eqb_spec (providers.EmbedModel config) "text-embedding-3-large")
      as [->|Hl]; [reflexivity|].
    destruct (String.eqb (providers.EmbedModel config) "text-embedding-3-small");
      destruct (String.eqb (providers.EmbedModel config) "text-embedding-ada-002");
      reflexivity.
  - destruct (String.eqb_spec (providers.Provider config) providers.ProviderVertexAI)
      as [E2|N2].
    + unfold providers.NewVertexAIClient.
      destruct (g _) as [msg|]; [now left|].
      split; [right; now left|]. cbn.
      destruct (providers.Dim config =? 0); reflexivity.
    + destruct (String.eqb_spec (providers.Provider config) providers.ProviderStub)
        as [E3|N3].
      * split; [right; right; now left|]. cbn.
        destruct (Z.eqb_spec (providers.Dim config) 0) as [->|_]; reflexivity.
      * now right.
Qed.

(* ================================================================== *)
(** * cmd/indexer: the ref of a local directory *)

Section LocalRefFacts.
Import strings cmd_indexer.

Lemma Split_nonempty (s : string) (sep : ascii) : Split s sep <> [].
Proof.
  destruct s as [|c r]; cbn [Split]; [discriminate|].
  destruct (Ascii.eqb c sep); [discriminate|].
  destruct (Split r sep); discriminate.
Qed.

Lemma Split_app (a b : string) (sep : ascii) :
  Split (a ++ String sep b)%string sep = Split a sep ++ Split b sep.
Proof.
  induction a as [|c a IH].
  - cbn [String.append Split app]. now rewrite Ascii.eqb_refl.
  - cbn [String.append Split]. rewrite IH.
    destruct (Ascii.eqb c sep); [reflexivity|].
    pose proof (Split_nonempty a sep) as Hne.
    destruct (Split a sep) as [|f fs]; [contradiction|reflexivity].
Qed.

Lemma Split_no_sep (s : string) : Contains s "/" = false -> Split s "/" = [s].
Proof.
  induction s as [|c s IH]; intros H; [reflexivity|].
  rewrite Contains_slash in H. apply orb_false_iff in H as [Hc Hs].
  cbn [Split]. now rewrite Hc, (IH Hs).
Qed.

Lemma last_app_nonempty {A : Type} (l1 l2 : list A) (d : A) :
  l2 <> [] -> last (l1 ++ l2) d = last l2 d.
Proof.
  intros H. induction l1 as [|x l1 IH]; [reflexivity|].
  cbn [app]. destruct (l1 ++ l2) eqn:E; [|exact IH].
  apply app_eq_nil in E as [_ E]. contradiction.
Qed.

Lemma TrimRight_slashes (n : nat) : TrimRight (props.slashes n) "/" = "".
Proof. induction n as [|n IH]; [reflexivity|]. cbn [props.slashes TrimRight]. now rewrite IH. Qed.

Lemma TrimRight_app_slashes (s : string) (n : nat) :
  TrimRight (s ++ props.slashes n)%string "/" = TrimRight s "/".
Proof.
  induction s as [|x s IH].
  - cbn [String.append]. apply TrimRight_slashes.
  - cbn [String.append TrimRight]. now rewrite IH.
Qed.

Lemma TrimRight_no_slash (s : string) : Contains s "/" = false -> TrimRight s "/" = s.
Proof.
  induction s as [|x s IH]; intros H; [reflexivity|].
  rewrite Contains_slash in H. apply orb_false_iff in H as [Hx Hs].
  cbn [TrimRight]. rewrite (IH Hs), Hx. now destruct s.
Qed.

End LocalRefFacts.

(** X25.  The ref that cmd/indexer gives to a local directory is the last
    element of its path, whatever slashes follow it; a path made of
    slashes alone, and the empty path, give the empty ref. *)
Theorem local_ref_is_directory_name :
  forall (dir name : string) (n : nat),
    name <> "" ->
    strings.Contains name "/" = false ->
    cmd_indexer.local_ref (dir ++ "/" ++ name ++ props.slashes n) = name
    /\ cmd_indexer.local_ref (name ++ props.slashes n) = name
    /\ cmd_indexer.local_ref (props.slashes n) = "".
Proof.
  intros dir name n Hne Hname. unfold cmd_indexer.local_ref.
  change ("/" ++ name ++ props.slashes n)%string
    with (String "/" (name ++ props.slashes n))%string.
  replace (dir ++ String "/" (name ++ props.slashes n))%string
    with ((dir ++ String "/" name) ++ props.slashes n)%string.
  2:{ clear. induction dir as [|c dir IH]; [reflexivity|]. cbn. now rewrite IH. }
  rewrite !TrimRight_app_slashes.
  change (dir ++ String "/" name)%string with (dir ++ (String "/" name))%string.
  assert (Htrim : cmd_indexer.TrimRight (dir ++ String "/" name) "/"
                  = (dir ++ String "/" name)%string).
  { induction dir as [|x dir IH].
    - cbn [String.append cmd_indexer.TrimRight].
      rewrite (TrimRight_no_slash name Hname). destruct name; [contradiction|reflexivity].
    - cbn [String.append cmd_indexer.TrimRight]. rewrite IH.
      destruct (dir ++ String "/" name)%string eqn:E; [|reflexivity].
      destruct dir; discriminate. }
  rewrite Htrim, Split_app, last_app_nonempty by apply Split_nonempty.
  rewrite (TrimRight_no_slash name Hname), (Split_no_sep name Hname).
  repeat split.
  change (props.slashes n) with ("" ++ props.slashes n)%string.
  now rewrite TrimRight_app_slashes.
Qed.

Lemma local_ref_is_directory_name_witness :
  cmd_indexer.local_ref ("/home/me" ++ "/" ++ "project" ++ props.slashes 1) = "project"
  /\ cmd_indexer.local_ref ("project" ++ props.slashes 1) = "project"
  /\ cmd_indexer.local_ref (props.slashes 1) = "".
Proof.
  apply (local_ref_is_directory_name "/home/me" "project" 1).
  - discriminate.
  - reflexivity.
Defined.

(* ================================================================== *)
(** * The path filter *)

Section LikeFacts.
Import strings store.

Lemma like_star (p : list ascii) (s : list ascii) :
  like ("%"%char :: p) s
  = like p s || match s with
                | [] => false
                | _ :: s' => like ("%"%char :: p) s'
                end.
Proof. destruct s; reflexivity. Qed.

Lemma like_star_all (s : list ascii) : like ["%"%char] s = true.
Proof.
  induction s as [|x s IH]; [reflexivity|].
  rewrite like_star, IH. apply orb_true_r.
Qed.

Lemma like_star_skip (p a s : list ascii) :
  like p s = true -> like ("%"%char :: p) (a ++ s) = true.
Proof.
  intros H. induction a as [|x a IH]; rewrite like_star.
  - cbn [app]. now rewrite H.
  - cbn [app]. rewrite IH. apply orb_true_r.
Qed.

Lemma like_plain (lit p s : list ascii) :
  forallb props.plain lit = true ->
  like (lit ++ p) (lit ++ s) = like p s.
Proof.
  induction lit as [|c lit IH]; intros H; [reflexivity|].
  cbn [forallb] in H. apply andb_true_iff in H as [Hc Hl].
  unfold props.plain in Hc. apply negb_true_iff in Hc.
  apply orb_false_iff in Hc as [Hc H3]. apply orb_false_iff in Hc as [H1 H2].
  cbn [app like]. rewrite H1, H2, H3, Ascii.eqb_refl. cbn [andb]. now apply IH.
Qed.

Lemma plain_lower_byte (c : ascii) : props.plain (lower_byte c) = props.plain c.
Proof. destruct c as [[] [] [] [] [] [] [] []]; vm_compute; reflexivity. Qed.

Lemma plain_ToLower (s : string) :
  props.bytes_all props.plain (ToLower s) = props.bytes_all props.plain s.
Proof.
  unfold props.bytes_all. induction s as [|c s IH]; [reflexivity|].
  cbn [ToLower list_ascii_of_string forallb]. now rewrite plain_lower_byte, IH.
Qed.

End LikeFacts.



(** X27.  The path filter is a LIKE pattern, not a literal: [%] as the
    filter lets every row through, and [_] every row whose path is not
    empty, whatever the path is. *)
Theorem path_filter_wildcards :
  forall r : store.Row,
    store.where_ (props.path_filter "%") r = true
    /\ store.where_ (props.path_filter "_") r
       = negb (String.eqb (store.path r) "").
Proof.
  intros r. unfold store.where_, props.path_filter.
  cbn [store.Repository store.Language store.PathContains store.Ref String.eqb
       Ascii.eqb Bool.eqb andb].
  unfold store.ilike_contains. split.
  - change (list_ascii_of_string (strings.ToLower ("%" ++ "%" ++ "%")))
      with ["%"%char; "%"%char; "%"%char].
    rewrite andb_true_r.
    change (list_ascii_of_string (strings.ToLower (store.path r)))
      with ([] ++ list_ascii_of_string (strings.ToLower (store.path r))).
    apply like_star_skip. apply (like_star_skip _ []). apply like_star_all.
  - change (list_ascii_of_string (strings.ToLower ("%" ++ "_" ++ "%")))
      with ["%"%char; "_"%char; "%"%char].
    rewrite andb_true_r.
    destruct (store.path r) as [|c p]; [reflexivity|].
    cbn [strings.ToLower list_ascii_of_string String.eqb negb].
    change (strings.lower_byte c :: list_ascii_of_string (strings.ToLower p))
      with ([] ++ strings.lower_byte c :: list_ascii_of_string (strings.ToLower p)).
    apply like_star_skip. cbn [store.like]. apply like_star_all.
Qed.

(* ================================================================== *)
(** * What [chunkID] hashes *)

Section IdTextFacts.
Import strings indexer.

Lemma uint_bytes (u : Decimal.uint) :
  props.bytes_all props.is_decimal (DecimalString.NilEmpty.string_of_uint u) = true.
Proof.
  unfold props.bytes_all.
  induction u as [|u IH|u IH|u IH|u IH|u IH|u IH|u IH|u IH|u IH|u IH];
    cbn [DecimalString.NilEmpty.string_of_uint list_ascii_of_string forallb];
    [reflexivity|rewrite IH; reflexivity ..].
Qed.

Lemma fmtI_bytes (z : Z) : props.bytes_all props.is_decimal (fmtI z) = true.
Proof.
  unfold fmtI, DecimalString.NilZero.string_of_int, DecimalString.NilZero.string_of_uint.
  destruct (Z.to_int z) as [u|u]; destruct u; try reflexivity;
    try apply uint_bytes;
    unfold props.bytes_all; cbn [list_ascii_of_string forallb];
    try (change (props.is_decimal "-") with true; cbn [andb]);
    try reflexivity;
    apply (uint_bytes (_ u)).
Qed.

Lemma fmtI_inj (a b : Z) : fmtI a = fmtI b -> a = b.
Proof.
  unfold fmtI. intros H.
  assert (Hnn : forall z : Z, Z.to_int z <> Decimal.Pos Decimal.Nil
                              /\ Z.to_int z <> Decimal.Neg Decimal.Nil).
  { intros [|p|p]; cbn [Z.to_int]; split; try discriminate;
      intros E; injection E as E; now apply DecimalPos.Unsigned.to_uint_nonnil in E. }
  apply (f_equal DecimalString.NilZero.int_of_string) in H.
  rewrite !DecimalString.NilZero.isi in H by apply Hnn.
  injection H as H. apply (f_equal Z.of_int) in H.
  now rewrite !DecimalZ.of_to in H.
Qed.

Lemma decimal_free (sep : ascii) (s x y : string) :
  props.is_decimal sep = false ->
  props.bytes_all props.is_decimal s = true ->
  s <> (x ++ String sep y)%string.
Proof.
  intros Hsep Hs E. subst s. rewrite bytes_all_app in Hs.
  apply andb_true_iff in Hs as [_ Hs]. unfold props.bytes_all in Hs.
  cbn [list_ascii_of_string forallb] in Hs. rewrite Hsep in Hs. discriminate.
Qed.

(** A text is cut in one way at its last separator. *)
Lemma cut_unique (sep : ascii) (B B' : string) :
  props.is_decimal sep = false ->
  props.bytes_all props.is_decimal B = true ->
  props.bytes_all props.is_decimal B' = true ->
  forall s s' : string,
    (s ++ String sep B)%string = (s' ++ String sep B')%string -> s = s' /\ B = B'.
Proof.
  intros Hsep HB HB'. induction s as [|c s IH]; intros [|c' s'] E;
    cbn [String.append] in E.
  - injection E as E. now split.
  - injection E as _ E. exfalso. exact (decimal_free sep B s' B' Hsep HB E).
  - injection E as _ E. exfalso. symmetry in E.
    exact (decimal_free sep B' s B Hsep HB' E).
  - injection E as -> E. destruct (IH s' E) as [-> ->]. now split.
Qed.

End IdTextFacts.

(** X28.  [chunkID] is the SHA-1 of a text that determines the path and
    the span: two chunks with one such text have the same path, the same
    first line and the same last line.  So two identifiers can only meet
    when path and span agree, or when SHA-1 collides. *)
Theorem chunk_id_text_is_injective :
  forall (p p' : string) (a b a' b' : Z),
    props.id_text p a b = props.id_text p' a' b' ->
    (p = p' /\ a = a' /\ b = b')
    /\ indexer.chunkID p a b = hex.EncodeToString (sha1.Sum (props.id_text p a b)).
Proof.
  intros p p' a b a' b' E. split.
  - unfold props.id_text in E.
    change (p ++ "#" ++ indexer.fmtI a ++ ":" ++ indexer.fmtI b)%string
      with (p ++ String "#" (indexer.fmtI a ++ String ":" (indexer.fmtI b)))%string in E.
    change (p' ++ "#" ++ indexer.fmtI a' ++ ":" ++ indexer.fmtI b')%string
      with (p' ++ String "#" (indexer.fmtI a' ++ String ":" (indexer.fmtI b')))%string in E.
    assert (Assoc : forall x y z : string,
               (x ++ String "#" (y ++ z))%string = ((x ++ String "#" y) ++ z)%string).
    { intros x y z. induction x as [|c x IH]; [reflexivity|]. cbn. now rewrite IH. }
    rewrite !Assoc in E.
    apply (cut_unique ":" _ _ eq_refl (fmtI_bytes b) (fmtI_bytes b')) in E as [E Eb].
    apply (cut_unique "#" _ _ eq_refl (fmtI_bytes a) (fmtI_bytes a')) in E as [Ep Ea].
    split; [exact Ep|]. split; now apply fmtI_inj.
  - change (indexer.chunkID p a b)
      with (hex.EncodeToString
              (sha1.Sum (p ++ "#" ++ indexer.fmtI a ++ ":" ++ indexer.fmtI b)%string)).
    reflexivity.
Qed.

Lemma chunk_id_text_is_injective_witness :
  ("main.go" = "main.go" /\ 1 = 1 /\ 4 = 4)
  /\ indexer.chunkID "main.go" 1 4
     = hex.EncodeToString (sha1.Sum (props.id_text "main.go" 1 4)).
Proof.
  exact (chunk_id_text_is_injective "main.go" "main.go" 1 4 1 4 eq_refl).
Defined.

(* ================================================================== *)
(** * The ranking again *)

Section MoreScoreFacts.
Import store.
Local Open Scope Q_scope.

Lemma normalized_mono (x y m : Q) : 0 <= m -> x <= y -> normalized x m <= normalized y m.
Proof.
  intros Hm Hxy. unfold normalized.
  destruct (Qeq_bool m 0) eqn:E; [apply Qle_refl|].
  apply Qeq_bool_neq in E.
  assert (Hpos : 0 < m).
  { destruct (Qlt_le_dec 0 m) as [H|H]; [exact H|].
    exfalso. apply E. now apply Qle_antisym. }
  unfold Qdiv. apply Qmult_le_compat_r; [exact Hxy|].
  apply Qlt_le_weak, Qinv_lt_0_compat, Hpos.
Qed.

Lemma normalized_eq (x y m : Q) : x == y -> normalized x m == normalized y m.
Proof.
  intros Hxy. unfold normalized.
  destruct (Qeq_bool m 0); [reflexivity|]. now rewrite Hxy.
Qed.

Lemma cand_signals_nonneg (eng : Engine) (sv : list float32) (qtext longest : string)
    (asked : bool) (r : Row) :
  0 <= sem_sim (cand eng sv qtext longest asked r)
  /\ 0 <= lex_sum (cand eng sv qtext longest asked r).
Proof. split; apply LEAST_GREATEST_0_1_range. Qed.

End MoreScoreFacts.

(** X29.  The final score is monotone in the semantic and in the lexical
    signal: of two candidates of one query with the same trigram
    similarity, script bias and noise penalty, the one that is not lower
    on either signal does not score lower. *)
Theorem score_is_monotone :
  forall (eng : store.Engine) (sv : list float32) (qtext longest : string)
         (asked : bool) (rs : list store.Row) (r1 r2 : store.Row),
    In r1 rs ->
    (store.sem_sim (store.cand eng sv qtext longest asked r1)
     <= store.sem_sim (store.cand eng sv qtext longest asked r2))%Q ->
    (store.lex_sum (store.cand eng sv qtext longest asked r1)
     <= store.lex_sum (store.cand eng sv qtext longest asked r2))%Q ->
    (store.tri (store.cand eng sv qtext longest asked r1)
     == store.tri (store.cand eng sv qtext longest asked r2))%Q ->
    store.script_bias (store.cand eng sv qtext longest asked r1)
    = store.script_bias (store.cand eng sv qtext longest asked r2) ->
    store.noise_penalty (store.cand eng sv qtext longest asked r1)
    = store.noise_penalty (store.cand eng sv qtext longest asked r2) ->
    (props.final_score (props.candidates eng sv qtext longest asked rs)
                       (store.cand eng sv qtext longest asked r1)
     <= props.final_score (props.candidates eng sv qtext longest asked rs)
                          (store.cand eng sv qtext longest asked r2))%Q.
Proof.
  intros eng sv qtext longest asked rs r1 r2 Hin Hsem Hlex Htri Hbias Hnoise.
  unfold props.final_score, store.score_of.
  set (cs := props.candidates eng sv qtext longest asked rs).
  set (c1 := store.cand eng sv qtext longest asked r1) in *.
  set (c2 := store.cand eng sv qtext longest asked r2) in *.
  assert (Hc1 : In c1 cs) by (unfold cs, props.candidates; now apply in_map).
  assert (Hms : (0 <= store.max_over store.sem_sim cs)%Q).
  { eapply Qle_trans; [|apply (max_over_ge store.sem_sim cs c1 Hc1)].
    apply cand_signals_nonneg. }
  assert (Hml : (0 <= store.max_over store.lex_sum cs)%Q).
  { eapply Qle_trans; [|apply (max_over_ge store.lex_sum cs c1 Hc1)].
    apply cand_signals_nonneg. }
  pose proof (normalized_mono _ _ _ Hms Hsem) as H1.
  pose proof (normalized_mono _ _ _ Hml Hlex) as H2.
  pose proof (normalized_eq _ _ (store.max_over store.tri cs) Htri) as H3.
  rewrite Hbias, Hnoise.
  set (n1 := store.normalized (store.sem_sim c1) _) in *.
  set (n2 := store.normalized (store.sem_sim c2) _) in *.
  set (l1 := store.normalized (store.lex_sum c1) _) in *.
  set (l2 := store.normalized (store.lex_sum c2) _) in *.
  set (t1 := store.normalized (store.tri c1) _) in *.
  set (t2 := store.normalized (store.tri c2) _) in *.
  set (sb := inject_Z (store.script_bias c2)).
  set (np := inject_Z (store.noise_penalty c2)).
  lra.
Qed.

Lemma score_is_monotone_witness :
  (props.final_score
     (props.candidates (fixtures.flat_engine (Fin (1 # 2)) (1 # 10) (3 # 10)) [1%Q]
        "foo" "foo" false
        [fixtures.a_row "src/foo.go" "go" None; fixtures.a_row "src/bar.go" "go" (Some [1%Q])])
     (store.cand (fixtures.flat_engine (Fin (1 # 2)) (1 # 10) (3 # 10)) [1%Q]
        "foo" "foo" false (fixtures.a_row "src/foo.go" "go" None))
   <= props.final_score
        (props.candidates (fixtures.flat_engine (Fin (1 # 2)) (1 # 10) (3 # 10)) [1%Q]
           "foo" "foo" false
           [fixtures.a_row "src/foo.go" "go" None;
            fixtures.a_row "src/bar.go" "go" (Some [1%Q])])
        (store.cand (fixtures.flat_engine (Fin (1 # 2)) (1 # 10) (3 # 10)) [1%Q]
           "foo" "foo" false (fixtures.a_row "src/bar.go" "go" (Some [1%Q]))))%Q.
Proof.
  apply (score_is_monotone (fixtures.flat_engine (Fin (1 # 2)) (1 # 10) (3 # 10)) [1%Q]
           "foo" "foo" false
           [fixtures.a_row "src/foo.go" "go" None;
            fixtures.a_row "src/bar.go" "go" (Some [1%Q])]
           (fixtures.a_row "src/foo.go" "go" None)
           (fixtures.a_row "src/bar.go" "go" (Some [1%Q]))).
  - left. reflexivity.
  - vm_compute. discriminate.
  - vm_compute. discriminate.
  - vm_compute. reflexivity.
  - reflexivity.
  - reflexivity.
Defined.

(** X30.  When no row that passes the filters has a vector, the query
    vector does not matter: [Search] returns the same results for any two
    vectors that the engine accepts, so the ranking is lexical. *)
Theorem Search_without_stored_vectors :
  forall (eng : store.Engine) (v1 v2 : slice float32) (k : Z)
         (opt : store.QueryOpts) (st : store.Pg),
    store.vector_in eng (store.NewVector v1) = true ->
    store.vector_in eng (store.NewVector v2) = true ->
    (forall r : store.Row,
        In r (store.rows st) -> store.where_ opt r = true -> store.summary_vec r = None) ->
    store.Store.Search eng v1 k opt st = store.Store.Search eng v2 k opt st.
Proof.
  intros eng v1 v2 k opt st H1 H2 Hnone.
  unfold store.Store.Search.
  destruct (String.eqb (strings.TrimSpace (store.QueryText opt)) ""); [reflexivity|].
  unfold store.ranking_query. rewrite H1, H2. cbn [negb].
  destruct (k <? 0); [reflexivity|].
  assert (Hf : forall r, In r (filter (store.where_ opt) (store.rows st)) ->
                         store.summary_vec r = None).
  { intros r Hr. apply filter_In in Hr as [Hr Hw]. now apply Hnone. }
  assert (Hex : forall sv : list float32,
             existsb (fun r => match store.summary_vec r with
                               | Some v => negb (Nat.eqb (List.length v) (List.length sv))
                               | None => false
                               end)
                     (filter (store.where_ opt) (store.rows st)) = false).
  { intros sv. apply existsb_false_forall. intros r Hr. now rewrite (Hf r Hr). }
  rewrite !Hex.
  assert (Hmap : map (store.cand eng (store.NewVector v1)
                        (strings.TrimSpace (store.QueryText opt))
                        (store.longestToken (strings.TrimSpace (store.QueryText opt)))
                        (store.askedForScript (strings.TrimSpace (store.QueryText opt))))
                     (filter (store.where_ opt) (store.rows st))
                 = map (store.cand eng (store.NewVector v2)
                          (strings.TrimSpace (store.QueryText opt))
                          (store.longestToken (strings.TrimSpace (store.QueryText opt)))
                          (store.askedForScript (strings.TrimSpace (store.QueryText opt))))
                       (filter (store.where_ opt) (store.rows st))).
  { apply map_ext_in. intros r Hr. unfold store.cand. now rewrite (Hf r Hr). }
  now rewrite Hmap.
Qed.

Lemma Search_without_stored_vectors_witness :
  store.Store.Search (fixtures.flat_engine (Fin 0) 0 0) (Some [1%Q]) 5
                     (fixtures.no_opts "foo") samples.bare_table
  = store.Store.Search (fixtures.flat_engine (Fin 0) 0 0) (Some [0%Q; 1%Q]) 5
                       (fixtures.no_opts "foo") samples.bare_table.
Proof.
  apply (Search_without_stored_vectors (fixtures.flat_engine (Fin 0) 0 0)
           (Some [1%Q]) (Some [0%Q; 1%Q]) 5 (fixtures.no_opts "foo") samples.bare_table
           eq_refl eq_refl).
  intros r [<-|[]] _. reflexivity.
Defined.
